(** * Sales & Stock dashboard ([app.py]): data preparation and stock adjustment

    A shallow embedding of [sanitize_and_prepare] and of the parts of [main]
    that load the sheet, filter the sales by date and apply a stock
    adjustment.  The pandas objects the program manipulates are modelled as
    the program sees them: a [DataFrame] is an ordered list of named, typed
    columns; frames live in a heap and are mutated in place; every library
    call that can raise returns a [result]. *)

From Stdlib Require Import ZArith SpecFloat.
From stdpp Require Import base option list gmap strings.

Local Open Scope Z_scope.

(** ** Machine numbers *)

(** [int64] cells: a [Z] kept in the signed 64-bit range, arithmetic wraps. *)
Module Int64.
Definition min_int : Z := - 2 ^ 63.
Definition max_int : Z := 2 ^ 63 - 1.
Definition in_range (z : Z) : Prop := min_int <= z <= max_int.
Definition in_rangeb (z : Z) : bool := (min_int <=? z) && (z <=? max_int).
Definition wrap (z : Z) : Z := (z + 2 ^ 63) mod 2 ^ 64 - 2 ^ 63.
Definition add (x y : Z) : Z := wrap (x + y).
Definition sub (x y : Z) : Z := wrap (x - y).
Definition mul (x y : Z) : Z := wrap (x * y).
Definition sum (l : list Z) : Z := fold_left add l 0.
End Int64.

(** [float64] cells: IEEE 754 binary64, from the Standard Library's
    executable specification. *)
Module F64.
Definition float : Type := spec_float.
Definition prec : Z := 53.
Definition emax : Z := 1024.
Definition nan : float := S754_nan.
Definition zero : float := S754_zero false.
Definition add : float -> float -> float := SFadd prec emax.
Definition sub : float -> float -> float := SFsub prec emax.
Definition mul : float -> float -> float := SFmul prec emax.
Definition eqb : float -> float -> bool := SFeqb.
Definition leb : float -> float -> bool := SFleb.
(** conversion of an integer, rounding to nearest even *)
Definition of_Z (z : Z) : float := binary_normalize prec emax z 0 false.
Definition is_nan (f : float) : bool :=
  match f with S754_nan => true | _ => false end.
Definition is_finite (f : float) : bool :=
  match f with S754_zero _ | S754_finite _ _ _ => true | _ => false end.
(** the integer part of a finite float, rounding toward zero *)
Definition trunc (f : float) : option Z :=
  match f with
  | S754_zero _ => Some 0
  | S754_finite s m e =>
      let a := if 0 <=? e then Z.pos m * 2 ^ e else Z.pos m / 2 ^ (- e) in
      Some (if s then - a else a)
  | _ => None
  end.
(** the integer a float is exactly equal to, if any *)
Definition to_Z_exact (f : float) : option Z :=
  match f with
  | S754_zero _ => Some 0
  | S754_finite s m e =>
      if 0 <=? e then Some (if s then - (Z.pos m * 2 ^ e) else Z.pos m * 2 ^ e)
      else if Z.pos m mod 2 ^ (- e) =? 0
           then Some (if s then - (Z.pos m / 2 ^ (- e)) else Z.pos m / 2 ^ (- e))
           else None
  | _ => None
  end.
(** the C cast [double -> int64_t] that [ndarray.astype] performs on finite
    values: truncation; a value outside the range gives [INT64_MIN] (what
    the x86-64 conversion instruction returns). *)
Definition to_int64 (f : float) : Z :=
  match trunc f with
  | Some z => if Int64.in_rangeb z then z else Int64.min_int
  | None => Int64.min_int
  end.
End F64.

Abbreviation float := F64.float.

#[global] Instance float_eq_dec : EqDecision spec_float.
Proof. solve_decision. Defined.

(** ** Exceptions and results *)

Inductive exn : Type :=
  | KeyError (key : string)
  | TypeError
  | ValueError
  | OverflowError
  | IndexError
  | IntCastingNaNError
  | MergeError
  | StopScript.

Inductive result (A : Type) : Type :=
  | Ok (a : A)
  | Raise (e : exn).
Arguments Ok {A} a.
Arguments Raise {A} e.

#[global] Instance result_ret : MRet result := fun A a => Ok a.
#[global] Instance result_bind : MBind result := fun A B f r =>
  match r with Ok a => f a | Raise e => Raise e end.
#[global] Instance result_fmap : FMap result := fun A B f r =>
  match r with Ok a => Ok (f a) | Raise e => Raise e end.

(** [[f(x) for x in l]], stopping at the first exception *)
Fixpoint mapR {A B : Type} (f : A -> result B) (l : list A) : result (list B) :=
  match l with
  | [] => Ok []
  | x :: r =>
      match f x with
      | Ok y => match mapR f r with Ok ys => Ok (y :: ys) | Raise e => Raise e end
      | Raise e => Raise e
      end
  end.

(** ** Python objects and their operators *)

(** What a cell of an [object] column holds in this program: the [int],
    [float] and [str] values that [get_all_records] yields; a missing value
    is the float NaN. *)
Inductive pyobj : Type :=
  | PInt (z : Z)
  | PFloat (f : float)
  | PStr (s : string).

#[global] Instance pyobj_eq_dec : EqDecision pyobj.
Proof. solve_decision. Defined.

Definition py_isna (o : pyobj) : bool :=
  match o with PFloat f => F64.is_nan f | _ => false end.

(** [float(z)] for a Python [int]: OverflowError when it does not fit *)
Definition py_float_of_int (z : Z) : result float :=
  let f := F64.of_Z z in
  if F64.is_finite f then Ok f else Raise OverflowError.

(** [s * n] *)
Definition str_repeat (s : string) (n : Z) : string :=
  String.concat "" (replicate (Z.to_nat n) s).

Definition py_float_op (op : float -> float -> float) (a b : pyobj) : result pyobj :=
  match a, b with
  | PInt x, PFloat g => f ← py_float_of_int x; Ok (PFloat (op f g))
  | PFloat f, PInt y => g ← py_float_of_int y; Ok (PFloat (op f g))
  | PFloat f, PFloat g => Ok (PFloat (op f g))
  | _, _ => Raise TypeError
  end.

Definition py_mul (a b : pyobj) : result pyobj :=
  match a, b with
  | PInt x, PInt y => Ok (PInt (x * y))
  | PStr s, PInt n | PInt n, PStr s => Ok (PStr (str_repeat s n))
  | _, _ => py_float_op F64.mul a b
  end.

Definition py_sub (a b : pyobj) : result pyobj :=
  match a, b with
  | PInt x, PInt y => Ok (PInt (x - y))
  | _, _ => py_float_op F64.sub a b
  end.

Definition py_add (a b : pyobj) : result pyobj :=
  match a, b with
  | PInt x, PInt y => Ok (PInt (x + y))
  | PStr s, PStr t => Ok (PStr (s ++ t)%string)
  | _, _ => py_float_op F64.add a b
  end.

(** [a == b] *)
Definition py_eqb (a b : pyobj) : bool :=
  match a, b with
  | PInt x, PInt y => x =? y
  | PFloat f, PFloat g => F64.eqb f g
  | PInt x, PFloat f | PFloat f, PInt x =>
      match F64.to_Z_exact f with Some y => x =? y | None => false end
  | PStr s, PStr t => String.eqb s t
  | _, _ => false
  end.

(** ** Columns *)

(** A column (a pandas [Series] without its index, which is a [RangeIndex]
    everywhere in this program) with its dtype: [int64], [float64],
    [object], or [datetime64[ns]] (nanoseconds since the epoch, [None] is
    [NaT]). *)
Inductive column : Type :=
  | ColInt (l : list Z)
  | ColFloat (l : list float)
  | ColObj (l : list pyobj)
  | ColTime (l : list (option Z)).

(** The value read from a cell. *)
Inductive scalar : Type :=
  | SInt (z : Z)
  | SFloat (f : float)
  | SObj (o : pyobj)
  | STime (t : option Z).

#[global] Instance scalar_eq_dec : EqDecision scalar.
Proof. solve_decision. Defined.

#[global] Instance column_eq_dec : EqDecision column.
Proof. solve_decision. Defined.

Definition cells (c : column) : list scalar :=
  match c with
  | ColInt l => SInt <$> l
  | ColFloat l => SFloat <$> l
  | ColObj l => SObj <$> l
  | ColTime l => STime <$> l
  end.

Definition col_length (c : column) : nat := length (cells c).

(** the Python objects of an array cast to [object] *)
Definition to_object (c : column) : result (list pyobj) :=
  match c with
  | ColInt l => Ok (PInt <$> l)
  | ColFloat l => Ok (PFloat <$> l)
  | ColObj l => Ok l
  | ColTime _ => Raise TypeError
  end.

Definition isna (x : scalar) : bool :=
  match x with
  | SInt _ => false
  | SFloat f => F64.is_nan f
  | SObj o => py_isna o
  | STime t => match t with None => true | Some _ => false end
  end.

(** [x == y] on cell values: numpy compares an [int64] with a [float64]
    after converting the integer, Python compares exactly. *)
Definition scalar_eqb (x y : scalar) : bool :=
  match x, y with
  | SInt a, SInt b => a =? b
  | SFloat f, SFloat g => F64.eqb f g
  | SInt a, SFloat f | SFloat f, SInt a => F64.eqb (F64.of_Z a) f
  | SObj o, SObj p => py_eqb o p
  | SObj o, SInt a | SInt a, SObj o => py_eqb o (PInt a)
  | SObj o, SFloat f | SFloat f, SObj o => py_eqb o (PFloat f)
  | STime (Some s), STime (Some t) => s =? t
  | _, _ => false
  end.

(** *** Element-wise arithmetic *)

Record binop : Type := {
  op_int : Z -> Z -> Z;
  op_float : float -> float -> float;
  op_py : pyobj -> pyobj -> result pyobj
}.

Definition op_add : binop :=
  {| op_int := Int64.add; op_float := F64.add; op_py := py_add |}.
Definition op_sub : binop :=
  {| op_int := Int64.sub; op_float := F64.sub; op_py := py_sub |}.
Definition op_mul : binop :=
  {| op_int := Int64.mul; op_float := F64.mul; op_py := py_mul |}.

(** pandas on [object] operands: the operator runs over the pairs in order;
    when that raises a TypeError it runs again over the pairs without a
    missing value only, the others become NaN. *)
Definition masked_op (op : pyobj -> pyobj -> result pyobj) (p : pyobj * pyobj)
  : result pyobj :=
  if py_isna p.1 || py_isna p.2 then Ok (PFloat F64.nan) else op p.1 p.2.

Definition object_op (op : pyobj -> pyobj -> result pyobj) (l r : list pyobj)
  : result (list pyobj) :=
  match mapR (fun p => op p.1 p.2) (zip l r) with
  | Raise TypeError => mapR (masked_op op) (zip l r)
  | res => res
  end.

(** [a (op) b] for two columns of one frame. *)
Definition col_arith (o : binop) (a b : column) : result column :=
  if negb (col_length a =? col_length b)%nat then Raise ValueError else
  match a, b with
  | ColInt x, ColInt y => Ok (ColInt (zip_with (op_int o) x y))
  | ColInt x, ColFloat y => Ok (ColFloat (zip_with (op_float o) (F64.of_Z <$> x) y))
  | ColFloat x, ColInt y => Ok (ColFloat (zip_with (op_float o) x (F64.of_Z <$> y)))
  | ColFloat x, ColFloat y => Ok (ColFloat (zip_with (op_float o) x y))
  | _, _ => x ← to_object a; y ← to_object b; ColObj <$> object_op (op_py o) x y
  end.

(** What [col_arith] computes in one row, read off the two cells: [int64]
    with [int64] wraps, a [float64] operand converts an [int64] one, an
    [object] operand makes it the Python operator on the two objects (a
    missing operand gives a missing result). *)
Definition py_of_scalar (x : scalar) : result pyobj :=
  match x with
  | SInt a => Ok (PInt a)
  | SFloat f => Ok (PFloat f)
  | SObj o => Ok o
  | STime _ => Raise TypeError
  end.

Definition scalar_op (o : binop) (x y : scalar) : result scalar :=
  match x, y with
  | SInt a, SInt b => Ok (SInt (op_int o a b))
  | SInt a, SFloat g => Ok (SFloat (op_float o (F64.of_Z a) g))
  | SFloat f, SInt b => Ok (SFloat (op_float o f (F64.of_Z b)))
  | SFloat f, SFloat g => Ok (SFloat (op_float o f g))
  | _, _ =>
      p ← py_of_scalar x;
      q ← py_of_scalar y;
      SObj <$> masked_op (op_py o) (p, q)
  end.

(** *** Selecting rows *)

Definition select {A : Type} (idx : list nat) (l : list A) : list A :=
  omap (fun i => l !! i) idx.

Definition take_col (c : column) (idx : list nat) : column :=
  match c with
  | ColInt l => ColInt (select idx l)
  | ColFloat l => ColFloat (select idx l)
  | ColObj l => ColObj (select idx l)
  | ColTime l => ColTime (select idx l)
  end.

Definition select_opt {A : Type} (idx : list (option nat)) (l : list A)
  : list (option A) :=
  (fun oi => i ← oi; l !! i) <$> idx.

(** rows taken from the right side of a join, [None] for a row without a
    match: the missing cell is NaN (NaT), which turns [int64] into
    [float64]. *)
Definition take_opt (c : column) (idx : list (option nat)) : column :=
  match c with
  | ColInt l =>
      let xs := select_opt idx l in
      if forallb (fun x => bool_decide (is_Some x)) xs then ColInt (omap (M:=list) (fun x : option Z => x) xs)
      else ColFloat (from_option F64.of_Z F64.nan <$> xs)
  | ColFloat l => ColFloat (default F64.nan <$> select_opt idx l)
  | ColObj l => ColObj (default (PFloat F64.nan) <$> select_opt idx l)
  | ColTime l => ColTime ((fun x : option (option Z) => t ← x; t) <$> select_opt idx l)
  end.

(** positions of the [True]s of a boolean mask *)
Definition mask_rows (mask : list bool) : list nat :=
  (fun p => p.1) <$> filter (fun p => Is_true p.2) (imap pair mask).

(** [series == value] *)
Definition col_eq (c : column) (v : scalar) : list bool :=
  (fun x => scalar_eqb x v) <$> cells c.

(** ** Data frames *)

Record DataFrame : Type := {
  nrows : nat;
  columns : list (string * column)
}.

#[global] Instance DataFrame_eq_dec : EqDecision DataFrame.
Proof. solve_decision. Defined.

Fixpoint assoc {A : Type} (k : string) (l : list (string * A)) : option A :=
  match l with
  | [] => None
  | (k', v) :: r => if String.eqb k k' then Some v else assoc k r
  end.

Fixpoint assoc_set {A : Type} (k : string) (v : A) (l : list (string * A))
  : list (string * A) :=
  match l with
  | [] => [(k, v)]
  | (k', v') :: r =>
      if String.eqb k k' then (k, v) :: r else (k', v') :: assoc_set k v r
  end.

(** [name in df.columns] *)
Definition contains (df : DataFrame) (name : string) : bool :=
  bool_decide (is_Some (assoc name (columns df))).

(** [df[name]] *)
Definition getitem (df : DataFrame) (name : string) : result column :=
  match assoc name (columns df) with
  | Some c => Ok c
  | None => Raise (KeyError name)
  end.

(** [df[name] = series]: replaces the column where it stands, or appends
    it. *)
Definition setitem (df : DataFrame) (name : string) (c : column)
  : result DataFrame :=
  if (col_length c =? nrows df)%nat
  then Ok {| nrows := nrows df; columns := assoc_set name c (columns df) |}
  else Raise ValueError.

(** [df[name] = z] for an integer constant *)
Definition setitem_scalar (df : DataFrame) (name : string) (z : Z) : DataFrame :=
  {| nrows := nrows df;
     columns := assoc_set name (ColInt (replicate (nrows df) z)) (columns df) |}.

(** [df.columns.get_loc(name)] *)
Fixpoint index_of (name : string) (names : list string) : option nat :=
  match names with
  | [] => None
  | n :: r => if String.eqb name n then Some 0%nat else S <$> index_of name r
  end.

Definition get_loc (df : DataFrame) (name : string) : result nat :=
  match index_of name (fst <$> columns df) with
  | Some i => Ok i
  | None => Raise (KeyError name)
  end.

(** [df.rename(columns=mapping)] *)
Definition rename (mapping : list (string * string)) (df : DataFrame) : DataFrame :=
  {| nrows := nrows df;
     columns := (fun p => (default p.1 (assoc p.1 mapping), p.2)) <$> columns df |}.

(** [df[mask]]: the rows kept, and the labels they keep in the index (the
    rows of a frame of this program are labelled by their position, a
    selection of them keeps the labels). *)
Record Selection : Type := {
  labels : list nat;
  rows : DataFrame
}.

Definition all_rows (df : DataFrame) : Selection :=
  {| labels := seq 0 (nrows df); rows := df |}.

Definition filter_rows (df : DataFrame) (mask : list bool) : DataFrame :=
  let idx := mask_rows mask in
  {| nrows := length idx;
     columns := (fun p => (p.1, take_col p.2 idx)) <$> columns df |}.

Definition select_rows (s : Selection) (mask : list bool) : Selection :=
  {| labels := select (mask_rows mask) (labels s);
     rows := filter_rows (rows s) mask |}.

(** [selection.index[0]] *)
Definition first_label (s : Selection) : result nat :=
  match labels s with
  | i :: _ => Ok i
  | [] => Raise IndexError
  end.

(** [series >= t], [series <= t] for an instant [t]: only a datetime column
    compares with it, and NaT compares false. *)
Definition col_cmp_time (cmp : Z -> Z -> bool) (c : column) (t : Z)
  : result (list bool) :=
  match c with
  | ColTime l =>
      Ok ((fun x => match x with Some v => cmp v t | None => false end) <$> l)
  | _ => Raise TypeError
  end.

(** ** What the libraries decide

    The functions of pandas and Python whose result is fixed by the library
    and not by this program.  The development is parametric in them. *)

Inductive number : Type :=
  | NInt (z : Z)
  | NFloat (f : float).

Class Runtime : Type := {
  (** [pd.to_datetime(series, errors="coerce")]: the parsed instants, [None]
      (NaT) where a value does not parse *)
  to_datetime : column -> list (option Z);
  (** the number [pd.to_numeric] reads in a [str] cell, [None] when it reads
      none *)
  str_to_numeric : string -> option number;
  (** [int(s)] for a [str] cell, [None] when it raises ValueError *)
  str_to_int : string -> option Z;
  (** the sum of the [float64] values of one group, in row order, as the
      group-by kernel computes it *)
  group_sum_f64 : list float -> float
}.

Section Pandas.
Context `{RT : Runtime}.

(** *** [pd.to_numeric(series, errors="coerce")] *)

Definition numeric_of_obj (o : pyobj) : number :=
  match o with
  | PInt z => NInt z
  | PFloat f => NFloat f
  | PStr s => default (NFloat F64.nan) (str_to_numeric s)
  end.

Definition number_float (n : number) : float :=
  match n with NInt z => F64.of_Z z | NFloat f => f end.

Definition number_int64 (n : number) : option Z :=
  match n with
  | NInt z => if Int64.in_rangeb z then Some z else None
  | NFloat _ => None
  end.

(** an [object] column becomes [int64] when every cell reads as an integer
    of that range, [float64] otherwise (what does not read is NaN) *)
Definition to_numeric (c : column) : column :=
  match c with
  | ColInt _ | ColFloat _ => c
  | ColObj l =>
      let ns := numeric_of_obj <$> l in
      match mapM number_int64 ns with
      | Some zs => ColInt zs
      | None => ColFloat (number_float <$> ns)
      end
  | ColTime l => ColInt (default Int64.min_int <$> l)
  end.

(** *** [series.fillna(v)] for a number [v] *)
Definition fillna (v : number) (c : column) : column :=
  match c with
  | ColInt _ | ColTime _ => c
  | ColFloat l =>
      ColFloat ((fun f => if F64.is_nan f then number_float v else f) <$> l)
  | ColObj l =>
      ColObj ((fun o => if py_isna o
                        then match v with NInt z => PInt z | NFloat f => PFloat f end
                        else o) <$> l)
  end.

(** *** [series.astype(int)] *)

(** [int(o)], which has to fit an [int64] cell *)
Definition py_int (o : pyobj) : result Z :=
  match o with
  | PInt z => if Int64.in_rangeb z then Ok z else Raise OverflowError
  | PFloat f =>
      match F64.trunc f with
      | Some z => if Int64.in_rangeb z then Ok z else Raise OverflowError
      | None => if F64.is_nan f then Raise ValueError else Raise OverflowError
      end
  | PStr s =>
      match str_to_int s with
      | Some z => if Int64.in_rangeb z then Ok z else Raise OverflowError
      | None => Raise ValueError
      end
  end.

Definition astype_int (c : column) : result column :=
  match c with
  | ColInt _ => Ok c
  | ColFloat l =>
      if forallb F64.is_finite l then Ok (ColInt (F64.to_int64 <$> l))
      else Raise IntCastingNaNError
  | ColObj l => ColInt <$> mapR py_int l
  | ColTime _ => Raise TypeError
  end.

(** *** [df.groupby(key, as_index=False).agg({col: "sum", ...})] *)

Fixpoint fold_leftR {A B : Type} (f : A -> B -> result A) (l : list B) (a : A)
  : result A :=
  match l with
  | [] => Ok a
  | b :: r => match f a b with Ok a' => fold_leftR f r a' | Raise e => Raise e end
  end.

(** the sum of the objects of a group: missing values are skipped, the
    others are added with [+] from the first one on *)
Definition py_sum (l : list pyobj) : result pyobj :=
  match List.filter (fun o => negb (py_isna o)) l with
  | [] => Ok (PInt 0)
  | x :: r => fold_leftR py_add r x
  end.

(** the rows that open a group: the first row of each key; rows whose key
    is missing belong to no group *)
Definition first_rows (ks : list scalar) : list nat :=
  List.filter
    (fun i => match ks !! i with
              | Some k => negb (isna k) && negb (existsb (scalar_eqb k) (take i ks))
              | None => false
              end)
    (seq 0 (length ks)).

(** the rows whose key equals [k] *)
Definition rows_of_key (ks : list scalar) (k : scalar) : list nat :=
  List.filter
    (fun j => match ks !! j with Some x => scalar_eqb k x | None => false end)
    (seq 0 (length ks)).

(** the groups, in the order their keys first appear.  pandas orders them by
    key; the only use of the aggregate here is as the right side of a left
    join, whose result does not depend on that order. *)
Definition groups (ks : list scalar) : list (list nat) :=
  omap (fun i => rows_of_key ks <$> ks !! i) (first_rows ks).

Definition group_sums (c : column) (gs : list (list nat)) : result column :=
  match c with
  | ColInt l => Ok (ColInt ((fun g => Int64.sum (select g l)) <$> gs))
  | ColFloat l => Ok (ColFloat ((fun g => group_sum_f64 (select g l)) <$> gs))
  | ColObj l => ColObj <$> mapR (fun g => py_sum (select g l)) gs
  | ColTime _ => Raise TypeError
  end.

Definition groupby_sum (df : DataFrame) (key : string) (cols : list string)
  : result DataFrame :=
  kc ← getitem df key;
  cs ← mapR (getitem df) cols;
  sums ← mapR (fun c => group_sums c (groups (cells kc))) cs;
  Ok {| nrows := length (first_rows (cells kc));
        columns := (key, take_col kc (first_rows (cells kc))) :: zip cols sums |}.

(** *** [pd.merge(left, right, on=key, how="left")] *)

(** join keys match when they are equal, or both missing *)
Definition key_match (x y : scalar) : bool :=
  (isna x && isna y) || scalar_eqb x y.

Definition matches (k : scalar) (rk : list scalar) : list nat :=
  List.filter
    (fun j => match rk !! j with Some y => key_match k y | None => false end)
    (seq 0 (length rk)).

(** for every left row in order, the right rows that match it, or none *)
Definition merge_pairs (lk rk : list scalar) : list (nat * option nat) :=
  concat (imap (fun i k => match matches k rk with
                           | [] => [(i, None)]
                           | js => (fun j => (i, Some j)) <$> js
                           end) lk).

Definition merge_left (left right : DataFrame) (on : string) : result DataFrame :=
  lk ← getitem left on;
  rk ← getitem right on;
  let pairs := merge_pairs (cells lk) (cells rk) in
  let others := List.filter (fun p => negb (String.eqb p.1 on)) (columns right) in
  let lcols :=
    (fun p => (if bool_decide (p.1 ∈ others.*1) then (p.1 ++ "_x")%string else p.1,
               take_col p.2 pairs.*1)) <$> columns left in
  let rcols :=
    (fun p => (if bool_decide (p.1 ∈ (columns left).*1) then (p.1 ++ "_y")%string else p.1,
               take_opt p.2 pairs.*2)) <$> others in
  if bool_decide (NoDup (lcols ++ rcols).*1)
  then Ok {| nrows := length pairs; columns := lcols ++ rcols |}
  else Raise MergeError.

End Pandas.

(** ** The world of a run *)

Definition loc : Type := nat.

(** what the page shows, in the order it is written *)
Inductive event : Type :=
  | Title (text : string)
  | ErrorBox (text : string)
  | Element (kind : string) (label : string).

(** The heap of data frames, the remote spreadsheet and the page.
    [source] is what reading the "Sales" and "Stock" worksheets gives at
    this moment: the text of the exception the connector raises, or the two
    frames built from the records.  [stock_cells] are the cells of the
    "Stock" worksheet by (row, column), both counted from 1. *)
Record world : Type := {
  heap : gmap loc DataFrame;
  source : string + (DataFrame * DataFrame);
  stock_cells : gmap (nat * nat) pyobj;
  screen : list event
}.

Definition with_heap (h : gmap loc DataFrame) (w : world) : world :=
  {| heap := h; source := source w; stock_cells := stock_cells w; screen := screen w |}.
Definition with_cells (c : gmap (nat * nat) pyobj) (w : world) : world :=
  {| heap := heap w; source := source w; stock_cells := c; screen := screen w |}.
Definition with_screen (s : list event) (w : world) : world :=
  {| heap := heap w; source := source w; stock_cells := stock_cells w; screen := s |}.

(** A computation: it ends with a value or an exception, in a new world. *)
Definition M (A : Type) : Type := world -> result A * world.

#[global] Instance M_ret : MRet M := fun A a w => (Ok a, w).
#[global] Instance M_bind : MBind M := fun A B f m w =>
  match m w with
  | (Ok a, w') => f a w'
  | (Raise e, w') => (Raise e, w')
  end.

Definition raise {A : Type} (e : exn) : M A := fun w => (Raise e, w).
Definition lift {A : Type} (r : result A) : M A := fun w => (r, w).

Definition for_each {A : Type} (l : list A) (body : A -> M unit) : M unit :=
  foldr (fun x k => body x;; k) (mret tt) l.

(** *** Frames in the heap *)

Definition alloc (df : DataFrame) : M loc := fun w =>
  let l := fresh (dom (heap w)) in
  (Ok l, with_heap (<[ l := df ]> (heap w)) w).

(** A name always refers to a frame; [KeyError ""] stands for a location
    that holds none, which Python code cannot produce. *)
Definition get_frame (l : loc) : M DataFrame := fun w =>
  match heap w !! l with
  | Some df => (Ok df, w)
  | None => (Raise (KeyError ""), w)
  end.

Definition put_frame (l : loc) (df : DataFrame) : M unit := fun w =>
  (Ok tt, with_heap (<[ l := df ]> (heap w)) w).

(** [df.copy()] *)
Definition df_copy (l : loc) : M loc := df ← get_frame l; alloc df.

Definition df_contains (l : loc) (name : string) : M bool :=
  df ← get_frame l; mret (contains df name).

Definition df_getitem (l : loc) (name : string) : M column :=
  df ← get_frame l; lift (getitem df name).

Definition df_setitem (l : loc) (name : string) (c : column) : M unit :=
  df ← get_frame l; df' ← lift (setitem df name c); put_frame l df'.

Definition df_setitem_scalar (l : loc) (name : string) (z : Z) : M unit :=
  df ← get_frame l; put_frame l (setitem_scalar df name z).

(** [df.rename(columns=mapping, inplace=True)] *)
Definition df_rename (l : loc) (mapping : list (string * string)) : M unit :=
  df ← get_frame l; put_frame l (rename mapping df).

Section Program.
Context `{RT : Runtime}.

(** ** [sanitize_and_prepare] (lines 46-80) *)

Definition sanitize_and_prepare (sales_df stock_df : loc) : M (loc * loc * loc) :=
  sales_df ← df_copy sales_df;
  stock_df ← df_copy stock_df;
  (* Ensure correct types *)
  has_date ← df_contains sales_df "Date";
  (if has_date : bool
   then d ← df_getitem sales_df "Date";
        df_setitem sales_df "Date" (ColTime (to_datetime d))
   else mret tt : M unit);;
  for_each ["Quantity Sold"; "Unit Price"; "Cost Price"] (fun col =>
    present ← df_contains sales_df col;
    if negb present then df_setitem_scalar sales_df col 0 else mret tt : M unit);;
  quantity ← df_getitem sales_df "Quantity Sold";
  price ← df_getitem sales_df "Unit Price";
  total ← lift (col_arith op_mul quantity price);
  df_setitem sales_df "Total" total;;
  price ← df_getitem sales_df "Unit Price";
  cost ← df_getitem sales_df "Cost Price";
  margin ← lift (col_arith op_sub price cost);
  quantity ← df_getitem sales_df "Quantity Sold";
  profit ← lift (col_arith op_mul margin quantity);
  df_setitem sales_df "Profit" profit;;
  for_each ["Opening Stock"; "Stock In"; "Stock Out"; "Min Threshold"] (fun col =>
    present ← df_contains stock_df col;
    if negb present then df_setitem_scalar stock_df col 0 else mret tt : M unit);;
  for_each ["Opening Stock"; "Stock In"; "Stock Out"; "Min Threshold"] (fun col =>
    c ← df_getitem stock_df col;
    c ← lift (astype_int (fillna (NInt 0) (to_numeric c)));
    df_setitem stock_df col c);;
  (* Aggregate sales by product *)
  sales ← get_frame sales_df;
  agg ← lift (groupby_sum sales "Product" ["Quantity Sold"; "Total"; "Profit"]);
  sales_agg ← alloc agg;
  df_rename sales_agg [("Quantity Sold", "Total Sold"); ("Total", "Sales Value");
                       ("Profit", "Total Profit")];;
  (* Merge with stock *)
  stock ← get_frame stock_df;
  agg ← get_frame sales_agg;
  joined ← lift (merge_left stock agg "Product");
  merged ← alloc joined;
  c ← df_getitem merged "Total Sold";
  c ← lift (astype_int (fillna (NInt 0) c));
  df_setitem merged "Total Sold" c;;
  c ← df_getitem merged "Sales Value";
  df_setitem merged "Sales Value" (fillna (NFloat F64.zero) c);;
  c ← df_getitem merged "Total Profit";
  df_setitem merged "Total Profit" (fillna (NFloat F64.zero) c);;
  opening ← df_getitem merged "Opening Stock";
  stock_in ← df_getitem merged "Stock In";
  s1 ← lift (col_arith op_add opening stock_in);
  stock_out ← df_getitem merged "Stock Out";
  s2 ← lift (col_arith op_sub s1 stock_out);
  sold ← df_getitem merged "Total Sold";
  current ← lift (col_arith op_sub s2 sold);
  df_setitem merged "Current Stock" current;;
  mret (sales_df, stock_df, merged).

(** ** [main] (lines 84-176) *)

(** *** The page and the worksheet *)

Definition st_title (text : string) : M unit := fun w =>
  (Ok tt, with_screen (screen w ++ [Title text]) w).
Definition st_error (text : string) : M unit := fun w =>
  (Ok tt, with_screen (screen w ++ [ErrorBox text]) w).
(** [st.stop()] ends the run of the script. *)
Definition st_stop {A : Type} : M A := raise StopScript.

(** [stock_ws.update_cell(row, col, value)] *)
Definition update_cell (row col : nat) (value : Z) : M unit := fun w =>
  (Ok tt, with_cells (<[ (row, col) := PInt value ]> (stock_cells w)) w).

(** [load_data] (lines 35-42): the connector raises, or the frames built
    from the records of the two worksheets are returned.  (The 60 s cache
    around it is not modelled: [source] is what the call returns.) *)
Definition load_data : world -> (string + loc * loc) * world := fun w =>
  match source w with
  | inl message => (inl message, w)
  | inr (sales, stock) =>
      let l1 := fresh (dom (heap w)) in
      let h1 := <[ l1 := sales ]> (heap w) in
      let l2 := fresh (dom h1) in
      (inr (l1, l2), with_heap (<[ l2 := stock ]> h1) w)
  end.

(** [try: ... = load_data() except Exception as e: handler] *)
Definition try_load_data (handler : string -> M (loc * loc)) : M (loc * loc) :=
  fun w =>
    match load_data w with
    | (inl e, w') => handler e w'
    | (inr raw, w') => (Ok raw, w')
    end.

(** *** The date and product filter of the sales (lines 124-126) *)

Definition filter_sales (sales_df : DataFrame) (start_date end_date : Z)
    (product_sel : pyobj) : result Selection :=
  d ← getitem sales_df "Date";
  from_start ← col_cmp_time Z.geb d start_date;
  d ← getitem sales_df "Date";
  to_end ← col_cmp_time Z.leb d end_date;
  let filtered_sales := select_rows (all_rows sales_df) (zip_with andb from_start to_end) in
  if negb (py_eqb product_sel (PStr "All"))
  then p ← getitem (rows filtered_sales) "Product";
       Ok (select_rows filtered_sales (col_eq p (SObj product_sel)))
  else Ok filtered_sales.

(** *** Applying an adjustment (lines 166-176, the body of the button) *)

(** [df.at[idx, name]] *)
Definition at_cell (df : DataFrame) (idx : nat) (name : string) : result scalar :=
  c ← getitem df name;
  match cells c !! idx with
  | Some x => Ok x
  | None => Raise (KeyError name)
  end.

(** [df.at[idx, name]] on one of the integer columns.  The frames that reach
    this code come out of [sanitize_and_prepare], where the five quantity
    columns are [int64]; another dtype is reported as a TypeError. *)
Definition at_int (df : DataFrame) (idx : nat) (name : string) : result Z :=
  x ← at_cell df idx name;
  match x with
  | SInt z => Ok z
  | _ => Raise TypeError
  end.

(** [df.at[idx, name] = z] for an integer that fits the column (the widgets
    deliver no other one). *)
Definition at_set_int (df : DataFrame) (idx : nat) (name : string) (z : Z)
  : result DataFrame :=
  c ← getitem df name;
  match c with
  | ColInt l =>
      if negb (Int64.in_rangeb z) then Raise OverflowError
      else if bool_decide (idx < length l)%nat
           then setitem df name (ColInt (<[ idx := z ]> l))
           else Raise (KeyError name)
  | _ => Raise TypeError
  end.

(** [numpy.int64 + int], as in [df.at[idx, name] += n]: the Python [int] is
    taken as an [int64] (NumPy 2 refuses one that does not fit with an
    OverflowError), and the sum wraps around. *)
Definition np_add (v n : Z) : result Z :=
  if negb (Int64.in_rangeb n) then Raise OverflowError else Ok (Int64.add v n).

Definition df_at (l : loc) (idx : nat) (name : string) : M Z :=
  df ← get_frame l; lift (at_int df idx name).

Definition df_at_set (l : loc) (idx : nat) (name : string) (z : Z) : M unit :=
  df ← get_frame l; df' ← lift (at_set_int df idx name z); put_frame l df'.

(** [df[df['Product'] == product].index[0]] *)
Definition df_first_row (l : loc) (product : scalar) : M nat :=
  df ← get_frame l;
  p ← lift (getitem df "Product");
  lift (first_label (select_rows (all_rows df) (col_eq p product))).

Definition df_get_loc (l : loc) (name : string) : M nat :=
  df ← get_frame l; lift (get_loc df name).

(** Modelled from the spec: the third [update_cell] call.  The source text
    ends inside it, in the column name of its [get_loc]; it is completed like
    the two calls before it, as the write-back of three cells requires. *)
Definition write_min_threshold (merged stock_df : loc) (idx row_num : nat) : M unit :=
  col ← df_get_loc stock_df "Min Threshold";
  v ← df_at merged idx "Min Threshold";
  update_cell row_num (col + 1) v.

Definition apply_adjustment (merged stock_df : loc) (product_to_adjust : scalar)
    (add_in add_out set_threshold : Z) : M unit :=
  idx ← df_first_row merged product_to_adjust;
  v ← df_at merged idx "Stock In";
  z ← lift (np_add v add_in);
  df_at_set merged idx "Stock In" z;;
  v ← df_at merged idx "Stock Out";
  z ← lift (np_add v add_out);
  df_at_set merged idx "Stock Out" z;;
  df_at_set merged idx "Min Threshold" set_threshold;;
  opening ← df_at merged idx "Opening Stock";
  stock_in ← df_at merged idx "Stock In";
  stock_out ← df_at merged idx "Stock Out";
  sold ← df_at merged idx "Total Sold";
  df_at_set merged idx "Current Stock"
    (Int64.sub (Int64.sub (Int64.add opening stock_in) stock_out) sold);;
  pos ← df_first_row stock_df product_to_adjust;
  let row_num := (pos + 2)%nat in
  col ← df_get_loc stock_df "Stock In";
  v ← df_at merged idx "Stock In";
  update_cell row_num (col + 1) v;;
  col ← df_get_loc stock_df "Stock Out";
  v ← df_at merged idx "Stock Out";
  update_cell row_num (col + 1) v;;
  write_min_threshold merged stock_df idx row_num.

(** *** [main]

    Lines 85-93 as they stand.  [dashboard] is the rest of the function
    (lines 95-176: the KPI cards, the charts, the tables and the adjustment
    form), of which [filter_sales] and [apply_adjustment] above are the
    parts that compute. *)
Definition main (dashboard : loc -> loc -> loc -> M unit) : M unit :=
  st_title "📊 Sales & Stock Management Dashboard (Google Sheets)";;
  raw ← try_load_data (fun e =>
    st_error ("Could not load Google Sheet: " ++ e);;
    st_stop);
  frames ← sanitize_and_prepare raw.1 raw.2;
  dashboard frames.1.1 frames.1.2 frames.2.

End Program.

(** ** The frames [sanitize_and_prepare] builds, as functions of its inputs

    These follow the heap program block by block; [sanitize_and_prepare_run]
    below proves that the program computes them.  They serve to state what
    the frames it leaves in the heap contain. *)

Section Views.
Context `{RT : Runtime}.

Definition default_columns (names : list string) (df : DataFrame) : DataFrame :=
  fold_left (fun df col => if negb (contains df col) then setitem_scalar df col 0 else df)
            names df.

Definition coerce_columns (names : list string) (df : DataFrame) : result DataFrame :=
  fold_leftR (fun df col =>
                c ← getitem df col;
                c ← astype_int (fillna (NInt 0) (to_numeric c));
                setitem df col c)
             names df.

Definition sales_columns : list string := ["Quantity Sold"; "Unit Price"; "Cost Price"].
Definition stock_columns : list string :=
  ["Opening Stock"; "Stock In"; "Stock Out"; "Min Threshold"].

(** lines 51-52 *)
Definition parsed_dates (sales : DataFrame) : result DataFrame :=
  if contains sales "Date"
  then d ← getitem sales "Date"; setitem sales "Date" (ColTime (to_datetime d))
  else Ok sales.

(** lines 51-57 *)
Definition prepared_sales (sales : DataFrame) : result DataFrame :=
  s1 ← parsed_dates sales;
  let s2 := default_columns sales_columns s1 in
  quantity ← getitem s2 "Quantity Sold";
  price ← getitem s2 "Unit Price";
  total ← col_arith op_mul quantity price;
  s3 ← setitem s2 "Total" total;
  price ← getitem s3 "Unit Price";
  cost ← getitem s3 "Cost Price";
  margin ← col_arith op_sub price cost;
  quantity ← getitem s3 "Quantity Sold";
  profit ← col_arith op_mul margin quantity;
  setitem s3 "Profit" profit.

(** lines 59-63 *)
Definition prepared_stock (stock : DataFrame) : result DataFrame :=
  coerce_columns stock_columns (default_columns stock_columns stock).

(** lines 66-71 *)
Definition sales_summary (sales : DataFrame) : result DataFrame :=
  agg ← groupby_sum sales "Product" ["Quantity Sold"; "Total"; "Profit"];
  Ok (rename [("Quantity Sold", "Total Sold"); ("Total", "Sales Value");
              ("Profit", "Total Profit")] agg).

(** lines 74-78 *)
Definition reconciled (stock agg : DataFrame) : result DataFrame :=
  m0 ← merge_left stock agg "Product";
  c ← getitem m0 "Total Sold";
  c ← astype_int (fillna (NInt 0) c);
  m1 ← setitem m0 "Total Sold" c;
  c ← getitem m1 "Sales Value";
  m2 ← setitem m1 "Sales Value" (fillna (NFloat F64.zero) c);
  c ← getitem m2 "Total Profit";
  m3 ← setitem m2 "Total Profit" (fillna (NFloat F64.zero) c);
  opening ← getitem m3 "Opening Stock";
  stock_in ← getitem m3 "Stock In";
  s1 ← col_arith op_add opening stock_in;
  stock_out ← getitem m3 "Stock Out";
  s2 ← col_arith op_sub s1 stock_out;
  sold ← getitem m3 "Total Sold";
  current ← col_arith op_sub s2 sold;
  setitem m3 "Current Stock" current.

(** lines 168-171: the reconciled frame after an adjustment of row [idx] *)
Definition adjusted (mg : DataFrame) (idx : nat) (add_in add_out set_threshold : Z)
  : result DataFrame :=
  v ← at_int mg idx "Stock In";
  z ← np_add v add_in;
  m1 ← at_set_int mg idx "Stock In" z;
  v ← at_int m1 idx "Stock Out";
  z ← np_add v add_out;
  m2 ← at_set_int m1 idx "Stock Out" z;
  m3 ← at_set_int m2 idx "Min Threshold" set_threshold;
  opening ← at_int m3 idx "Opening Stock";
  stock_in ← at_int m3 idx "Stock In";
  stock_out ← at_int m3 idx "Stock Out";
  sold ← at_int m3 idx "Total Sold";
  at_set_int m3 idx "Current Stock"
    (Int64.sub (Int64.sub (Int64.add opening stock_in) stock_out) sold).

(** [df[df['Product'] == product].index[0]] *)
Definition first_row (df : DataFrame) (product : scalar) : result nat :=
  p ← getitem df "Product";
  first_label (select_rows (all_rows df) (col_eq p product)).

(** the four frames of a run: sanitized sales, sanitized stock, aggregate,
    reconciled *)
Definition pipeline (sales stock : DataFrame)
  : result (DataFrame * DataFrame * DataFrame * DataFrame) :=
  s ← prepared_sales sales;
  k ← prepared_stock stock;
  a ← sales_summary s;
  m ← reconciled k a;
  Ok (s, k, a, m).

End Views.

(** *** The stock formula *)

(** In every row the five quantities are [int64] cells and Current Stock is
    Opening Stock + Stock In - Stock Out - Total Sold in [int64] arithmetic:
    the integer itself whenever it fits. *)
Definition current_stock_holds (df : DataFrame) : Prop :=
  ∀ j, (j < nrows df)%nat ->
    ∃ opening stock_in stock_out sold current,
      at_int df j "Opening Stock" = Ok opening ∧
      at_int df j "Stock In" = Ok stock_in ∧
      at_int df j "Stock Out" = Ok stock_out ∧
      at_int df j "Total Sold" = Ok sold ∧
      at_int df j "Current Stock" = Ok current ∧
      current = Int64.wrap (opening + stock_in - stock_out - sold) ∧
      (Int64.in_range (opening + stock_in - stock_out - sold) ->
       current = opening + stock_in - stock_out - sold).

(** the float 0.0 in a cell: a [float64] cell or, in an [object] column, a
    Python [float] *)
Definition float_zero (x : scalar) : Prop :=
  x = SFloat F64.zero ∨ x = SObj (PFloat F64.zero).

(** *** Well-formed inputs *)

(** every column has one cell per row *)
Definition well_formed (df : DataFrame) : bool :=
  forallb (fun p => (col_length p.2 =? nrows df)%nat) (columns df).

(** a product key that is a string or an integer *)
Definition plain_key (x : scalar) : bool :=
  match x with
  | SInt _ | SObj (PInt _) | SObj (PStr _) => true
  | _ => false
  end.

Definition plain_keys (df : DataFrame) : bool :=
  match assoc "Product" (columns df) with
  | Some c => forallb plain_key (cells c)
  | None => true
  end.

(** ** A runtime to run the program on examples

    Integers in decimal notation, dates as [YYYY-MM-DD], float sums from
    left to right. *)
Module Example.

Fixpoint digits (s : string) (acc : Z) : option Z :=
  match s with
  | EmptyString => Some acc
  | String c r =>
      let n := Z.of_nat (Ascii.nat_of_ascii c) - 48 in
      if (0 <=? n) && (n <=? 9) then digits r (10 * acc + n) else None
  end.

Definition parse_nat (s : string) : option Z :=
  match s with
  | EmptyString => None
  | _ => digits s 0
  end.

Definition parse_int (s : string) : option Z :=
  match s with
  | String c r =>
      if (Ascii.nat_of_ascii c =? 45)%nat then Z.opp <$> parse_nat r else parse_nat s
  | EmptyString => None
  end.

(** days from 1970-01-01 to the civil date [y-m-d] *)
Definition days_from_civil (y m d : Z) : Z :=
  let y' := if m <=? 2 then y - 1 else y in
  let era := y' / 400 in
  let yoe := y' - era * 400 in
  let doy := (153 * (if 2 <? m then m - 3 else m + 9) + 2) / 5 + d - 1 in
  let doe := yoe * 365 + yoe / 4 - yoe / 100 + doy in
  era * 146097 + doe - 719468.

Definition parse_date (s : string) : option Z :=
  if negb (String.length s =? 10)%nat then None else
  if negb (String.eqb (String.substring 4 1 s) "-" && String.eqb (String.substring 7 1 s) "-") then None else
  y ← parse_nat (String.substring 0 4 s);
  m ← parse_nat (String.substring 5 2 s);
  d ← parse_nat (String.substring 8 2 s);
  if (1 <=? m) && (m <=? 12) && (1 <=? d) && (d <=? 31)
  then Some (days_from_civil y m d * 86400 * 10 ^ 9)
  else None.

Definition parse_dates (c : column) : list (option Z) :=
  match c with
  | ColObj l => (fun o => match o with PStr s => parse_date s | _ => None end) <$> l
  | ColTime l => l
  | ColInt l => Some <$> l
  | ColFloat l => (fun _ => None) <$> l
  end.

Definition sum_floats (l : list float) : float :=
  fold_left (fun acc f => if F64.is_nan f then acc else F64.add acc f) l F64.zero.

#[local] Instance runtime : Runtime := {|
  to_datetime := parse_dates;
  str_to_numeric := fun s => NInt <$> parse_int s;
  str_to_int := parse_int;
  group_sum_f64 := sum_floats
|}.

Definition empty_world : world :=
  {| heap := ∅; source := inl ""; stock_cells := ∅; screen := [] |}.

(** a world whose heap holds the raw Sales frame at 0 and the raw Stock
    frame at 1 *)
Definition world_of (sales stock : DataFrame) : world :=
  with_heap (<[ 1%nat := stock ]> (<[ 0%nat := sales ]> ∅)) empty_world.

(** the scenario of the specification: one product A, three units sold *)
Definition sales_A : DataFrame :=
  {| nrows := 1;
     columns := [("Date", ColObj [PStr "2024-01-15"]); ("Product", ColObj [PStr "A"]);
                 ("Quantity Sold", ColInt [3]); ("Unit Price", ColInt [10]);
                 ("Cost Price", ColInt [6])] |}.

Definition stock_A : DataFrame :=
  {| nrows := 1;
     columns := [("Product", ColObj [PStr "A"]); ("Category", ColObj [PStr "Tools"]);
                 ("Opening Stock", ColInt [10]); ("Stock In", ColInt [5]);
                 ("Stock Out", ColInt [2]); ("Min Threshold", ColInt [8])] |}.

Definition scenario : world := world_of sales_A stock_A.

(** the world after [sanitize_and_prepare] on the scenario: the sanitized
    sales at 2, the sanitized stock at 3, the reconciled frame at 5 *)
Definition scenario_prepared : world := (sanitize_and_prepare 0%nat 1%nat scenario).2.

(** the adjustment of the specification's scenario: remove 15 of A *)
Definition scenario_adjusted : world :=
  (apply_adjustment 5%nat 3%nat (SObj (PStr "A")) 0 15 8 scenario_prepared).2.

(** a sale with a date that is no date, a product C that is sold but not
    stocked, a product B that is stocked but not sold *)
Definition sales_B : DataFrame :=
  {| nrows := 3;
     columns := [("Date", ColObj [PStr "2024-01-15"; PStr "not a date"; PStr "2024-01-16"]);
                 ("Product", ColObj [PStr "A"; PStr "A"; PStr "C"]);
                 ("Quantity Sold", ColInt [3; 2; 1]); ("Unit Price", ColInt [10; 10; 4]);
                 ("Cost Price", ColInt [6; 6; 1])] |}.

Definition stock_B : DataFrame :=
  {| nrows := 2;
     columns := [("Product", ColObj [PStr "A"; PStr "B"]);
                 ("Category", ColObj [PStr "Tools"; PStr "Toys"]);
                 ("Opening Stock", ColInt [10; 7]); ("Stock In", ColInt [5; 0]);
                 ("Stock Out", ColInt [2; 0]); ("Min Threshold", ColInt [8; 1])] |}.

Definition scenario_B : world := world_of sales_B stock_B.
Definition scenario_B_prepared : world := (sanitize_and_prepare 0%nat 1%nat scenario_B).2.

(** a Stock sheet with two rows of product A *)
Definition stock_D : DataFrame :=
  {| nrows := 3;
     columns := [("Product", ColObj [PStr "A"; PStr "B"; PStr "A"]);
                 ("Category", ColObj [PStr "Tools"; PStr "Toys"; PStr "Tools"]);
                 ("Opening Stock", ColInt [10; 7; 4]); ("Stock In", ColInt [5; 0; 1]);
                 ("Stock Out", ColInt [2; 0; 0]); ("Min Threshold", ColInt [8; 1; 2])] |}.

Definition scenario_D : world := world_of sales_A stock_D.
Definition scenario_D_prepared : world := (sanitize_and_prepare 0%nat 1%nat scenario_D).2.

(** a Sales sheet whose Unit Price is a text *)
Definition sales_text_price : DataFrame :=
  {| nrows := 1;
     columns := [("Date", ColObj [PStr "2024-01-15"]); ("Product", ColObj [PStr "A"]);
                 ("Quantity Sold", ColInt [2]); ("Unit Price", ColObj [PStr "abc"]);
                 ("Cost Price", ColInt [5])] |}.

(** a Sales sheet without records: [get_all_records] returns no record, and
    the frame made of them has no column *)
Definition sales_empty : DataFrame := {| nrows := 0; columns := [] |}.

(** a Stock sheet whose Stock In is a text *)
Definition stock_text_in : DataFrame :=
  {| nrows := 1;
     columns := [("Product", ColObj [PStr "A"]); ("Category", ColObj [PStr "Tools"]);
                 ("Opening Stock", ColInt [10]); ("Stock In", ColObj [PStr "abc"]);
                 ("Stock Out", ColInt [2]); ("Min Threshold", ColInt [8])] |}.

(** a world in which the sheet cannot be read *)
Definition offline : world :=
  {| heap := ∅; source := inl "APIError: 403"; stock_cells := ∅; screen := [] |}.

Definition no_dashboard : loc -> loc -> loc -> M unit := fun _ _ _ => mret tt.

End Example.

(** ** Notions used in the proofs *)

(** an operator on objects for which a missing operand gives a missing
    result *)
Definition nan_absorbing (op : pyobj -> pyobj -> result pyobj) : Prop :=
  ∀ p q z, py_isna p || py_isna q = true -> op p q = Ok z -> z = PFloat F64.nan.

Definition standard_op (o : binop) : Prop := nan_absorbing (op_py o).

(** [s] ends with [suffix] *)
Fixpoint has_suffix (suffix s : string) : bool :=
  String.eqb s suffix
  || match s with
     | EmptyString => false
     | String _ r => has_suffix suffix r
     end.

(** what a plain key stands for: an integer or a string *)
Definition key_repr (x : scalar) : option (Z + string) :=
  match x with
  | SInt a | SObj (PInt a) => Some (inl a)
  | SObj (PStr s) => Some (inr s)
  | _ => None
  end.

(** the keys of the right side of a join are pairwise different *)
Definition unique_keys (rk : list scalar) : Prop :=
  ∀ j1 j2 y1 y2, j1 ≠ j2 -> rk !! j1 = Some y1 -> rk !! j2 = Some y2 ->
                 key_repr y1 ≠ key_repr y2.

Definition is_time (c : column) : bool :=
  match c with ColTime _ => true | _ => false end.

(** the six quantity columns of the reconciled frame *)
Definition quantity_columns : list string :=
  ["Opening Stock"; "Stock In"; "Stock Out"; "Min Threshold"; "Total Sold"; "Current Stock"].

(** the quantity columns are [int64] columns with one cell per row *)
Definition int_columns (df : DataFrame) : Prop :=
  ∀ name, name ∈ quantity_columns ->
    ∃ l, getitem df name = Ok (ColInt l) ∧ length l = nrows df.

(** the number a numeric cell stands for in a [float64] operation: an
    [int64] cell is converted *)
Definition as_float (x : scalar) : option float :=
  match x with
  | SInt z => Some (F64.of_Z z)
  | SFloat f => Some f
  | _ => None
  end.

Definition is_float (x : scalar) : bool :=
  match x with SFloat _ => true | _ => false end.

(** the integer of an [int64] cell, or of an [object] cell that holds a
    Python [int] *)
Definition as_int (x : scalar) : option Z :=
  match x with
  | SInt z | SObj (PInt z) => Some z
  | _ => None
  end.

Definition is_object (x : scalar) : bool :=
  match x with SObj _ => true | _ => false end.

(** * Proofs *)

#[local] Set Warnings "-clear-no-such-hyp".

(** ** Results *)

Lemma rbind_ok {A B : Type} (a : A) (f : A -> result B) : (Ok a ≫= f) = f a.
Proof. reflexivity. Qed.

Lemma rbind_raise {A B : Type} (e : exn) (f : A -> result B) : (Raise e ≫= f) = Raise e.
Proof. reflexivity. Qed.

Lemma rbind_inv {A B : Type} (r : result A) (f : A -> result B) (b : B) :
  r ≫= f = Ok b -> ∃ a, r = Ok a ∧ f a = Ok b.
Proof. destruct r as [a|e]; [eauto | discriminate]. Qed.

Lemma rfmap_inv {A B : Type} (r : result A) (f : A -> B) (b : B) :
  f <$> r = Ok b -> ∃ a, r = Ok a ∧ b = f a.
Proof. destruct r as [a|e]; [intros [= <-]; eauto | discriminate]. Qed.

(** inverts the successive binds of a successful computation *)
Ltac rinv H :=
  repeat match type of H with
         | _ ≫= _ = Ok _ =>
             let a := fresh "a" in
             let E := fresh "E" in
             apply rbind_inv in H as (a & E & H)
         end.

Lemma mapR_length {A B : Type} (f : A -> result B) (l : list A) (r : list B) :
  mapR f l = Ok r -> length r = length l.
Proof.
  revert r. induction l as [|x l IH]; intros r; cbn.
  - by intros [= <-].
  - destruct (f x); [|discriminate]. destruct (mapR f l); [|discriminate].
    intros [= <-]. cbn. f_equal. by apply IH.
Qed.

Lemma mapR_lookup {A B : Type} (f : A -> result B) (l : list A) (r : list B) i x :
  mapR f l = Ok r -> l !! i = Some x -> ∃ y, f x = Ok y ∧ r !! i = Some y.
Proof.
  revert r i. induction l as [|a l IH]; intros r i; cbn; [done|].
  destruct (f a) as [b|] eqn:E; [|discriminate].
  destruct (mapR f l) as [bs|]; [|discriminate].
  intros [= <-]. destruct i as [|i]; cbn.
  - intros [= <-]. eauto.
  - intros H. by apply IH.
Qed.

(** ** Association lists and frames *)

Lemma String_eqb_refl' (s : string) : String.eqb s s = true.
Proof. apply String.eqb_refl. Qed.

Lemma assoc_set_eq {A : Type} (k : string) (v : A) l : assoc k (assoc_set k v l) = Some v.
Proof.
  induction l as [|[k' v'] l IH]; cbn.
  - by rewrite String.eqb_refl.
  - destruct (String.eqb k k') eqn:E; cbn; rewrite ?String.eqb_refl, ?E; done.
Qed.

Lemma assoc_set_ne {A : Type} (k k' : string) (v : A) l :
  k ≠ k' -> assoc k' (assoc_set k v l) = assoc k' l.
Proof.
  intros Hne. induction l as [|[k0 v0] l IH]; cbn.
  - destruct (String.eqb k' k) eqn:E; [|done]. apply String.eqb_eq in E. congruence.
  - destruct (String.eqb k k0) eqn:E; cbn.
    + apply String.eqb_eq in E. subst k0.
      destruct (String.eqb k' k) eqn:E'; [|done]. apply String.eqb_eq in E'. congruence.
    + by rewrite IH.
Qed.

Lemma getitem_setitem_eq df name c df' :
  setitem df name c = Ok df' -> getitem df' name = Ok c.
Proof.
  unfold setitem, getitem. destruct (_ =? _)%nat; [|discriminate].
  intros [= <-]. cbn. by rewrite assoc_set_eq.
Qed.

Lemma getitem_setitem_ne df name c df' name' :
  setitem df name c = Ok df' -> name ≠ name' -> getitem df' name' = getitem df name'.
Proof.
  unfold setitem, getitem. destruct (_ =? _)%nat; [|discriminate].
  intros [= <-] Hne. cbn. by rewrite assoc_set_ne.
Qed.

Lemma setitem_nrows df name c df' :
  setitem df name c = Ok df' -> nrows df' = nrows df ∧ col_length c = nrows df.
Proof.
  unfold setitem. destruct (_ =? _)%nat eqn:E; [|discriminate].
  intros [= <-]. split; [done|]. by apply Nat.eqb_eq.
Qed.

Lemma getitem_setitem_scalar_ne df name z name' :
  name ≠ name' -> getitem (setitem_scalar df name z) name' = getitem df name'.
Proof. intros Hne. unfold getitem, setitem_scalar. cbn. by rewrite assoc_set_ne. Qed.

Lemma getitem_setitem_scalar_eq df name z :
  getitem (setitem_scalar df name z) name = Ok (ColInt (replicate (nrows df) z)).
Proof. unfold getitem, setitem_scalar. cbn. by rewrite assoc_set_eq. Qed.

Lemma contains_getitem df name :
  contains df name = true ↔ ∃ c, getitem df name = Ok c.
Proof.
  unfold contains, getitem. destruct (assoc name (columns df)) as [c|].
  - split; [eauto|]. intros _. by apply bool_decide_eq_true_2.
  - split; [|by intros [? ?]]. intros H. apply bool_decide_eq_true_1 in H. by destruct H.
Qed.

Lemma default_columns_nrows names df : nrows (default_columns names df) = nrows df.
Proof.
  revert df. induction names as [|n names IH]; intros df; cbn; [done|].
  unfold default_columns in IH. rewrite IH. by destruct (contains df n).
Qed.

Lemma getitem_default_columns_ne names df name :
  name ∉ names -> getitem (default_columns names df) name = getitem df name.
Proof.
  revert df. induction names as [|n names IH]; intros df Hn; cbn; [done|].
  unfold default_columns in IH. rewrite IH by set_solver.
  destruct (contains df n); cbn; [done|].
  apply getitem_setitem_scalar_ne. set_solver.
Qed.

(** a column that is there stays as it is *)
Lemma getitem_default_columns_present names df name c :
  getitem df name = Ok c -> getitem (default_columns names df) name = Ok c.
Proof.
  revert df. induction names as [|n names IH]; intros df Hc; cbn; [done|].
  unfold default_columns in IH. apply IH.
  destruct (contains df n) eqn:E; cbn; [done|].
  destruct (decide (n = name)) as [->|Hne].
  - assert (contains df name = true) by (apply contains_getitem; eauto). congruence.
  - by rewrite getitem_setitem_scalar_ne.
Qed.

(** a column of the list that is missing is filled with zeros *)
Lemma getitem_default_columns_missing names df name :
  name ∈ names -> contains df name = false ->
  getitem (default_columns names df) name = Ok (ColInt (replicate (nrows df) 0)).
Proof.
  revert df. induction names as [|n names IH]; intros df Hin Hc; [set_solver|].
  cbn. unfold default_columns in IH.
  destruct (decide (n = name)) as [->|Hne].
  - rewrite Hc. cbn. apply (getitem_default_columns_present names).
    apply getitem_setitem_scalar_eq.
  - destruct (contains df n); cbn.
    + apply IH; [set_solver|done].
    + rewrite IH; [done|set_solver|].
      destruct (contains (setitem_scalar df n 0) name) eqn:E; [|done].
      apply contains_getitem in E as [c E]. rewrite getitem_setitem_scalar_ne in E by done.
      assert (contains df name = true) by (apply contains_getitem; eauto). congruence.
Qed.

(** ** Column arithmetic, row by row *)

Lemma is_nan_eq f : F64.is_nan f = true -> f = S754_nan.
Proof. by destruct f. Qed.

Lemma py_float_op_nan (op : float -> float -> float) :
  (∀ f, op S754_nan f = S754_nan) -> (∀ f, op f S754_nan = S754_nan) ->
  ∀ p q z, py_isna p || py_isna q = true -> py_float_op op p q = Ok z -> z = PFloat F64.nan.
Proof.
  intros Hl Hr p q z Hna H.
  destruct p as [x|f|s], q as [y|g|t]; cbn in Hna, H; rewrite ?orb_false_r in Hna;
    try discriminate.
  - apply is_nan_eq in Hna as ->. destruct (py_float_of_int x); [|discriminate].
    cbn in H. injection H as <-. by rewrite Hr.
  - apply is_nan_eq in Hna as ->. destruct (py_float_of_int y); [|discriminate].
    cbn in H. injection H as <-. by rewrite Hl.
  - injection H as <-. apply orb_true_iff in Hna as [Hna|Hna]; apply is_nan_eq in Hna as ->;
      by rewrite ?Hl, ?Hr.
Qed.

Lemma F64_mul_nan_l f : F64.mul S754_nan f = S754_nan.
Proof. reflexivity. Qed.
Lemma F64_mul_nan_r f : F64.mul f S754_nan = S754_nan.
Proof. by destruct f. Qed.
Lemma F64_add_nan_l f : F64.add S754_nan f = S754_nan.
Proof. reflexivity. Qed.
Lemma F64_add_nan_r f : F64.add f S754_nan = S754_nan.
Proof. by destruct f. Qed.
Lemma F64_sub_nan_l f : F64.sub S754_nan f = S754_nan.
Proof. reflexivity. Qed.
Lemma F64_sub_nan_r f : F64.sub f S754_nan = S754_nan.
Proof. by destruct f. Qed.

Lemma py_mul_nan : nan_absorbing py_mul.
Proof.
  intros p q z Hna H. destruct p as [x|f|s], q as [y|g|t]; try discriminate;
    (eapply (py_float_op_nan F64.mul); [apply F64_mul_nan_l|apply F64_mul_nan_r|exact Hna|exact H]).
Qed.

Lemma py_sub_nan : nan_absorbing py_sub.
Proof.
  intros p q z Hna H. destruct p as [x|f|s], q as [y|g|t]; try discriminate;
    (eapply (py_float_op_nan F64.sub); [apply F64_sub_nan_l|apply F64_sub_nan_r|exact Hna|exact H]).
Qed.

Lemma py_add_nan : nan_absorbing py_add.
Proof.
  intros p q z Hna H. destruct p as [x|f|s], q as [y|g|t]; try discriminate;
    (eapply (py_float_op_nan F64.add); [apply F64_add_nan_l|apply F64_add_nan_r|exact Hna|exact H]).
Qed.

Lemma object_op_lookup op l r res i p q :
  nan_absorbing op ->
  object_op op l r = Ok res -> l !! i = Some p -> r !! i = Some q ->
  ∃ z, masked_op op (p, q) = Ok z ∧ res !! i = Some z.
Proof.
  intros Hop H Hp Hq.
  assert (Hz : zip l r !! i = Some (p, q)).
  { rewrite lookup_zip_with. rewrite Hp. cbn. by rewrite Hq. }
  unfold object_op in H.
  destruct (mapR (λ p, op p.1 p.2) (zip l r)) as [res'|e] eqn:E.
  - injection H as <-.
    destruct (mapR_lookup _ _ _ _ _ E Hz) as (z & Hz1 & Hz2). cbn in Hz1.
    exists z. split; [|done]. unfold masked_op. cbn.
    destruct (py_isna p || py_isna q) eqn:Hna; [|done].
    by rewrite (Hop _ _ _ Hna Hz1).
  - destruct e; try discriminate.
    destruct (mapR_lookup _ _ _ _ _ H Hz) as (z & Hz1 & Hz2). eauto.
Qed.

Lemma cells_ColInt_lookup l i : cells (ColInt l) !! i = SInt <$> l !! i.
Proof. cbn. apply list_lookup_fmap. Qed.
Lemma cells_ColFloat_lookup l i : cells (ColFloat l) !! i = SFloat <$> l !! i.
Proof. cbn. apply list_lookup_fmap. Qed.
Lemma cells_ColObj_lookup l i : cells (ColObj l) !! i = SObj <$> l !! i.
Proof. cbn. apply list_lookup_fmap. Qed.
Lemma cells_ColTime_lookup l i : cells (ColTime l) !! i = STime <$> l !! i.
Proof. cbn. apply list_lookup_fmap. Qed.

Lemma to_object_lookup c l i x :
  to_object c = Ok l -> cells c !! i = Some x ->
  ∃ p, py_of_scalar x = Ok p ∧ l !! i = Some p.
Proof.
  destruct c as [zs|fs|os|ts]; cbn; intros [= <-]; rewrite list_lookup_fmap;
    destruct (_ !! i) as [v|] eqn:E; cbn; intros [= <-]; cbn;
    eexists; (split; [reflexivity|]); first [done | by rewrite list_lookup_fmap, E].
Qed.

(** [col_arith] computes [scalar_op] in every row. *)
Lemma col_arith_lookup o a b r i x y :
  standard_op o ->
  col_arith o a b = Ok r -> cells a !! i = Some x -> cells b !! i = Some y ->
  ∃ z, scalar_op o x y = Ok z ∧ cells r !! i = Some z.
Proof.
  intros Ho H Hx Hy. unfold col_arith in H.
  destruct (negb _); [discriminate|].
  destruct a as [xs|xs|xs|xs], b as [ys|ys|ys|ys];
    try (injection H as <-;
         rewrite ?cells_ColInt_lookup, ?cells_ColFloat_lookup in Hx;
         rewrite ?cells_ColInt_lookup, ?cells_ColFloat_lookup in Hy;
         destruct (xs !! i) as [u|] eqn:Ex; [|discriminate Hx];
         destruct (ys !! i) as [v|] eqn:Ey; [|discriminate Hy];
         cbn in Hx, Hy; injection Hx as <-; injection Hy as <-; cbn [scalar_op];
         eexists; split; [reflexivity|];
         rewrite ?cells_ColInt_lookup, ?cells_ColFloat_lookup, lookup_zip_with,
           ?list_lookup_fmap, Ex, Ey; reflexivity);
    try discriminate.
  all: apply rbind_inv in H as (ps & Ea & H);
       apply rbind_inv in H as (qs & Eb & H);
       apply rfmap_inv in H as (res & H & ->);
       destruct (to_object_lookup _ _ _ _ Ea Hx) as (p & Hp1 & Hp2);
       destruct (to_object_lookup _ _ _ _ Eb Hy) as (q & Hq1 & Hq2);
       destruct (object_op_lookup _ _ _ _ _ _ _ Ho H Hp2 Hq2) as (z & Hz1 & Hz2);
       exists (SObj z); split;
       [ | by rewrite cells_ColObj_lookup, Hz2 ].
  all: rewrite ?cells_ColInt_lookup, ?cells_ColFloat_lookup, ?cells_ColObj_lookup in Hx.
  all: rewrite ?cells_ColInt_lookup, ?cells_ColFloat_lookup, ?cells_ColObj_lookup in Hy.
  all: destruct (xs !! i) as [u|]; [|discriminate Hx];
       destruct (ys !! i) as [v|]; [|discriminate Hy].
  all: cbn in Hx, Hy; injection Hx as <-; injection Hy as <-; cbn in Hp1, Hq1.
  all: injection Hp1 as <-; injection Hq1 as <-.
  all: cbn [scalar_op py_of_scalar]; rewrite ?rbind_ok; by rewrite Hz1.
Qed.

Lemma col_arith_length o a b r :
  col_arith o a b = Ok r -> col_length a = col_length b.
Proof.
  unfold col_arith. destruct (col_length a =? col_length b)%nat eqn:E; [|discriminate].
  intros _. by apply Nat.eqb_eq.
Qed.

(** ** Running the heap program *)

Section Run.
Context `{RT : Runtime}.

Lemma bind_run {A B : Type} (m : M A) (f : A -> M B) (w : world) :
  (m ≫= f) w = match m w with
               | (Ok a, w') => f a w'
               | (Raise e, w') => (Raise e, w')
               end.
Proof. reflexivity. Qed.

Lemma with_heap_twice h h' w : with_heap h (with_heap h' w) = with_heap h w.
Proof. reflexivity. Qed.

Lemma with_heap_id w : with_heap (heap w) w = w.
Proof. by destruct w. Qed.

Lemma run_get_frame h w l df :
  h !! l = Some df -> get_frame l (with_heap h w) = (Ok df, with_heap h w).
Proof. intros H. unfold get_frame. cbn [heap with_heap]. by rewrite H. Qed.

Lemma run_put_frame h w l df :
  put_frame l df (with_heap h w) = (Ok tt, with_heap (<[l:=df]> h) w).
Proof. reflexivity. Qed.

Lemma run_alloc h w df :
  alloc df (with_heap h w) = (Ok (fresh (dom h)), with_heap (<[fresh (dom h):=df]> h) w).
Proof. reflexivity. Qed.

Lemma run_copy h w l df :
  h !! l = Some df ->
  df_copy l (with_heap h w) = (Ok (fresh (dom h)), with_heap (<[fresh (dom h):=df]> h) w).
Proof. intros H. unfold df_copy. rewrite bind_run, (run_get_frame _ _ _ _ H). reflexivity. Qed.

Lemma run_contains h w l df name :
  h !! l = Some df ->
  df_contains l name (with_heap h w) = (Ok (contains df name), with_heap h w).
Proof. intros H. unfold df_contains. rewrite bind_run, (run_get_frame _ _ _ _ H). reflexivity. Qed.

Lemma run_getitem h w l df name :
  h !! l = Some df ->
  df_getitem l name (with_heap h w) = (getitem df name, with_heap h w).
Proof. intros H. unfold df_getitem. rewrite bind_run, (run_get_frame _ _ _ _ H). reflexivity. Qed.

Lemma run_setitem h w l df name c :
  h !! l = Some df ->
  df_setitem l name c (with_heap h w) =
  match setitem df name c with
  | Ok df' => (Ok tt, with_heap (<[l:=df']> h) w)
  | Raise e => (Raise e, with_heap h w)
  end.
Proof.
  intros H. unfold df_setitem. rewrite bind_run, (run_get_frame _ _ _ _ H).
  cbv beta iota. rewrite bind_run. unfold lift. by destruct (setitem df name c).
Qed.

Lemma run_setitem_scalar h w l df name z :
  h !! l = Some df ->
  df_setitem_scalar l name z (with_heap h w) =
  (Ok tt, with_heap (<[l:=setitem_scalar df name z]> h) w).
Proof. intros H. unfold df_setitem_scalar. rewrite bind_run, (run_get_frame _ _ _ _ H). reflexivity. Qed.

Lemma run_rename h w l df mapping :
  h !! l = Some df ->
  df_rename l mapping (with_heap h w) = (Ok tt, with_heap (<[l:=rename mapping df]> h) w).
Proof. intros H. unfold df_rename. rewrite bind_run, (run_get_frame _ _ _ _ H). reflexivity. Qed.

Lemma run_default_columns names h w l df :
  h !! l = Some df ->
  for_each names (fun col =>
    present ← df_contains l col;
    if negb present then df_setitem_scalar l col 0 else mret tt : M unit) (with_heap h w)
  = (Ok tt, with_heap (<[l:=default_columns names df]> h) w).
Proof.
  revert h df. induction names as [|n names IH]; intros h df H.
  - cbn. by rewrite insert_id.
  - cbn [for_each foldr default_columns fold_left].
    rewrite bind_run, bind_run, (run_contains _ _ _ _ _ H). cbv beta iota.
    destruct (contains df n); cbn [negb].
    + unfold mret at 1, M_ret at 1. cbv beta iota.
      apply (IH h df H).
    + rewrite (run_setitem_scalar _ _ _ _ _ _ H). cbv beta iota.
      unfold for_each in IH. rewrite (IH (<[l:=setitem_scalar df n 0]> h) (setitem_scalar df n 0)).
      * by rewrite insert_insert_eq.
      * apply lookup_insert_eq.
Qed.


Lemma run_lift {A B : Type} (r : result A) (f : A -> M B) (w : world) :
  (lift r ≫= f) w = match r with Ok a => f a w | Raise e => (Raise e, w) end.
Proof. rewrite bind_run. unfold lift. by destruct r. Qed.

Lemma run_ret {A : Type} (a : A) (w : world) : (mret a : M A) w = (Ok a, w).
Proof. reflexivity. Qed.

Ltac pure_step := repeat (rewrite rbind_ok || rewrite rbind_raise); cbv beta iota.

Lemma run_coerce_columns names h w l df :
  h !! l = Some df ->
  ∃ df', for_each names (fun col =>
           c ← df_getitem l col;
           c ← lift (astype_int (fillna (NInt 0) (to_numeric c)));
           df_setitem l col c) (with_heap h w)
         = (match coerce_columns names df with Ok _ => Ok tt | Raise e => Raise e end,
            with_heap (<[l:=df']> h) w)
         ∧ ∀ df'', coerce_columns names df = Ok df'' -> df' = df''.
Proof.
  revert h df. induction names as [|n names IH]; intros h df H.
  - exists df. cbn. rewrite insert_id by done. split; [done|]. by intros ? [= ->].
  - cbn [for_each foldr coerce_columns fold_leftR].
    rewrite bind_run, bind_run, (run_getitem _ _ _ _ _ H).
    destruct (getitem df n) as [c|e]; pure_step.
    2:{ exists df. rewrite insert_id by done. split; [done|]. intros; discriminate. }
    rewrite run_lift.
    destruct (astype_int (fillna (NInt 0) (to_numeric c))) as [c'|e]; pure_step.
    2:{ exists df. rewrite insert_id by done. split; [done|]. intros; discriminate. }
    rewrite (run_setitem _ _ _ _ _ _ H).
    destruct (setitem df n c') as [df1|e]; pure_step.
    2:{ exists df. rewrite insert_id by done. split; [done|]. intros; discriminate. }
    destruct (IH (<[l:=df1]> h) df1) as (df' & Hrun & Hdf); [apply lookup_insert_eq|].
    exists df'. unfold for_each, coerce_columns in Hrun. rewrite Hrun.
    rewrite insert_insert_eq. split; [done|]. apply Hdf.
Qed.

Ltac solve_lookup :=
  repeat first [ apply lookup_insert_eq | rewrite lookup_insert_ne by done ]; try eassumption.

Ltac run_step lem :=
  rewrite bind_run; erewrite lem by solve_lookup; cbv beta iota.
#[local] Set Warnings "-clear-no-such-hyp".

Ltac finish_err :=
  eexists; split; [reflexivity | repeat (apply insert_subseteq_r; [done|]); reflexivity].


Lemma put_under {V : Type} (s k : loc) (x y z : V) (h : gmap loc V) :
  s ≠ k -> <[s:=x]> (<[k:=y]> (<[s:=z]> h)) = <[k:=y]> (<[s:=x]> h).
Proof. intros. rewrite insert_insert_ne by done. by rewrite insert_insert_eq. Qed.

Lemma run_parse_dates h w l df :
  h !! l = Some df ->
  (if contains df "Date" : bool
   then d ← df_getitem l "Date"; df_setitem l "Date" (ColTime (to_datetime d))
   else mret tt : M unit) (with_heap h w)
  = match parsed_dates df with
    | Ok df' => (Ok tt, with_heap (<[l:=df']> h) w)
    | Raise e => (Raise e, with_heap h w)
    end.
Proof.
  intros H. unfold parsed_dates. destruct (contains df "Date").
  - rewrite bind_run. erewrite run_getitem by done.
    destruct (getitem df "Date") as [d|e]; pure_step; [|done].
    by erewrite run_setitem by done.
  - rewrite run_ret. by rewrite insert_id.
Qed.

Ltac norm_heap := rewrite ?put_under by done; rewrite ?insert_insert_eq.

Lemma sanitize_and_prepare_run_at ls lk h w S0 K0 :
  h !! ls = Some S0 -> h !! lk = Some K0 ->
  ∃ s k a m,
    NoDup [s; k; a; m] ∧ Forall (fun l => h !! l = None) [s; k; a; m] ∧
    match pipeline S0 K0 with
    | Ok (sf, kf, af, mf) =>
        sanitize_and_prepare ls lk (with_heap h w)
        = (Ok (s, k, m), with_heap (<[m:=mf]> (<[a:=af]> (<[k:=kf]> (<[s:=sf]> h)))) w)
    | Raise e =>
        ∃ h', sanitize_and_prepare ls lk (with_heap h w) = (Raise e, with_heap h' w)
              ∧ h ⊆ h'
    end.
Proof.
  intros Hls Hlk.
  set (s := fresh (dom h)).
  set (k := fresh ({[s]} ∪ dom h)).
  set (a := fresh ({[k]} ∪ ({[s]} ∪ dom h))).
  set (m := fresh ({[a]} ∪ ({[k]} ∪ ({[s]} ∪ dom h)))).
  assert (Hs : s ∉ dom h) by apply is_fresh.
  assert (Hk : k ∉ {[s]} ∪ dom h) by apply is_fresh.
  assert (Ha : a ∉ {[k]} ∪ ({[s]} ∪ dom h)) by apply is_fresh.
  assert (Hm : m ∉ {[a]} ∪ ({[k]} ∪ ({[s]} ∪ dom h))) by apply is_fresh.
  assert (Hks : k ≠ s) by set_solver.
  assert (Has : a ≠ s) by set_solver.
  assert (Hak : a ≠ k) by set_solver.
  assert (Hms : m ≠ s) by set_solver.
  assert (Hmk : m ≠ k) by set_solver.
  assert (Hma : m ≠ a) by set_solver.
  assert (Hsn : h !! s = None) by (apply not_elem_of_dom; set_solver).
  assert (Hkn : h !! k = None) by (apply not_elem_of_dom; set_solver).
  assert (Han : h !! a = None) by (apply not_elem_of_dom; set_solver).
  assert (Hmn : h !! m = None) by (apply not_elem_of_dom; set_solver).
  assert (Hsls : s ≠ ls) by (intros ->; congruence).
  assert (Hslk : s ≠ lk) by (intros ->; congruence).
  exists s, k, a, m. split.
  { repeat constructor; set_solver. }
  split. { repeat constructor; done. }
  unfold sanitize_and_prepare, pipeline.
  run_step run_copy. fold s.
  run_step run_copy. rewrite dom_insert_L. fold k.
  run_step run_contains.
  unfold prepared_sales, prepared_stock, sales_summary, reconciled,
    sales_columns, stock_columns.
  rewrite bind_run. erewrite run_parse_dates by solve_lookup.
  destruct (parsed_dates S0) as [s1|e]; pure_step; [|finish_err]. norm_heap.
  rewrite bind_run. erewrite run_default_columns by solve_lookup. pure_step. norm_heap.
  run_step run_getitem.
  destruct (getitem _ "Quantity Sold") as [quantity|e]; pure_step; [|finish_err].
  run_step run_getitem.
  destruct (getitem _ "Unit Price") as [price|e]; pure_step; [|finish_err].
  rewrite run_lift.
  destruct (col_arith op_mul quantity price) as [total|e]; pure_step; [|finish_err].
  run_step run_setitem.
  destruct (setitem _ "Total" total) as [s3|e]; pure_step; [|finish_err]. norm_heap.
  run_step run_getitem.
  destruct (getitem s3 "Unit Price") as [price'|e]; pure_step; [|finish_err].
  run_step run_getitem.
  destruct (getitem s3 "Cost Price") as [cost|e]; pure_step; [|finish_err].
  rewrite run_lift.
  destruct (col_arith op_sub price' cost) as [margin|e]; pure_step; [|finish_err].
  run_step run_getitem.
  destruct (getitem s3 "Quantity Sold") as [quantity'|e]; pure_step; [|finish_err].
  rewrite run_lift.
  destruct (col_arith op_mul margin quantity') as [profit|e]; pure_step; [|finish_err].
  run_step run_setitem.
  destruct (setitem s3 "Profit" profit) as [sf|e]; pure_step; [|finish_err]. norm_heap.
  rewrite bind_run. erewrite run_default_columns by solve_lookup. pure_step. norm_heap.
  rewrite bind_run.
  edestruct (run_coerce_columns ["Opening Stock"; "Stock In"; "Stock Out"; "Min Threshold"])
    as (kf' & -> & Hkf); [solve_lookup|].
  destruct (coerce_columns _ _) as [kf|e]; pure_step; [|norm_heap; finish_err].
  rewrite (Hkf kf eq_refl). clear Hkf kf'. norm_heap.
  run_step run_get_frame.
  rewrite run_lift.
  destruct (groupby_sum sf "Product" _) as [agg|e]; pure_step; [|finish_err].
  run_step run_alloc. rewrite !dom_insert_L. fold a.
  run_step run_rename. norm_heap.
  run_step run_get_frame.
  run_step run_get_frame.
  rewrite run_lift.
  destruct (merge_left kf _ "Product") as [m0|e]; pure_step; [|finish_err].
  run_step run_alloc. rewrite !dom_insert_L. fold m.
  run_step run_getitem.
  destruct (getitem m0 "Total Sold") as [c|e]; pure_step; [|finish_err].
  rewrite run_lift.
  destruct (astype_int (fillna (NInt 0) c)) as [c'|e]; pure_step; [|finish_err].
  run_step run_setitem.
  destruct (setitem m0 "Total Sold" c') as [m1|e]; pure_step; [|finish_err]. norm_heap.
  run_step run_getitem.
  destruct (getitem m1 "Sales Value") as [c2|e]; pure_step; [|finish_err].
  run_step run_setitem.
  destruct (setitem m1 "Sales Value" _) as [m2|e]; pure_step; [|finish_err]. norm_heap.
  run_step run_getitem.
  destruct (getitem m2 "Total Profit") as [c3|e]; pure_step; [|finish_err].
  run_step run_setitem.
  destruct (setitem m2 "Total Profit" _) as [m3|e]; pure_step; [|finish_err]. norm_heap.
  run_step run_getitem.
  destruct (getitem m3 "Opening Stock") as [opening|e]; pure_step; [|finish_err].
  run_step run_getitem.
  destruct (getitem m3 "Stock In") as [stock_in|e]; pure_step; [|finish_err].
  rewrite run_lift.
  destruct (col_arith op_add opening stock_in) as [t1|e]; pure_step; [|finish_err].
  run_step run_getitem.
  destruct (getitem m3 "Stock Out") as [stock_out|e]; pure_step; [|finish_err].
  rewrite run_lift.
  destruct (col_arith op_sub t1 stock_out) as [t2|e]; pure_step; [|finish_err].
  run_step run_getitem.
  destruct (getitem m3 "Total Sold") as [sold|e]; pure_step; [|finish_err].
  rewrite run_lift.
  destruct (col_arith op_sub t2 sold) as [current|e]; pure_step; [|finish_err].
  run_step run_setitem.
  destruct (setitem m3 "Current Stock" current) as [mf|e]; pure_step; [|finish_err].
  norm_heap. reflexivity.
Qed.

Lemma sanitize_and_prepare_run ls lk w S0 K0 :
  heap w !! ls = Some S0 -> heap w !! lk = Some K0 ->
  ∃ s k a m,
    NoDup [s; k; a; m] ∧ Forall (fun l => heap w !! l = None) [s; k; a; m] ∧
    match pipeline S0 K0 with
    | Ok (sf, kf, af, mf) =>
        sanitize_and_prepare ls lk w
        = (Ok (s, k, m), with_heap (<[m:=mf]> (<[a:=af]> (<[k:=kf]> (<[s:=sf]> (heap w))))) w)
    | Raise e =>
        ∃ h', sanitize_and_prepare ls lk w = (Raise e, with_heap h' w) ∧ heap w ⊆ h'
    end.
Proof.
  intros Hls Hlk.
  destruct (sanitize_and_prepare_run_at ls lk (heap w) w S0 K0 Hls Hlk)
    as (s & k & a & m & Hnd & Hfresh & H).
  rewrite with_heap_id in H. by exists s, k, a, m.
Qed.

(** A successful run, read backwards. *)
Lemma sanitize_and_prepare_ok ls lk w S0 K0 s k m w' :
  heap w !! ls = Some S0 -> heap w !! lk = Some K0 ->
  sanitize_and_prepare ls lk w = (Ok (s, k, m), w') ->
  ∃ sf kf af mf a,
    pipeline S0 K0 = Ok (sf, kf, af, mf) ∧
    NoDup [s; k; a; m] ∧ Forall (fun l => heap w !! l = None) [s; k; a; m] ∧
    w' = with_heap (<[m:=mf]> (<[a:=af]> (<[k:=kf]> (<[s:=sf]> (heap w))))) w.
Proof.
  intros Hls Hlk Hrun.
  destruct (sanitize_and_prepare_run ls lk w S0 K0 Hls Hlk)
    as (s' & k' & a & m' & Hnd & Hfresh & H).
  destruct (pipeline S0 K0) as [[[[sf kf] af] mf]|e].
  - rewrite H in Hrun. injection Hrun as -> -> -> <-.
    by exists sf, kf, af, mf, a.
  - destruct H as (h' & H & _). rewrite H in Hrun. discriminate.
Qed.

(** what a successful run leaves in the heap *)
Lemma sanitize_and_prepare_heap ls lk w S0 K0 s k m w' :
  heap w !! ls = Some S0 -> heap w !! lk = Some K0 ->
  sanitize_and_prepare ls lk w = (Ok (s, k, m), w') ->
  ∃ sf kf af mf,
    pipeline S0 K0 = Ok (sf, kf, af, mf) ∧
    heap w' !! s = Some sf ∧ heap w' !! k = Some kf ∧ heap w' !! m = Some mf ∧
    s ≠ k ∧ s ≠ m ∧ k ≠ m ∧
    source w' = source w ∧ stock_cells w' = stock_cells w ∧ screen w' = screen w.
Proof.
  intros Hls Hlk Hrun.
  destruct (sanitize_and_prepare_ok _ _ _ _ _ _ _ _ _ Hls Hlk Hrun)
    as (sf & kf & af & mf & a & Hp & Hnd & Hfresh & ->).
  exists sf, kf, af, mf.
  apply NoDup_cons in Hnd as [Hs Hnd]. apply NoDup_cons in Hnd as [Hk Hnd].
  apply NoDup_cons in Hnd as [Ha Hnd].
  assert (s ≠ k ∧ s ≠ a ∧ s ≠ m ∧ k ≠ a ∧ k ≠ m ∧ a ≠ m) as (? & ? & ? & ? & ? & ?)
    by set_solver.
  split; [done|]. cbn [heap with_heap source stock_cells screen].
  repeat split; try done.
  - rewrite !lookup_insert_ne by done. apply lookup_insert_eq.
  - rewrite !lookup_insert_ne by done. apply lookup_insert_eq.
  - apply lookup_insert_eq.
Qed.

End Run.

(** ** The sanitized sales *)

Section Sales.
Context `{RT : Runtime}.

Lemma object_op_length op l r res :
  object_op op l r = Ok res -> length res = length (zip l r).
Proof.
  unfold object_op. destruct (mapR _ (zip l r)) as [res'|e] eqn:E.
  - intros [= <-]. by apply mapR_length in E.
  - destruct e; try discriminate. apply mapR_length.
Qed.

Lemma to_object_length c l : to_object c = Ok l -> length l = col_length c.
Proof.
  unfold col_length.
  destruct c; cbn; intros [= <-]; by rewrite ?length_fmap.
Qed.

Lemma col_arith_result_length o a b r :
  col_arith o a b = Ok r -> col_length r = col_length a.
Proof.
  intros H. pose proof (col_arith_length _ _ _ _ H) as Hlen.
  unfold col_arith in H. destruct (negb _); [discriminate|].
  unfold col_length in *.
  destruct a as [xs|xs|xs|xs], b as [ys|ys|ys|ys]; cbn in Hlen;
    rewrite ?length_fmap in Hlen;
    try (injection H as <-; cbn; rewrite length_fmap, length_zip_with, ?length_fmap; lia);
    try discriminate.
  all: apply rbind_inv in H as (ps & Ea & H);
       apply rbind_inv in H as (qs & Eb & H);
       apply rfmap_inv in H as (res & H & ->);
       apply object_op_length in H; apply to_object_length in Ea;
       apply to_object_length in Eb;
       unfold col_length in Ea, Eb; cbn in Ea, Eb |- *;
       rewrite ?length_fmap in Ea; rewrite ?length_fmap in Eb;
       rewrite !length_fmap, H, length_zip_with; lia.
Qed.

Lemma parsed_dates_nrows df df' : parsed_dates df = Ok df' -> nrows df' = nrows df.
Proof.
  unfold parsed_dates. destruct (contains df "Date"); [|by intros [= <-]].
  intros H. rinv H. by apply setitem_nrows in H as [? _].
Qed.

(** the columns of the sanitized sales that the derived fields are made
    of, and how *)
Lemma prepared_sales_columns sales sf :
  prepared_sales sales = Ok sf ->
  nrows sf = nrows sales ∧
  ∃ quantity price cost total margin profit,
    getitem sf "Quantity Sold" = Ok quantity ∧
    getitem sf "Unit Price" = Ok price ∧
    getitem sf "Cost Price" = Ok cost ∧
    getitem sf "Total" = Ok total ∧
    getitem sf "Profit" = Ok profit ∧
    col_arith op_mul quantity price = Ok total ∧
    col_arith op_sub price cost = Ok margin ∧
    col_arith op_mul margin quantity = Ok profit ∧
    col_length quantity = nrows sf.
Proof.
  unfold prepared_sales. intros H.
  apply rbind_inv in H as (s1 & E1 & H). cbv zeta in H.
  apply rbind_inv in H as (quantity & Eq & H).
  apply rbind_inv in H as (price & Ep & H).
  apply rbind_inv in H as (total & Et & H).
  apply rbind_inv in H as (s3 & E3 & H).
  apply rbind_inv in H as (price' & Ep' & H).
  apply rbind_inv in H as (cost & Ec & H).
  apply rbind_inv in H as (margin & Em & H).
  apply rbind_inv in H as (quantity' & Eq' & H).
  apply rbind_inv in H as (profit & Epr & H).
  rewrite (getitem_setitem_ne _ _ _ _ _ E3) in Ep' by done.
  rewrite (getitem_setitem_ne _ _ _ _ _ E3) in Ec by done.
  rewrite (getitem_setitem_ne _ _ _ _ _ E3) in Eq' by done.
  rewrite Ep in Ep'. injection Ep' as <-. rewrite Eq in Eq'. injection Eq' as <-.
  destruct (setitem_nrows _ _ _ _ E3) as [Hn3 Hl3].
  destruct (setitem_nrows _ _ _ _ H) as [Hn Hl].
  rewrite default_columns_nrows in Hn3, Hl3.
  split; [rewrite Hn, Hn3; by apply parsed_dates_nrows|].
  exists quantity, price, cost, total, margin, profit.
  rewrite !(getitem_setitem_ne _ _ _ _ _ H) by done.
  rewrite !(getitem_setitem_ne _ _ _ _ _ E3) by done.
  rewrite (getitem_setitem_eq _ _ _ _ H).
  rewrite (getitem_setitem_eq _ _ _ _ E3).
  repeat split; try done.
  rewrite Hn, Hn3, <- Hl3. symmetry. by eapply col_arith_result_length.
Qed.

Lemma at_cell_lookup df name c i x :
  getitem df name = Ok c -> cells c !! i = Some x -> at_cell df i name = Ok x.
Proof. intros Hc Hx. unfold at_cell. rewrite Hc. cbn. by rewrite Hx. Qed.

End Sales.

(** ** Machine integers *)

Lemma wrap_in_range z : Int64.in_range z -> Int64.wrap z = z.
Proof.
  unfold Int64.in_range, Int64.min_int, Int64.max_int, Int64.wrap. intros H.
  rewrite Z.mod_small; lia.
Qed.

Lemma wrap_add_l x y : Int64.wrap (Int64.wrap x + y) = Int64.wrap (x + y).
Proof.
  unfold Int64.wrap. f_equal.
  replace ((x + 2 ^ 63) mod 2 ^ 64 - 2 ^ 63 + y + 2 ^ 63)
    with ((x + 2 ^ 63) mod 2 ^ 64 + y) by lia.
  rewrite Zplus_mod_idemp_l. f_equal. lia.
Qed.

Lemma wrap_sub_l x y : Int64.wrap (Int64.wrap x - y) = Int64.wrap (x - y).
Proof. replace (Int64.wrap x - y) with (Int64.wrap x + - y) by lia. by rewrite wrap_add_l. Qed.

(** the stock formula in [int64] arithmetic is the formula, wrapped once *)
Lemma int64_stock_formula o i u t :
  Int64.sub (Int64.sub (Int64.add o i) u) t = Int64.wrap (o + i - u - t).
Proof.
  unfold Int64.sub, Int64.add. rewrite wrap_sub_l.
  replace (Int64.wrap (o + i) - u - t) with (Int64.wrap (o + i) + (- u - t)) by lia.
  rewrite wrap_add_l. f_equal; lia.
Qed.

Lemma wrap_range z : Int64.in_range (Int64.wrap z).
Proof.
  unfold Int64.in_range, Int64.wrap, Int64.min_int, Int64.max_int.
  pose proof (Z.mod_pos_bound (z + 2 ^ 63) (2 ^ 64)). lia.
Qed.

Lemma in_rangeb_spec z : Int64.in_rangeb z = true ↔ Int64.in_range z.
Proof. unfold Int64.in_rangeb, Int64.in_range. rewrite andb_true_iff, !Z.leb_le. done. Qed.

Section Stock.
Context `{RT : Runtime}.

Lemma astype_int_ColInt c c' : astype_int c = Ok c' -> ∃ l, c' = ColInt l.
Proof.
  destruct c as [l|l|l|l]; cbn.
  - intros [= <-]. eauto.
  - destruct (forallb _ _); [|discriminate]. intros [= <-]. eauto.
  - intros H. apply rfmap_inv in H as (zs & _ & ->). eauto.
  - discriminate.
Qed.

Lemma coerce_columns_spec names df df' :
  coerce_columns names df = Ok df' ->
  nrows df' = nrows df
  ∧ (∀ n, n ∉ names -> getitem df' n = getitem df n)
  ∧ (∀ n, n ∈ names -> ∃ l, getitem df' n = Ok (ColInt l) ∧ length l = nrows df).
Proof.
  revert df. induction names as [|n0 names IH]; intros df H; cbn in H.
  - injection H as <-. split; [done|]. split; [done|]. set_solver.
  - unfold coerce_columns in IH.
    destruct (getitem df n0 ≫= _) as [df1|e] eqn:E; [|discriminate].
    apply rbind_inv in E as (c & Ec & E). apply rbind_inv in E as (c' & Ec' & E).
    destruct (IH _ H) as (Hn & Hout & Hin).
    destruct (setitem_nrows _ _ _ _ E) as [Hn1 Hl1].
    split; [congruence|]. split.
    + intros n Hnn. rewrite Hout by set_solver.
      apply (getitem_setitem_ne _ _ _ _ _ E). set_solver.
    + intros n Hnn. destruct (decide (n ∈ names)) as [Hnames|Hnames].
      * destruct (Hin n Hnames) as (l & ? & ?). exists l. split; [done|congruence].
      * assert (n = n0) as -> by set_solver.
        rewrite Hout by done. rewrite (getitem_setitem_eq _ _ _ _ E).
        destruct (astype_int_ColInt _ _ Ec') as [l ->]. exists l. split; [done|].
        unfold col_length in Hl1. cbn in Hl1. by rewrite length_fmap in Hl1.
Qed.

(** the sanitized stock: as many rows, the four quantity columns are
    [int64], the other columns are those of the raw frame *)
Lemma prepared_stock_columns stock kf :
  prepared_stock stock = Ok kf ->
  nrows kf = nrows stock
  ∧ (∀ n, n ∉ stock_columns -> getitem kf n = getitem stock n)
  ∧ (∀ n, n ∈ stock_columns -> ∃ l, getitem kf n = Ok (ColInt l) ∧ length l = nrows stock).
Proof.
  unfold prepared_stock. intros H.
  destruct (coerce_columns_spec _ _ _ H) as (Hn & Hout & Hin).
  rewrite default_columns_nrows in Hn, Hin.
  split; [done|]. split; [|done].
  intros n Hnn. rewrite Hout by done. by apply getitem_default_columns_ne.
Qed.

End Stock.

Section Summary.
Context `{RT : Runtime}.

(** the aggregate: one row per group, four columns *)
Lemma sales_summary_columns sf af :
  sales_summary sf = Ok af ->
  ∃ kc q t p c1 c2 c3,
    getitem sf "Product" = Ok kc ∧
    getitem sf "Quantity Sold" = Ok q ∧
    getitem sf "Total" = Ok t ∧
    getitem sf "Profit" = Ok p ∧
    group_sums q (groups (cells kc)) = Ok c1 ∧
    group_sums t (groups (cells kc)) = Ok c2 ∧
    group_sums p (groups (cells kc)) = Ok c3 ∧
    af = {| nrows := length (first_rows (cells kc));
            columns := [("Product", take_col kc (first_rows (cells kc)));
                        ("Total Sold", c1); ("Sales Value", c2); ("Total Profit", c3)] |}.
Proof.
  unfold sales_summary, groupby_sum. intros H.
  apply rbind_inv in H as (agg & H & Haf). injection Haf as <-.
  apply rbind_inv in H as (kc & Hkc & H).
  apply rbind_inv in H as (cs & Hcs & H).
  apply rbind_inv in H as (sums & Hsums & H). injection H as <-.
  cbn in Hcs.
  destruct (getitem sf "Quantity Sold") as [q|] eqn:Eq; [|discriminate].
  destruct (getitem sf "Total") as [t|] eqn:Et; [|discriminate].
  destruct (getitem sf "Profit") as [p|] eqn:Ep; [|discriminate].
  injection Hcs as <-. cbn in Hsums.
  destruct (group_sums q _) as [c1|] eqn:E1; [|discriminate].
  destruct (group_sums t _) as [c2|] eqn:E2; [|discriminate].
  destruct (group_sums p _) as [c3|] eqn:E3; [|discriminate].
  injection Hsums as <-.
  by exists kc, q, t, p, c1, c2, c3.
Qed.

End Summary.

(** ** Joining *)

Lemma has_suffix_app suffix s : has_suffix suffix (s ++ suffix) = true.
Proof.
  induction s as [|c s IH].
  - change ((EmptyString ++ suffix)%string) with suffix.
    destruct suffix; cbn [has_suffix]; by rewrite String.eqb_refl.
  - change ((String c s ++ suffix)%string) with (String c (s ++ suffix)).
    cbn [has_suffix]. rewrite IH. apply orb_true_r.
Qed.

Lemma not_suffixed suffix name s :
  has_suffix suffix name = false -> name ≠ (s ++ suffix)%string.
Proof. intros H ->. by rewrite has_suffix_app in H. Qed.

Lemma assoc_app {A : Type} (k : string) (l1 l2 : list (string * A)) :
  assoc k (l1 ++ l2) = match assoc k l1 with Some v => Some v | None => assoc k l2 end.
Proof.
  induction l1 as [|[k' v] l1 IH]; cbn; [done|]. by destruct (String.eqb k k').
Qed.

Lemma assoc_elem_of {A : Type} (k : string) (l : list (string * A)) v :
  assoc k l = Some v -> k ∈ l.*1.
Proof.
  induction l as [|[k' v'] l IH]; cbn; [done|].
  destruct (String.eqb k k') eqn:E.
  - apply String.eqb_eq in E as ->. set_solver.
  - set_solver.
Qed.

Lemma assoc_None {A : Type} (k : string) (l : list (string * A)) :
  k ∉ l.*1 -> assoc k l = None.
Proof.
  induction l as [|[k' v'] l IH]; cbn; [done|]. intros Hk.
  destruct (String.eqb k k') eqn:E.
  - apply String.eqb_eq in E as ->. set_solver.
  - apply IH. set_solver.
Qed.

(** the columns of the left frame in the result of a join: a name that is
    not a column of the right frame and carries no suffix finds the left
    column *)
Lemma assoc_left_columns (others : list string) idx (cols : list (string * column)) name :
  name ∉ others -> has_suffix "_x" name = false ->
  assoc name ((fun p : string * column =>
                 (if bool_decide (p.1 ∈ others) then (p.1 ++ "_x")%string else p.1,
                  take_col p.2 idx)) <$> cols)
  = (fun c => take_col c idx) <$> assoc name cols.
Proof.
  intros Hn Hs. induction cols as [|[n0 c0] cols IH]; cbn; [done|].
  case_bool_decide as Hin.
  - destruct (String.eqb name (n0 ++ "_x")) eqn:E.
    { apply String.eqb_eq in E. by apply not_suffixed in E. }
    destruct (String.eqb name n0) eqn:E'; [|done].
    apply String.eqb_eq in E' as ->. done.
  - by destruct (String.eqb name n0).
Qed.

(** a name of the right frame that carries no suffix is no left column of
    the result *)
Lemma assoc_left_columns_None (others : list string) idx (cols : list (string * column)) name :
  name ∈ others -> has_suffix "_x" name = false ->
  assoc name ((fun p : string * column =>
                 (if bool_decide (p.1 ∈ others) then (p.1 ++ "_x")%string else p.1,
                  take_col p.2 idx)) <$> cols) = None.
Proof.
  intros Hn Hs. induction cols as [|[n0 c0] cols IH]; cbn; [done|].
  case_bool_decide as Hin.
  - destruct (String.eqb name (n0 ++ "_x")) eqn:E; [|done].
    apply String.eqb_eq in E. by apply not_suffixed in E.
  - destruct (String.eqb name n0) eqn:E; [|done].
    apply String.eqb_eq in E as ->. done.
Qed.

Section Join.
Context `{RT : Runtime}.

(** The join of a stock frame with an aggregate. *)
Lemma merge_left_summary kf pk c1 c2 c3 n m0 :
  merge_left kf {| nrows := n;
                   columns := [("Product", pk); ("Total Sold", c1);
                               ("Sales Value", c2); ("Total Profit", c3)] |}
             "Product" = Ok m0 ->
  ∃ lk, getitem kf "Product" = Ok lk ∧
    let pairs := merge_pairs (cells lk) (cells pk) in
    nrows m0 = length pairs ∧
    (∀ name c, getitem kf name = Ok c ->
       name ∉ ["Total Sold"; "Sales Value"; "Total Profit"] ->
       has_suffix "_x" name = false ->
       getitem m0 name = Ok (take_col c pairs.*1)) ∧
    (∀ c, getitem m0 "Total Sold" = Ok c -> c = take_opt c1 pairs.*2) ∧
    (∀ c, getitem m0 "Sales Value" = Ok c -> c = take_opt c2 pairs.*2) ∧
    (∀ c, getitem m0 "Total Profit" = Ok c -> c = take_opt c3 pairs.*2).
Proof.
  unfold merge_left. intros H.
  apply rbind_inv in H as (lk & Hlk & H).
  apply rbind_inv in H as (rk & Hrk & H).
  cbn in Hrk. injection Hrk as <-.
  cbn [columns List.filter fst snd String.eqb Ascii.eqb Bool.eqb negb fmap list_fmap] in H.
  case_bool_decide as Hnd; [|discriminate]. injection H as <-.
  exists lk. split; [done|]. cbn [nrows]. split; [done|].
  split.
  { intros name c Hc Hn Hs. unfold getitem in *. cbn [columns].
    rewrite assoc_app, assoc_left_columns by done.
    destruct (assoc name (columns kf)); [|discriminate]. by injection Hc as ->. }
  repeat split; intros c Hc; unfold getitem in Hc; cbn [columns] in Hc;
    rewrite assoc_app, assoc_left_columns_None in Hc by (first [set_solver | reflexivity]);
    cbn [assoc] in Hc; repeat case_bool_decide;
    change ("Total Sold" +:+ "_y") with "Total Sold_y" in Hc;
    change ("Sales Value" +:+ "_y") with "Sales Value_y" in Hc;
    change ("Total Profit" +:+ "_y") with "Total Profit_y" in Hc;
    cbn in Hc; congruence.
Qed.

End Join.

Lemma col_arith_int o x y r :
  col_arith o (ColInt x) (ColInt y) = Ok r ->
  r = ColInt (zip_with (op_int o) x y) ∧ length x = length y.
Proof.
  unfold col_arith, col_length. cbn. rewrite !length_fmap.
  destruct (length x =? length y)%nat eqn:E; cbn; [|discriminate].
  intros [= <-]. split; [done|]. by apply Nat.eqb_eq.
Qed.

Section Reconciled.
Context `{RT : Runtime}.

(** The reconciled frame: the columns of the stock frame taken along the
    join, the three sums with their missing values filled, and the current
    stock computed from four [int64] columns. *)
Lemma reconciled_columns kf pk c1 c2 c3 n mf :
  (∀ name, name ∈ stock_columns -> ∃ l, getitem kf name = Ok (ColInt l)) ->
  reconciled kf {| nrows := n;
                   columns := [("Product", pk); ("Total Sold", c1);
                               ("Sales Value", c2); ("Total Profit", c3)] |} = Ok mf ->
  ∃ lk, getitem kf "Product" = Ok lk ∧
    let pairs := merge_pairs (cells lk) (cells pk) in
    nrows mf = length pairs ∧
    (∀ name c, getitem kf name = Ok c ->
       name ∉ ["Total Sold"; "Sales Value"; "Total Profit"; "Current Stock"] ->
       has_suffix "_x" name = false ->
       getitem mf name = Ok (take_col c pairs.*1)) ∧
    getitem mf "Sales Value" = Ok (fillna (NFloat F64.zero) (take_opt c2 pairs.*2)) ∧
    getitem mf "Total Profit" = Ok (fillna (NFloat F64.zero) (take_opt c3 pairs.*2)) ∧
    ∃ o i u t,
      astype_int (fillna (NInt 0) (take_opt c1 pairs.*2)) = Ok (ColInt t) ∧
      getitem mf "Opening Stock" = Ok (ColInt o) ∧
      getitem mf "Stock In" = Ok (ColInt i) ∧
      getitem mf "Stock Out" = Ok (ColInt u) ∧
      getitem mf "Total Sold" = Ok (ColInt t) ∧
      getitem mf "Current Stock"
      = Ok (ColInt (zip_with Int64.sub (zip_with Int64.sub (zip_with Int64.add o i) u) t)) ∧
      length o = nrows mf ∧ length i = nrows mf ∧ length u = nrows mf ∧ length t = nrows mf.
Proof.
  intros Hint H. unfold reconciled in H.
  apply rbind_inv in H as (m0 & Hm0 & H).
  apply rbind_inv in H as (ts0 & Hts0 & H).
  apply rbind_inv in H as (ts & Hts & H).
  apply rbind_inv in H as (m1 & Hm1 & H).
  apply rbind_inv in H as (sv & Hsv & H).
  apply rbind_inv in H as (m2 & Hm2 & H).
  apply rbind_inv in H as (tp & Htp & H).
  apply rbind_inv in H as (m3 & Hm3 & H).
  apply rbind_inv in H as (opening & Ho & H).
  apply rbind_inv in H as (stock_in & Hi & H).
  apply rbind_inv in H as (s1 & Hs1 & H).
  apply rbind_inv in H as (stock_out & Hu & H).
  apply rbind_inv in H as (s2 & Hs2 & H).
  apply rbind_inv in H as (sold & Hsold & H).
  apply rbind_inv in H as (current & Hcur & H).
  destruct (merge_left_summary _ _ _ _ _ _ _ Hm0) as (lk & Hlk & Hn0 & Hleft & Hr1 & Hr2 & Hr3).
  cbv zeta in *. set (pairs := merge_pairs (cells lk) (cells pk)) in *.
  exists lk. split; [done|].
  destruct (setitem_nrows _ _ _ _ Hm1) as [Hn1 _].
  destruct (setitem_nrows _ _ _ _ Hm2) as [Hn2 _].
  destruct (setitem_nrows _ _ _ _ Hm3) as [Hn3 _].
  destruct (setitem_nrows _ _ _ _ H) as [Hn Hlcur].
  assert (Hnrows : nrows mf = length pairs) by congruence.
  split; [done|].
  (* a column of [m0] other than the four that are set is a column of [mf] *)
  assert (Hkeep : ∀ name,
            name ∉ ["Total Sold"; "Sales Value"; "Total Profit"; "Current Stock"] ->
            getitem mf name = getitem m0 name).
  { intros name Hname.
    rewrite (getitem_setitem_ne _ _ _ _ name H) by set_solver.
    rewrite (getitem_setitem_ne _ _ _ _ name Hm3) by set_solver.
    rewrite (getitem_setitem_ne _ _ _ _ name Hm2) by set_solver.
    apply (getitem_setitem_ne _ _ _ _ name Hm1). set_solver. }
  split.
  { intros name c Hc Hname Hsuf. rewrite Hkeep by done.
    apply Hleft; [done| set_solver |done]. }
  rewrite (getitem_setitem_ne _ _ _ _ _ Hm1) in Hsv by done.
  apply Hr2 in Hsv as ->.
  rewrite (getitem_setitem_ne _ _ _ _ _ Hm2) in Htp by done.
  rewrite (getitem_setitem_ne _ _ _ _ _ Hm1) in Htp by done.
  apply Hr3 in Htp as ->.
  apply Hr1 in Hts0 as ->.
  split.
  { rewrite (getitem_setitem_ne _ _ _ _ _ H) by done.
    rewrite (getitem_setitem_ne _ _ _ _ _ Hm3) by done.
    apply (getitem_setitem_eq _ _ _ _ Hm2). }
  split.
  { rewrite (getitem_setitem_ne _ _ _ _ _ H) by done.
    apply (getitem_setitem_eq _ _ _ _ Hm3). }
  destruct (astype_int_ColInt _ _ Hts) as [t ->].
  assert (Hsold' : getitem m3 "Total Sold" = Ok (ColInt t)).
  { rewrite (getitem_setitem_ne _ _ _ _ _ Hm3) by done.
    rewrite (getitem_setitem_ne _ _ _ _ _ Hm2) by done.
    apply (getitem_setitem_eq _ _ _ _ Hm1). }
  rewrite Hsold' in Hsold. injection Hsold as <-.
  assert (Hm3m0 : ∀ name,
            name ∉ ["Total Sold"; "Sales Value"; "Total Profit"] ->
            getitem m3 name = getitem m0 name).
  { intros name Hname.
    rewrite (getitem_setitem_ne _ _ _ _ name Hm3) by set_solver.
    rewrite (getitem_setitem_ne _ _ _ _ name Hm2) by set_solver.
    apply (getitem_setitem_ne _ _ _ _ name Hm1). set_solver. }
  destruct (Hint "Opening Stock") as [o0 Ho0]; [set_solver|].
  destruct (Hint "Stock In") as [i0 Hi0]; [set_solver|].
  destruct (Hint "Stock Out") as [u0 Hu0]; [set_solver|].
  rewrite Hm3m0, (Hleft _ _ Ho0) in Ho by (first [set_solver | reflexivity]).
  rewrite Hm3m0, (Hleft _ _ Hi0) in Hi by (first [set_solver | reflexivity]).
  rewrite Hm3m0, (Hleft _ _ Hu0) in Hu by (first [set_solver | reflexivity]).
  injection Ho as <-. injection Hi as <-. injection Hu as <-. cbn [take_col] in *.
  apply col_arith_int in Hs1 as [-> L1].
  apply col_arith_int in Hs2 as [-> L2].
  apply col_arith_int in Hcur as [-> L3].
  rewrite !length_zip_with in L2. rewrite !length_zip_with in L3.
  unfold col_length in Hlcur. cbn in Hlcur. rewrite length_fmap, !length_zip_with in Hlcur.
  exists (select pairs.*1 o0), (select pairs.*1 i0), (select pairs.*1 u0), t.
  split; [done|].
  split. { rewrite (getitem_setitem_ne _ _ _ _ _ H) by done.
           rewrite Hm3m0, (Hleft _ _ Ho0) by (first [set_solver | reflexivity]). done. }
  split. { rewrite (getitem_setitem_ne _ _ _ _ _ H) by done.
           rewrite Hm3m0, (Hleft _ _ Hi0) by (first [set_solver | reflexivity]). done. }
  split. { rewrite (getitem_setitem_ne _ _ _ _ _ H) by done.
           rewrite Hm3m0, (Hleft _ _ Hu0) by (first [set_solver | reflexivity]). done. }
  split. { by rewrite (getitem_setitem_ne _ _ _ _ _ H) by done. }
  split. { apply (getitem_setitem_eq _ _ _ _ H). }
  cbn [op_int op_add op_sub] in *. lia.
Qed.

End Reconciled.

(** ** Cells of integer columns *)

Lemma at_int_ColInt df name l j z :
  getitem df name = Ok (ColInt l) -> l !! j = Some z -> at_int df j name = Ok z.
Proof.
  intros Hc Hz. unfold at_int, at_cell. rewrite Hc. cbn.
  rewrite list_lookup_fmap, Hz. done.
Qed.

Lemma at_int_inv df name j z :
  at_int df j name = Ok z -> ∃ l, getitem df name = Ok (ColInt l) ∧ l !! j = Some z.
Proof.
  unfold at_int, at_cell. intros H.
  apply rbind_inv in H as (x & H & Hx).
  apply rbind_inv in H as (c & Hc & H).
  destruct (cells c !! j) as [y|] eqn:E; [|discriminate]. injection H as ->.
  destruct x as [v| | |]; try discriminate. injection Hx as ->.
  destruct c as [l|l|l|l]; cbn in E; rewrite list_lookup_fmap in E;
    destruct (l !! j) eqn:El; try discriminate; injection E as <-.
  by exists l.
Qed.

Lemma at_set_int_inv df idx name z df' :
  at_set_int df idx name z = Ok df' ->
  ∃ l, getitem df name = Ok (ColInt l) ∧ (idx < length l)%nat ∧ Int64.in_range z
       ∧ setitem df name (ColInt (<[idx:=z]> l)) = Ok df'.
Proof.
  unfold at_set_int. intros H. apply rbind_inv in H as (c & Hc & H).
  destruct c as [l| | |]; try discriminate.
  destruct (Int64.in_rangeb z) eqn:Ez; [|discriminate]. cbn in H.
  case_bool_decide as Hi; [|discriminate].
  exists l. split; [done|]. split; [done|]. split; [by apply in_rangeb_spec|done].
Qed.

Lemma at_cell_setitem_ne df name c df' j name' :
  setitem df name c = Ok df' -> name ≠ name' -> at_cell df' j name' = at_cell df j name'.
Proof. intros H Hne. unfold at_cell. by rewrite (getitem_setitem_ne _ _ _ _ _ H Hne). Qed.

(** [df.at[idx, name] = z] changes one cell *)
Lemma at_set_int_spec df idx name z df' :
  at_set_int df idx name z = Ok df' ->
  nrows df' = nrows df
  ∧ at_int df' idx name = Ok z
  ∧ (∀ name', name ≠ name' -> getitem df' name' = getitem df name')
  ∧ (∀ j name', (j, name') ≠ (idx, name) -> at_cell df' j name' = at_cell df j name').
Proof.
  intros H. apply at_set_int_inv in H as (l & Hl & Hi & Hz & H).
  split; [by apply setitem_nrows in H as [? _]|].
  split.
  { eapply at_int_ColInt; [by apply (getitem_setitem_eq _ _ _ _ H)|].
    by apply list_lookup_insert_eq. }
  split; [intros; by apply (getitem_setitem_ne _ _ _ _ _ H)|].
  intros j name' Hne. destruct (decide (name = name')) as [<-|Hn].
  - unfold at_cell. rewrite (getitem_setitem_eq _ _ _ _ H), Hl. cbn.
    rewrite !list_lookup_fmap, list_lookup_insert_ne; [done|congruence].
  - by apply (at_cell_setitem_ne _ _ _ _ _ _ H).
Qed.

Lemma at_int_at_cell df j name : at_int df j name =
  x ← at_cell df j name; match x with SInt z => Ok z | _ => Raise TypeError end.
Proof. reflexivity. Qed.

Section Adjusted.
Context `{RT : Runtime}.

Lemma np_add_inv v n z :
  np_add v n = Ok z -> Int64.in_range n ∧ z = Int64.add v n.
Proof.
  unfold np_add. destruct (Int64.in_rangeb n) eqn:E; [|discriminate]. cbn.
  intros [= <-]. split; [by apply in_rangeb_spec|done].
Qed.

Lemma np_add_total v n : Int64.in_range n -> np_add v n = Ok (Int64.add v n).
Proof. intros H. unfold np_add. apply in_rangeb_spec in H. by rewrite H. Qed.

(** What an adjustment does to the reconciled frame: row [idx] gets the new
    Stock In, Stock Out, Min Threshold and the Current Stock computed from
    them; no other cell changes. *)
Lemma adjusted_spec mg idx add_in add_out set_threshold mg' :
  adjusted mg idx add_in add_out set_threshold = Ok mg' ->
  nrows mg' = nrows mg
  ∧ (∀ j name, j ≠ idx -> at_cell mg' j name = at_cell mg j name)
  ∧ (∀ name, name ∉ ["Stock In"; "Stock Out"; "Min Threshold"; "Current Stock"] ->
       getitem mg' name = getitem mg name)
  ∧ ∃ stock_in stock_out opening sold,
      at_int mg idx "Stock In" = Ok stock_in ∧
      at_int mg idx "Stock Out" = Ok stock_out ∧
      at_int mg idx "Opening Stock" = Ok opening ∧
      at_int mg idx "Total Sold" = Ok sold ∧
      at_int mg' idx "Stock In" = Ok (Int64.add stock_in add_in) ∧
      at_int mg' idx "Stock Out" = Ok (Int64.add stock_out add_out) ∧
      at_int mg' idx "Min Threshold" = Ok set_threshold ∧
      at_int mg' idx "Opening Stock" = Ok opening ∧
      at_int mg' idx "Total Sold" = Ok sold ∧
      at_int mg' idx "Current Stock"
      = Ok (Int64.sub (Int64.sub (Int64.add opening (Int64.add stock_in add_in))
                                 (Int64.add stock_out add_out)) sold).
Proof.
  unfold adjusted. intros H.
  apply rbind_inv in H as (v1 & Hv1 & H).
  apply rbind_inv in H as (z1 & Hz1 & H). apply np_add_inv in Hz1 as [_ ->].
  apply rbind_inv in H as (m1 & Hm1 & H).
  apply rbind_inv in H as (v2 & Hv2 & H).
  apply rbind_inv in H as (z2 & Hz2 & H). apply np_add_inv in Hz2 as [_ ->].
  apply rbind_inv in H as (m2 & Hm2 & H).
  apply rbind_inv in H as (m3 & Hm3 & H).
  apply rbind_inv in H as (o & Ho & H).
  apply rbind_inv in H as (i & Hi & H).
  apply rbind_inv in H as (u & Hu & H).
  apply rbind_inv in H as (t & Ht & H).
  destruct (at_set_int_spec _ _ _ _ _ Hm1) as (N1 & S1 & G1 & C1).
  destruct (at_set_int_spec _ _ _ _ _ Hm2) as (N2 & S2 & G2 & C2).
  destruct (at_set_int_spec _ _ _ _ _ Hm3) as (N3 & S3 & G3 & C3).
  destruct (at_set_int_spec _ _ _ _ _ H) as (N4 & S4 & G4 & C4).
  split; [congruence|]. split.
  { intros j name Hj. rewrite C4, C3, C2, C1 by congruence. done. }
  split.
  { intros name Hname. rewrite G4, G3, G2, G1 by set_solver. done. }
  (* the cells of row [idx] that the later assignments leave alone *)
  rewrite at_int_at_cell, C1 in Hv2 by congruence. fold (at_int mg idx "Stock Out") in Hv2.
  rewrite at_int_at_cell, C3, C2, C1 in Ho by congruence.
  fold (at_int mg idx "Opening Stock") in Ho.
  rewrite at_int_at_cell, C3, C2, C1 in Ht by congruence.
  fold (at_int mg idx "Total Sold") in Ht.
  rewrite at_int_at_cell, C3, C2 in Hi by congruence. fold (at_int m1 idx "Stock In") in Hi.
  rewrite S1 in Hi. injection Hi as <-.
  rewrite at_int_at_cell, C3 in Hu by congruence. fold (at_int m2 idx "Stock Out") in Hu.
  rewrite S2 in Hu. injection Hu as <-.
  exists v1, v2, o, t. repeat split; try done.
  - rewrite at_int_at_cell, C4, C3, C2 by congruence. exact S1.
  - rewrite at_int_at_cell, C4, C3 by congruence. exact S2.
  - rewrite at_int_at_cell, C4 by congruence. exact S3.
  - rewrite at_int_at_cell, C4, C3, C2, C1 by congruence. exact Ho.
  - rewrite at_int_at_cell, C4, C3, C2, C1 by congruence. exact Ht.
Qed.

(** An adjustment keeps the stock formula. *)
Lemma adjusted_current_stock mg idx add_in add_out set_threshold mg' :
  current_stock_holds mg ->
  adjusted mg idx add_in add_out set_threshold = Ok mg' ->
  current_stock_holds mg'.
Proof.
  intros Hinv H.
  destruct (adjusted_spec _ _ _ _ _ _ H)
    as (Hn & Hother & _ & vin & vout & o & t & _ & _ & _ & _ & Hi & Hu & _ & Ho & Ht & Hc).
  intros j Hj. destruct (decide (j = idx)) as [->|Hne].
  - exists o, (Int64.add vin add_in), (Int64.add vout add_out), t,
      (Int64.sub (Int64.sub (Int64.add o (Int64.add vin add_in))
                            (Int64.add vout add_out)) t).
    repeat split; try done.
    + apply int64_stock_formula.
    + intros Hr. rewrite int64_stock_formula. by apply wrap_in_range.
  - rewrite Hn in Hj. destruct (Hinv j Hj) as (o' & i' & u' & t' & c' & H1 & H2 & H3 & H4 & H5 & H6).
    exists o', i', u', t', c'.
    rewrite !at_int_at_cell, !Hother by done. done.
Qed.

End Adjusted.

(** ** Successful computations, read backwards *)

Lemma bind_inv {A B : Type} (m : M A) (f : A -> M B) (w : world) (b : B) (w' : world) :
  (m ≫= f) w = (Ok b, w') -> ∃ a w1, m w = (Ok a, w1) ∧ f a w1 = (Ok b, w').
Proof.
  unfold mbind, M_bind. destruct (m w) as [[a|e] w1]; [eauto | discriminate].
Qed.

Lemma get_frame_inv l w df w' :
  get_frame l w = (Ok df, w') -> w' = w ∧ heap w !! l = Some df.
Proof.
  unfold get_frame. destruct (heap w !! l); [|discriminate]. by intros [= -> ->].
Qed.

Lemma lift_inv {A : Type} (r : result A) w a w' :
  lift r w = (Ok a, w') -> w' = w ∧ r = Ok a.
Proof. unfold lift. by intros [= -> ->]. Qed.

Lemma df_at_inv l idx name w v w' :
  df_at l idx name w = (Ok v, w') ->
  w' = w ∧ ∃ df, heap w !! l = Some df ∧ at_int df idx name = Ok v.
Proof.
  unfold df_at. intros H. apply bind_inv in H as (df & w1 & Hdf & H).
  apply get_frame_inv in Hdf as [-> Hdf]. apply lift_inv in H as [-> H]. eauto.
Qed.

Lemma df_at_set_inv l idx name z w u w' :
  df_at_set l idx name z w = (Ok u, w') ->
  ∃ df df', heap w !! l = Some df ∧ at_set_int df idx name z = Ok df'
            ∧ w' = with_heap (<[l:=df']> (heap w)) w.
Proof.
  unfold df_at_set. intros H. apply bind_inv in H as (df & w1 & Hdf & H).
  apply get_frame_inv in Hdf as [-> Hdf].
  apply bind_inv in H as (df' & w1 & Hdf' & H).
  apply lift_inv in Hdf' as [-> Hdf'].
  unfold put_frame in H. injection H as _ <-. eauto.
Qed.

Lemma df_get_loc_inv l name w i w' :
  df_get_loc l name w = (Ok i, w') ->
  w' = w ∧ ∃ df, heap w !! l = Some df ∧ get_loc df name = Ok i.
Proof.
  unfold df_get_loc. intros H. apply bind_inv in H as (df & w1 & Hdf & H).
  apply get_frame_inv in Hdf as [-> Hdf]. apply lift_inv in H as [-> H]. eauto.
Qed.

Lemma update_cell_inv row col v w u w' :
  update_cell row col v w = (Ok u, w') ->
  w' = with_cells (<[(row, col):=PInt v]> (stock_cells w)) w.
Proof. unfold update_cell. by intros [= _ <-]. Qed.

Section Adjustment.
Context `{RT : Runtime}.

Lemma df_first_row_inv l product w i w' :
  df_first_row l product w = (Ok i, w') ->
  w' = w ∧ ∃ df, heap w !! l = Some df ∧ first_row df product = Ok i.
Proof.
  unfold df_first_row, first_row. intros H. apply bind_inv in H as (df & w1 & Hdf & H).
  apply get_frame_inv in Hdf as [-> Hdf].
  apply bind_inv in H as (p & w1 & Hp & H).
  apply lift_inv in Hp as [-> Hp]. apply lift_inv in H as [-> H].
  split; [done|]. exists df. split; [done|]. by rewrite Hp.
Qed.

(** A successful adjustment: the reconciled frame is [adjusted] in place at
    the first row of the product, and three cells of the worksheet are
    written, in the row of the first stock row of the product. *)
Lemma apply_adjustment_ok merged stock_df product add_in add_out set_threshold w w' mg kf :
  heap w !! merged = Some mg -> heap w !! stock_df = Some kf -> merged ≠ stock_df ->
  apply_adjustment merged stock_df product add_in add_out set_threshold w = (Ok tt, w') ->
  ∃ idx mg' pos c1 c2 c3 v1 v2 v3,
    first_row mg product = Ok idx ∧
    adjusted mg idx add_in add_out set_threshold = Ok mg' ∧
    first_row kf product = Ok pos ∧
    get_loc kf "Stock In" = Ok c1 ∧
    get_loc kf "Stock Out" = Ok c2 ∧
    get_loc kf "Min Threshold" = Ok c3 ∧
    at_int mg' idx "Stock In" = Ok v1 ∧
    at_int mg' idx "Stock Out" = Ok v2 ∧
    at_int mg' idx "Min Threshold" = Ok v3 ∧
    w' = with_cells
           (<[(pos + 2, c3 + 1)%nat:=PInt v3]>
              (<[(pos + 2, c2 + 1)%nat:=PInt v2]>
                 (<[(pos + 2, c1 + 1)%nat:=PInt v1]> (stock_cells w))))
           (with_heap (<[merged:=mg']> (heap w)) w).
Proof.
  intros Hmg Hkf Hne H. unfold apply_adjustment, write_min_threshold in H.
  apply bind_inv in H as (idx & w1 & H1 & H).
  apply df_first_row_inv in H1 as (-> & ? & Hx & Hidx).
  rewrite Hmg in Hx. injection Hx as <-.
  apply bind_inv in H as (v & w1 & H1 & H).
  apply df_at_inv in H1 as (-> & ? & Hx & Hv).
  rewrite Hmg in Hx. injection Hx as <-.
  apply bind_inv in H as (z & w1 & H1 & H).
  apply lift_inv in H1 as [-> Hz].
  apply bind_inv in H as (? & w1 & H1 & H).
  apply df_at_set_inv in H1 as (? & m1 & Hx & Hm1 & ->).
  rewrite Hmg in Hx. injection Hx as <-.
  apply bind_inv in H as (v' & w1 & H1 & H).
  apply df_at_inv in H1 as (-> & ? & Hx & Hv').
  cbn [heap with_heap] in Hx. rewrite lookup_insert_eq in Hx. injection Hx as <-.
  apply bind_inv in H as (z' & w1 & H1 & H).
  apply lift_inv in H1 as [-> Hz'].
  apply bind_inv in H as (? & w1 & H1 & H).
  apply df_at_set_inv in H1 as (? & m2 & Hx & Hm2 & ->).
  cbn [heap with_heap] in Hx. rewrite lookup_insert_eq in Hx. injection Hx as <-.
  apply bind_inv in H as (? & w1 & H1 & H).
  apply df_at_set_inv in H1 as (? & m3 & Hx & Hm3 & ->).
  cbn [heap with_heap] in Hx. rewrite lookup_insert_eq in Hx. injection Hx as <-.
  apply bind_inv in H as (o & w1 & H1 & H).
  apply df_at_inv in H1 as (-> & ? & Hx & Ho).
  cbn [heap with_heap] in Hx. rewrite lookup_insert_eq in Hx. injection Hx as <-.
  apply bind_inv in H as (i & w1 & H1 & H).
  apply df_at_inv in H1 as (-> & ? & Hx & Hi).
  cbn [heap with_heap] in Hx. rewrite lookup_insert_eq in Hx. injection Hx as <-.
  apply bind_inv in H as (u & w1 & H1 & H).
  apply df_at_inv in H1 as (-> & ? & Hx & Hu).
  cbn [heap with_heap] in Hx. rewrite lookup_insert_eq in Hx. injection Hx as <-.
  apply bind_inv in H as (t & w1 & H1 & H).
  apply df_at_inv in H1 as (-> & ? & Hx & Ht).
  cbn [heap with_heap] in Hx. rewrite lookup_insert_eq in Hx. injection Hx as <-.
  apply bind_inv in H as (? & w1 & H1 & H).
  apply df_at_set_inv in H1 as (? & m4 & Hx & Hm4 & ->).
  cbn [heap with_heap] in Hx. rewrite lookup_insert_eq in Hx. injection Hx as <-.
  cbn [heap with_heap] in H. rewrite !insert_insert_eq in H.
  assert (Hkf' : <[merged:=m4]> (heap w) !! stock_df = Some kf)
    by by rewrite lookup_insert_ne.
  apply bind_inv in H as (pos & w1 & H1 & H).
  apply df_first_row_inv in H1 as (-> & ? & Hx & Hpos).
  cbn [heap with_heap] in Hx. rewrite Hkf' in Hx. injection Hx as <-.
  apply bind_inv in H as (c1 & w1 & H1 & H).
  apply df_get_loc_inv in H1 as (-> & ? & Hx & Hc1).
  cbn [heap with_heap] in Hx. rewrite Hkf' in Hx. injection Hx as <-.
  apply bind_inv in H as (v1 & w1 & H1 & H).
  apply df_at_inv in H1 as (-> & ? & Hx & Hv1).
  cbn [heap with_heap] in Hx. rewrite lookup_insert_eq in Hx. injection Hx as <-.
  apply bind_inv in H as (? & w1 & H1 & H).
  apply update_cell_inv in H1 as ->.
  apply bind_inv in H as (c2 & w1 & H1 & H).
  apply df_get_loc_inv in H1 as (-> & ? & Hx & Hc2).
  cbn [heap with_heap with_cells] in Hx. rewrite Hkf' in Hx. injection Hx as <-.
  apply bind_inv in H as (v2 & w1 & H1 & H).
  apply df_at_inv in H1 as (-> & ? & Hx & Hv2).
  cbn [heap with_heap with_cells] in Hx. rewrite lookup_insert_eq in Hx. injection Hx as <-.
  apply bind_inv in H as (? & w1 & H1 & H).
  apply update_cell_inv in H1 as ->.
  apply bind_inv in H as (c3 & w1 & H1 & H).
  apply df_get_loc_inv in H1 as (-> & ? & Hx & Hc3).
  cbn [heap with_heap with_cells] in Hx. rewrite Hkf' in Hx. injection Hx as <-.
  apply bind_inv in H as (v3 & w1 & H1 & H).
  apply df_at_inv in H1 as (-> & ? & Hx & Hv3).
  cbn [heap with_heap with_cells] in Hx. rewrite lookup_insert_eq in Hx. injection Hx as <-.
  apply update_cell_inv in H as ->.
  exists idx, m4, pos, c1, c2, c3, v1, v2, v3.
  repeat split; try done.
  unfold adjusted. rewrite Hv. cbn. rewrite Hz. cbn. rewrite Hm1. cbn.
  rewrite Hv'. cbn. rewrite Hz'. cbn. rewrite Hm2. cbn.
  rewrite Hm3. cbn. rewrite Ho. cbn. rewrite Hi. cbn. rewrite Hu. cbn. rewrite Ht. cbn.
  exact Hm4.
Qed.

End Adjustment.

(** ** The four frames of a run *)

Section Pipeline.
Context `{RT : Runtime}.

Lemma pipeline_inv sales stock sf kf af mf :
  pipeline sales stock = Ok (sf, kf, af, mf) ->
  prepared_sales sales = Ok sf ∧ prepared_stock stock = Ok kf
  ∧ sales_summary sf = Ok af ∧ reconciled kf af = Ok mf.
Proof.
  unfold pipeline. intros H.
  apply rbind_inv in H as (sf' & Hs & H). apply rbind_inv in H as (kf' & Hk & H).
  apply rbind_inv in H as (af' & Ha & H). apply rbind_inv in H as (mf' & Hm & H).
  by injection H as -> -> -> ->.
Qed.

Lemma prepared_stock_int stock kf :
  prepared_stock stock = Ok kf ->
  ∀ name, name ∈ stock_columns -> ∃ l, getitem kf name = Ok (ColInt l).
Proof.
  intros H name Hname.
  destruct (prepared_stock_columns _ _ H) as (_ & _ & Hint).
  destruct (Hint name Hname) as (l & ? & _). eauto.
Qed.

(** the reconciled frame satisfies the stock formula *)
Lemma pipeline_current_stock sales stock sf kf af mf :
  pipeline sales stock = Ok (sf, kf, af, mf) -> current_stock_holds mf.
Proof.
  intros H. apply pipeline_inv in H as (Hs & Hk & Ha & Hm).
  destruct (sales_summary_columns _ _ Ha)
    as (kc & q & t & p & c1 & c2 & c3 & _ & _ & _ & _ & _ & _ & _ & ->).
  destruct (reconciled_columns _ _ _ _ _ _ _ (prepared_stock_int _ _ Hk) Hm)
    as (lk & Hlk & Hn & _ & _ & _ & o & i & u & ts & _ & Ho & Hi & Hu & Ht & Hc
        & Lo & Li & Lu & Lt).
  intros j Hj.
  destruct (lookup_lt_is_Some_2 o j) as [vo Hvo]; [lia|].
  destruct (lookup_lt_is_Some_2 i j) as [vi Hvi]; [lia|].
  destruct (lookup_lt_is_Some_2 u j) as [vu Hvu]; [lia|].
  destruct (lookup_lt_is_Some_2 ts j) as [vt Hvt]; [lia|].
  exists vo, vi, vu, vt, (Int64.sub (Int64.sub (Int64.add vo vi) vu) vt).
  split; [by eapply at_int_ColInt|]. split; [by eapply at_int_ColInt|].
  split; [by eapply at_int_ColInt|]. split; [by eapply at_int_ColInt|].
  split.
  { eapply at_int_ColInt; [exact Hc|].
    rewrite !lookup_zip_with, Hvo, Hvi, Hvu, Hvt. done. }
  split; [apply int64_stock_formula|].
  intros Hr. rewrite int64_stock_formula. by apply wrap_in_range.
Qed.

End Pipeline.

(** ** Product keys *)

Lemma plain_eqb_spec x y :
  plain_key x = true -> plain_key y = true ->
  scalar_eqb x y = true ↔ key_repr x = key_repr y.
Proof.
  destruct x as [a|f|[a|f|s]|t], y as [b|g|[b|g|t']|t']; cbn; try discriminate;
    intros _ _; rewrite ?Z.eqb_eq, ?String.eqb_eq; split; congruence.
Qed.

Lemma plain_not_na x : plain_key x = true -> isna x = false.
Proof. by destruct x as [a|f|[a|f|s]|t]. Qed.

Lemma plain_eqb_refl x : plain_key x = true -> scalar_eqb x x = true.
Proof. intros H. by apply plain_eqb_spec. Qed.

Lemma plain_key_match x y :
  plain_key x = true -> plain_key y = true ->
  key_match x y = true ↔ key_repr x = key_repr y.
Proof.
  intros Hx Hy. unfold key_match. rewrite (plain_not_na x Hx). cbn.
  by apply plain_eqb_spec.
Qed.

(** ** Rows, selections and groups *)

Lemma select_lookup_valid {A : Type} (idx : list nat) (l : list A) :
  Forall (fun i => (i < length l)%nat) idx ->
  ∀ j, select idx l !! j = i ← idx !! j; l !! i.
Proof.
  unfold select. induction idx as [|i idx IH]; intros Hv j; [done|].
  apply Forall_cons in Hv as [Hi Hv]. cbn.
  destruct (lookup_lt_is_Some_2 l i Hi) as [x Hx]. rewrite Hx. cbn.
  destruct j as [|j]; cbn; [done|]. by apply IH.
Qed.

Lemma select_length_valid {A : Type} (idx : list nat) (l : list A) :
  Forall (fun i => (i < length l)%nat) idx -> length (select idx l) = length idx.
Proof.
  unfold select. induction idx as [|i idx IH]; intros Hv; [done|].
  apply Forall_cons in Hv as [Hi Hv]. cbn.
  destruct (lookup_lt_is_Some_2 l i Hi) as [x Hx]. rewrite Hx. cbn. f_equal. by apply IH.
Qed.

Lemma select_seq_app {A : Type} (pre l : list A) :
  select (seq (length pre) (length l)) (pre ++ l) = l.
Proof.
  unfold select. revert pre. induction l as [|x l IH]; intros pre; [done|].
  cbn. rewrite lookup_app_r by lia. rewrite Nat.sub_diag. cbn. f_equal.
  specialize (IH (pre ++ [x])). rewrite length_app in IH. cbn in IH.
  rewrite Nat.add_1_r, <- app_assoc in IH. exact IH.
Qed.

Lemma select_seq {A : Type} (l : list A) : select (seq 0 (length l)) l = l.
Proof. apply (select_seq_app [] l). Qed.

Lemma select_elem_of {A : Type} (idx : list nat) (l : list A) x :
  x ∈ select idx l -> ∃ i, i ∈ idx ∧ l !! i = Some x.
Proof.
  unfold select. rewrite list_elem_of_omap. intros (i & Hi & Hx). eauto.
Qed.

Lemma select_fmap {A B : Type} (f : A -> B) (idx : list nat) (l : list A) :
  select idx (f <$> l) = f <$> select idx l.
Proof.
  unfold select. induction idx as [|i idx IH]; [done|]. cbn.
  rewrite list_lookup_fmap. destruct (l !! i); cbn; by rewrite IH.
Qed.

Lemma cells_take_col c idx : cells (take_col c idx) = select idx (cells c).
Proof. destruct c as [l|l|l|l]; cbn; by rewrite select_fmap. Qed.

Lemma take_col_seq c : take_col c (seq 0 (col_length c)) = c.
Proof.
  unfold col_length. destruct c as [l|l|l|l]; cbn; rewrite length_fmap; f_equal;
    apply select_seq.
Qed.

Lemma filter_seq_lookup (P : nat -> bool) n i :
  i ∈ List.filter P (seq 0 n) ↔ (i < n)%nat ∧ P i = true.
Proof.
  rewrite list_elem_of_In, filter_In, <- list_elem_of_In, elem_of_seq. intuition lia.
Qed.

Lemma filter_seq_NoDup (P : nat -> bool) n : NoDup (List.filter P (seq 0 n)).
Proof. apply NoDup_ListNoDup, List.NoDup_filter, NoDup_ListNoDup, NoDup_seq. Qed.

Section Groups.
Context `{RT : Runtime}.

Lemma first_rows_spec ks i :
  i ∈ first_rows ks ↔
  ∃ k, ks !! i = Some k ∧ isna k = false
       ∧ ∀ j x, (j < i)%nat -> ks !! j = Some x -> scalar_eqb k x = false.
Proof.
  unfold first_rows. rewrite filter_seq_lookup. split.
  - intros [Hi H]. destruct (ks !! i) as [k|] eqn:Ek; [|discriminate].
    apply andb_true_iff in H as [Hna Hex]. apply negb_true_iff in Hna, Hex.
    exists k. split; [done|]. split; [done|]. intros j x Hj Hx.
    destruct (scalar_eqb k x) eqn:E; [|done].
    assert (existsb (scalar_eqb k) (take i ks) = true); [|congruence].
    apply existsb_exists. exists x. split; [|done].
    apply list_elem_of_In, list_elem_of_lookup. exists j. by rewrite lookup_take_lt.
  - intros (k & Hk & Hna & Hfirst). split; [by eapply lookup_lt_Some|].
    rewrite Hk, Hna. cbn. apply negb_true_iff.
    destruct (existsb (scalar_eqb k) (take i ks)) eqn:E; [|done].
    apply existsb_exists in E as (x & Hx & Hxk).
    apply list_elem_of_In, list_elem_of_lookup in Hx as [j Hj].
    pose proof (lookup_lt_Some _ _ _ Hj) as Hlt. rewrite length_take in Hlt.
    rewrite lookup_take_lt in Hj by lia. rewrite (Hfirst j x) in Hxk; [done|lia|done].
Qed.

Lemma first_rows_valid ks : Forall (fun i => (i < length ks)%nat) (first_rows ks).
Proof.
  apply Forall_forall. intros i Hi. unfold first_rows in Hi.
  by apply filter_seq_lookup in Hi as [? _].
Qed.

(** the keys of the aggregate are pairwise different *)
Lemma first_rows_distinct ks j1 j2 y1 y2 :
  Forall (fun k => plain_key k = true) ks ->
  j1 ≠ j2 ->
  select (first_rows ks) ks !! j1 = Some y1 ->
  select (first_rows ks) ks !! j2 = Some y2 ->
  key_repr y1 ≠ key_repr y2.
Proof.
  intros Hplain Hne H1 H2 Heq.
  rewrite select_lookup_valid in H1, H2 by apply first_rows_valid.
  destruct (first_rows ks !! j1) as [f1|] eqn:F1; [|discriminate].
  destruct (first_rows ks !! j2) as [f2|] eqn:F2; [|discriminate].
  cbn in H1, H2.
  assert (f1 ≠ f2).
  { intros ->. apply Hne.
    eapply NoDup_lookup; [apply filter_seq_NoDup|exact F1|exact F2]. }
  assert (Hp1 : plain_key y1 = true).
  { rewrite Forall_forall in Hplain. apply Hplain, list_elem_of_lookup. eauto. }
  assert (Hp2 : plain_key y2 = true).
  { rewrite Forall_forall in Hplain. apply Hplain, list_elem_of_lookup. eauto. }
  assert (E12 : scalar_eqb y1 y2 = true) by by apply plain_eqb_spec.
  assert (E21 : scalar_eqb y2 y1 = true) by by apply plain_eqb_spec.
  assert (I1 : f1 ∈ first_rows ks) by (apply list_elem_of_lookup; eauto).
  assert (I2 : f2 ∈ first_rows ks) by (apply list_elem_of_lookup; eauto).
  apply first_rows_spec in I1 as (k1 & K1 & _ & L1).
  apply first_rows_spec in I2 as (k2 & K2 & _ & L2).
  rewrite H1 in K1. injection K1 as <-. rewrite H2 in K2. injection K2 as <-.
  destruct (decide (f1 < f2)%nat).
  - rewrite (L2 f1 y1) in E21; [done|lia|done].
  - rewrite (L1 f2 y2) in E12; [done|lia|done].
Qed.

End Groups.

(** ** A join with keys that are unique on the right *)

Lemma length_le_1 {A : Type} (l : list A) :
  NoDup l -> (∀ x y, x ∈ l -> y ∈ l -> x = y) -> (length l ≤ 1)%nat.
Proof.
  destruct l as [|x [|y l]]; cbn; [lia|lia|].
  intros Hnd Heq. assert (x = y) as -> by (apply Heq; set_solver).
  apply NoDup_cons in Hnd as [Hx _]. set_solver.
Qed.

Section UniqueJoin.
Context `{RT : Runtime}.

Lemma matches_spec k rk j :
  j ∈ matches k rk ↔ ∃ y, rk !! j = Some y ∧ key_match k y = true.
Proof.
  unfold matches. rewrite filter_seq_lookup. split.
  - intros [Hj H]. destruct (rk !! j) as [y|]; [eauto|discriminate].
  - intros (y & Hy & H). rewrite Hy. split; [by eapply lookup_lt_Some|done].
Qed.

Lemma matches_unique k rk :
  plain_key k = true -> Forall (fun y => plain_key y = true) rk -> unique_keys rk ->
  (length (matches k rk) ≤ 1)%nat.
Proof.
  intros Hk Hrk Hu. apply length_le_1; [apply filter_seq_NoDup|].
  intros j1 j2 H1 H2.
  apply matches_spec in H1 as (y1 & Y1 & M1). apply matches_spec in H2 as (y2 & Y2 & M2).
  destruct (decide (j1 = j2)) as [|Hne]; [done|]. exfalso.
  rewrite Forall_forall in Hrk.
  assert (plain_key y1 = true) by (apply Hrk, list_elem_of_lookup; eauto).
  assert (plain_key y2 = true) by (apply Hrk, list_elem_of_lookup; eauto).
  apply plain_key_match in M1, M2; try done.
  apply (Hu j1 j2 y1 y2 Hne Y1 Y2). congruence.
Qed.

Lemma concat_imap_singleton {A B : Type} (f : nat -> A -> B) (l : list A) :
  concat (imap (fun i x => [f i x]) l) = imap f l.
Proof.
  revert f. induction l as [|x l IH]; intros f; [done|].
  cbn. f_equal. apply IH.
Qed.

Lemma imap_fst_seq {A B : Type} (g : nat -> A -> B) (l : list A) (n : nat) :
  (imap (fun i x => ((n + i)%nat, g i x)) l).*1 = seq n (length l).
Proof.
  revert g n. induction l as [|x l IH]; intros g n; [done|].
  cbn. rewrite Nat.add_0_r. f_equal.
  rewrite <- (IH (fun i => g (S i)) (S n)). f_equal. apply imap_ext.
  intros i y _. cbn. f_equal. lia.
Qed.

(** with unique plain keys, every left row gives one row of the join *)
Lemma merge_pairs_unique lk rk :
  Forall (fun k => plain_key k = true) lk ->
  Forall (fun y => plain_key y = true) rk -> unique_keys rk ->
  merge_pairs lk rk = imap (fun i k => (i, head (matches k rk))) lk.
Proof.
  intros Hlk Hrk Hu. unfold merge_pairs.
  rewrite <- (concat_imap_singleton (fun i k => (i, head (matches k rk))) lk).
  f_equal. apply imap_ext. intros i k Hik.
  assert (Hk : plain_key k = true).
  { rewrite Forall_forall in Hlk. apply Hlk, list_elem_of_lookup. eauto. }
  pose proof (matches_unique k rk Hk Hrk Hu) as Hlen.
  destruct (matches k rk) as [|j [|j' l]]; cbn in *; [done|done|lia].
Qed.

Lemma merge_pairs_unique_fst lk rk :
  Forall (fun k => plain_key k = true) lk ->
  Forall (fun y => plain_key y = true) rk -> unique_keys rk ->
  (merge_pairs lk rk).*1 = seq 0 (length lk).
Proof.
  intros. rewrite merge_pairs_unique by done.
  apply (imap_fst_seq (fun _ k => head (matches k rk)) lk 0).
Qed.

Lemma merge_pairs_unique_snd lk rk j k :
  Forall (fun k => plain_key k = true) lk ->
  Forall (fun y => plain_key y = true) rk -> unique_keys rk ->
  lk !! j = Some k ->
  (merge_pairs lk rk).*2 !! j = Some (head (matches k rk)).
Proof.
  intros ? ? ? Hk. rewrite merge_pairs_unique by done.
  rewrite list_lookup_fmap, list_lookup_imap, Hk. done.
Qed.

Lemma matches_none k rk :
  (∀ y, y ∈ rk -> key_match k y = false) -> matches k rk = [].
Proof.
  intros H. destruct (matches k rk) as [|j l] eqn:E; [done|].
  assert (Hj : j ∈ matches k rk) by (rewrite E; set_solver).
  apply matches_spec in Hj as (y & Hy & Hm).
  rewrite H in Hm; [done|]. apply list_elem_of_lookup. eauto.
Qed.

End UniqueJoin.

(** ** Rows without a match *)

Lemma select_opt_lookup {A : Type} (idx : list (option nat)) (l : list A) j oi :
  idx !! j = Some oi -> select_opt idx l !! j = Some (i ← oi; l !! i).
Proof. intros H. unfold select_opt. by rewrite list_lookup_fmap, H. Qed.

Section Unmatched.
Context `{RT : Runtime}.

(** a sum that is missing for a row is filled with the float zero *)
Lemma unmatched_sum_zero c idx j :
  idx !! j = Some None -> is_time c = false ->
  cells (fillna (NFloat F64.zero) (take_opt c idx)) !! j = Some (SFloat F64.zero)
  ∨ cells (fillna (NFloat F64.zero) (take_opt c idx)) !! j = Some (SObj (PFloat F64.zero)).
Proof.
  intros Hj Ht. destruct c as [l|l|l|l]; try discriminate; cbn [take_opt].
  - pose proof (select_opt_lookup idx l j None Hj) as Hx. cbn in Hx.
    destruct (forallb _ (select_opt idx l)) eqn:E.
    + rewrite forallb_forall in E. specialize (E None).
      rewrite bool_decide_eq_true in E. destruct E as [? E]; [|done].
      apply list_elem_of_In, list_elem_of_lookup. eauto.
    + left. cbn. rewrite !list_lookup_fmap, Hx. done.
  - left. pose proof (select_opt_lookup idx l j None Hj) as Hx. cbn in Hx.
    cbn. rewrite !list_lookup_fmap, Hx. done.
  - right. pose proof (select_opt_lookup idx l j None Hj) as Hx. cbn in Hx.
    cbn. rewrite !list_lookup_fmap, Hx. done.
Qed.

(** a count that is missing for a row is zero *)
Lemma unmatched_count_zero c idx j t :
  idx !! j = Some None ->
  astype_int (fillna (NInt 0) (take_opt c idx)) = Ok (ColInt t) ->
  t !! j = Some 0.
Proof.
  intros Hj H. destruct c as [l|l|l|l]; cbn [take_opt] in H.
  - pose proof (select_opt_lookup idx l j None Hj) as Hx. cbn in Hx.
    destruct (forallb _ (select_opt idx l)) eqn:E.
    + rewrite forallb_forall in E. specialize (E None).
      rewrite bool_decide_eq_true in E. destruct E as [? E]; [|done].
      apply list_elem_of_In, list_elem_of_lookup. eauto.
    + cbn [fillna astype_int] in H.
      destruct (forallb F64.is_finite _); [|discriminate]. injection H as <-.
      rewrite !list_lookup_fmap, Hx. done.
  - pose proof (select_opt_lookup idx l j None Hj) as Hx. cbn in Hx.
    cbn [fillna astype_int] in H.
    destruct (forallb F64.is_finite _); [|discriminate]. injection H as <-.
    rewrite !list_lookup_fmap, Hx. done.
  - pose proof (select_opt_lookup idx l j None Hj) as Hx. cbn in Hx.
    cbn [fillna astype_int] in H. apply rfmap_inv in H as (zs & H & [= ->]).
    eapply mapR_lookup in H as (z & Hz & ->).
    2:{ rewrite !list_lookup_fmap, Hx. reflexivity. }
    cbn in Hz. by injection Hz as <-.
  - discriminate.
Qed.

End Unmatched.

(** ** The reconciled frame as a left join *)

Lemma well_formed_getitem df name c :
  well_formed df = true -> getitem df name = Ok c -> col_length c = nrows df.
Proof.
  unfold well_formed, getitem. intros Hwf H.
  destruct (assoc name (columns df)) as [c'|] eqn:E; [|discriminate]. injection H as ->.
  rewrite forallb_forall in Hwf.
  induction (columns df) as [|[n0 c0] l IH]; [discriminate|]. cbn in E.
  destruct (String.eqb name n0).
  - injection E as ->. specialize (Hwf (n0, c)). cbn in Hwf.
    apply Nat.eqb_eq, Hwf. by left.
  - apply IH; [|done]. intros x Hx. apply Hwf. by right.
Qed.

Lemma plain_keys_getitem df c :
  plain_keys df = true -> getitem df "Product" = Ok c ->
  Forall (fun k => plain_key k = true) (cells c).
Proof.
  unfold plain_keys, getitem. destruct (assoc "Product" (columns df)); [|discriminate].
  intros H [= ->]. apply Forall_forall. intros x Hx.
  rewrite forallb_forall in H. by apply H, list_elem_of_In.
Qed.

Lemma Forall_select {A : Type} (P : A -> Prop) (idx : list nat) (l : list A) :
  Forall P l -> Forall P (select idx l).
Proof.
  intros H. apply Forall_forall. intros x Hx.
  apply select_elem_of in Hx as (i & _ & Hi).
  rewrite Forall_forall in H. apply H, list_elem_of_lookup. eauto.
Qed.

Section LeftJoin.
Context `{RT : Runtime}.

Lemma parsed_dates_other df df' name :
  parsed_dates df = Ok df' -> name ≠ "Date" -> getitem df' name = getitem df name.
Proof.
  unfold parsed_dates. destruct (contains df "Date"); [|by intros [= <-]].
  intros H Hne. apply rbind_inv in H as (d & _ & H).
  by apply (getitem_setitem_ne _ _ _ _ _ H).
Qed.

(** sanitization leaves the other columns of the sales as they are *)
Lemma prepared_sales_other sales sf name :
  prepared_sales sales = Ok sf ->
  name ∉ ["Date"; "Quantity Sold"; "Unit Price"; "Cost Price"; "Total"; "Profit"] ->
  getitem sf name = getitem sales name.
Proof.
  unfold prepared_sales. intros H Hname.
  apply rbind_inv in H as (s1 & E1 & H). cbv zeta in H.
  apply rbind_inv in H as (quantity & _ & H).
  apply rbind_inv in H as (price & _ & H).
  apply rbind_inv in H as (total & _ & H).
  apply rbind_inv in H as (s3 & E3 & H).
  apply rbind_inv in H as (price' & _ & H).
  apply rbind_inv in H as (cost & _ & H).
  apply rbind_inv in H as (margin & _ & H).
  apply rbind_inv in H as (quantity' & _ & H).
  apply rbind_inv in H as (profit & _ & H).
  rewrite (getitem_setitem_ne _ _ _ _ name H) by set_solver.
  rewrite (getitem_setitem_ne _ _ _ _ name E3) by set_solver.
  rewrite getitem_default_columns_ne by (unfold sales_columns; set_solver).
  apply (parsed_dates_other _ _ _ E1). set_solver.
Qed.

Lemma group_sums_not_time c gs r : group_sums c gs = Ok r -> is_time r = false.
Proof.
  destruct c as [l|l|l|l]; cbn; try discriminate.
  - by intros [= <-].
  - by intros [= <-].
  - intros H. by apply rfmap_inv in H as (? & _ & ->).
Qed.

(** With unique plain keys the reconciled frame has the rows of the stock
    frame, in order, each with the sums of its product or with zeros. *)
Lemma pipeline_left_join sales stock sf kf af mf :
  pipeline sales stock = Ok (sf, kf, af, mf) ->
  well_formed stock = true -> plain_keys sales = true -> plain_keys stock = true ->
  ∃ products,
    getitem stock "Product" = Ok products ∧
    nrows mf = nrows stock ∧
    getitem mf "Product" = Ok products ∧
    ∀ j key,
      cells products !! j = Some key ->
      (∀ sales_products i x,
         getitem sales "Product" = Ok sales_products ->
         cells sales_products !! i = Some x -> scalar_eqb key x = false) ->
      at_int mf j "Total Sold" = Ok 0 ∧
      (∃ x, at_cell mf j "Sales Value" = Ok x ∧ float_zero x) ∧
      (∃ x, at_cell mf j "Total Profit" = Ok x ∧ float_zero x).
Proof.
  intros H Hwf Hps Hpk. apply pipeline_inv in H as (Hs & Hk & Ha & Hm).
  destruct (sales_summary_columns _ _ Ha)
    as (kc & q & t & p & c1 & c2 & c3 & Hkc & _ & _ & _ & _ & G2 & G3 & ->).
  destruct (reconciled_columns _ _ _ _ _ _ _ (prepared_stock_int _ _ Hk) Hm)
    as (lk & Hlk & Hn & Hleft & Hsv & Htp & o & i & u & ts & Hts & _ & _ & _ & Hsold & _).
  cbv zeta in *.
  set (ks := cells kc) in *.
  set (rk := cells (take_col kc (first_rows ks))) in *.
  set (pairs := merge_pairs (cells lk) rk) in *.
  destruct (prepared_stock_columns _ _ Hk) as (Hnk & Hout & _).
  rewrite Hout in Hlk by (unfold stock_columns; set_solver).
  rewrite (prepared_sales_other _ _ _ Hs) in Hkc by set_solver.
  pose proof (plain_keys_getitem _ _ Hps Hkc) as Pks.
  pose proof (plain_keys_getitem _ _ Hpk Hlk) as Plk.
  assert (Prk : Forall (fun y => plain_key y = true) rk).
  { unfold rk. rewrite cells_take_col. by apply Forall_select. }
  assert (Urk : unique_keys rk).
  { unfold rk. rewrite cells_take_col. intros j1 j2 y1 y2.
    by apply first_rows_distinct. }
  pose proof (merge_pairs_unique_fst _ _ Plk Prk Urk) as Hfst. fold pairs in Hfst.
  assert (Hlen : length pairs = nrows stock).
  { rewrite <- (length_fmap fst), Hfst, length_seq.
    apply (well_formed_getitem _ _ _ Hwf Hlk). }
  exists lk. split; [done|]. split; [congruence|]. split.
  { rewrite (Hleft "Product" lk); [|by rewrite Hout by (unfold stock_columns; set_solver)
                                    |set_solver|reflexivity].
    rewrite Hfst. f_equal. apply take_col_seq. }
  intros j key Hkey Hnone.
  assert (Hj : pairs.*2 !! j = Some None).
  { unfold pairs. rewrite (merge_pairs_unique_snd _ _ j key) by done.
    rewrite matches_none; [done|]. intros y Hy.
    unfold rk in Hy. rewrite cells_take_col in Hy.
    apply select_elem_of in Hy as (i0 & _ & Hy).
    unfold key_match. rewrite (Hnone kc i0 y Hkc Hy), orb_false_r.
    rewrite (plain_not_na key); [done|].
    rewrite Forall_forall in Plk. apply Plk, list_elem_of_lookup. eauto. }
  split.
  { eapply at_int_ColInt; [exact Hsold|]. by eapply unmatched_count_zero. }
  split.
  - destruct (unmatched_sum_zero c2 _ j Hj (group_sums_not_time _ _ _ G2)) as [Hz|Hz];
      eexists; (split; [eapply at_cell_lookup; [exact Hsv|exact Hz]|]);
      [by left|by right].
  - destruct (unmatched_sum_zero c3 _ j Hj (group_sums_not_time _ _ _ G3)) as [Hz|Hz];
      eexists; (split; [eapply at_cell_lookup; [exact Htp|exact Hz]|]);
      [by left|by right].
Qed.

End LeftJoin.

(** ** The first row of a product *)

Lemma mask_rows_shift (f : nat -> nat) (mask : list bool) :
  (fun p : nat * bool => p.1)
    <$> filter (fun p : nat * bool => Is_true p.2) (imap (fun i b => (f i, b)) mask)
  = f <$> mask_rows mask.
Proof.
  unfold mask_rows. revert f. induction mask as [|b mask IH]; intros f; [done|].
  cbn [imap]. rewrite !filter_cons. cbn [snd fst].
  change (imap ((fun i b => (f i, b)) ∘ S) mask) with (imap (fun i b => (f (S i), b)) mask).
  change (imap (pair ∘ S) mask) with (imap (fun i b => (S i, b)) mask).
  destruct b; repeat case_decide; try done; try (exfalso; auto; fail);
    rewrite ?fmap_cons; cbn [fst]; rewrite (IH (fun i => f (S i))), (IH S);
    rewrite ?fmap_cons;
    first [apply (list_fmap_compose S f) | f_equal; apply (list_fmap_compose S f)].
Qed.

Lemma mask_rows_cons b mask :
  mask_rows (b :: mask) = (if b then [0%nat] else []) ++ (S <$> mask_rows mask).
Proof.
  unfold mask_rows at 1. cbn [imap]. rewrite filter_cons. cbn [snd].
  change (imap (pair ∘ S) mask) with (imap (fun i b => (S i, b)) mask).
  pose proof (mask_rows_shift S mask) as H.
  destruct b; case_decide; try done; try (exfalso; auto; fail);
    rewrite ?fmap_cons; cbn; by rewrite H.
Qed.

Lemma head_mask_rows mask : head (mask_rows mask) = fst <$> list_find Is_true mask.
Proof.
  induction mask as [|b mask IH]; [done|].
  rewrite mask_rows_cons. cbn [list_find]. destruct b; cbn.
  - case_decide; [done|]. exfalso. auto.
  - case_decide; [done|]. rewrite <- option_fmap_compose.
    destruct (mask_rows mask) as [|i l]; cbn in *.
    + by destruct (list_find Is_true mask).
    + destruct (list_find Is_true mask) as [[i' b']|]; cbn in *; congruence.
Qed.

Lemma mask_rows_lt mask : Forall (fun i => (i < length mask)%nat) (mask_rows mask).
Proof.
  induction mask as [|b mask IH]; [constructor|].
  rewrite mask_rows_cons. apply Forall_app. split.
  - destruct b; [|constructor]. apply Forall_cons. split; [cbn; lia|constructor].
  - apply Forall_fmap. eapply Forall_impl; [exact IH|]. intros i Hi.
    cbn in Hi |- *. lia.
Qed.

Lemma select_seq_valid idx n :
  Forall (fun i => (i < n)%nat) idx -> select idx (seq 0 n) = idx.
Proof.
  unfold select. induction idx as [|i idx IH]; intros H; [done|].
  apply Forall_cons in H as [Hi H]. cbn.
  rewrite lookup_seq_lt by done. cbn. f_equal. by apply IH.
Qed.

Section FirstRow.
Context `{RT : Runtime}.

(** [first_row] finds the least row whose product equals the one sought *)
Lemma first_row_spec df c product idx :
  getitem df "Product" = Ok c -> col_length c = nrows df ->
  first_row df product = Ok idx ↔
  ∃ x, cells c !! idx = Some x ∧ scalar_eqb x product = true
       ∧ ∀ j y, cells c !! j = Some y -> (j < idx)%nat -> scalar_eqb y product = false.
Proof.
  intros Hc Hlen. unfold first_row. rewrite Hc, rbind_ok.
  unfold first_label, select_rows, all_rows. cbn [labels].
  rewrite select_seq_valid.
  2:{ eapply Forall_impl; [apply mask_rows_lt|]. cbn. intros i.
      unfold col_eq. rewrite length_fmap. unfold col_length in Hlen. lia. }
  pose proof (head_mask_rows (col_eq c product)) as Hhead.
  destruct (mask_rows (col_eq c product)) as [|i l]; cbn in Hhead.
  - split; [discriminate|]. intros (x & Hx & Heq & _).
    destruct (list_find Is_true (col_eq c product)) as [[i b]|] eqn:E; [discriminate|].
    rewrite list_find_None, Forall_forall in E. exfalso.
    apply (E true); [|done]. apply list_elem_of_lookup. exists idx.
    unfold col_eq. by rewrite list_lookup_fmap, Hx, <- Heq.
  - destruct (list_find Is_true (col_eq c product)) as [[i' b]|] eqn:E; [|discriminate].
    injection Hhead as ->. apply list_find_Some in E as (Hi & Hb & Hleast).
    unfold col_eq in Hi, Hleast. rewrite list_lookup_fmap in Hi.
    destruct (cells c !! i') as [x|] eqn:Ex; [|discriminate]. injection Hi as <-.
    split.
    + intros [= <-]. exists x. split; [done|]. split; [by apply Is_true_true|].
      intros j y Hy Hj. specialize (Hleast j (scalar_eqb y product)).
      rewrite list_lookup_fmap, Hy in Hleast. specialize (Hleast eq_refl Hj).
      by destruct (scalar_eqb y product).
    + intros (x' & Hx' & Heq & Hleast'). f_equal.
      destruct (Nat.lt_trichotomy i' idx) as [Hlt|[->|Hlt]]; [|done|].
      * rewrite (Hleast' i' x Ex Hlt) in Hb. done.
      * specialize (Hleast idx (scalar_eqb x' product)).
        rewrite list_lookup_fmap, Hx' in Hleast. specialize (Hleast eq_refl Hlt).
        rewrite Heq in Hleast. exfalso. auto.
Qed.

Lemma first_row_ext df df' product :
  nrows df = nrows df' -> getitem df "Product" = getitem df' "Product" ->
  first_row df product = first_row df' product.
Proof. intros Hn Hp. unfold first_row, all_rows. by rewrite Hn, Hp. Qed.

End FirstRow.

(** ** Groups *)

Lemma elem_of_mask_rows mask i : i ∈ mask_rows mask -> mask !! i = Some true.
Proof.
  unfold mask_rows. rewrite list_elem_of_fmap. intros ([j b] & -> & H).
  apply list_elem_of_filter in H as [Hb H]. cbn in *.
  apply list_elem_of_lookup in H as [n H]. rewrite list_lookup_imap in H.
  destruct (mask !! n) as [b'|] eqn:E; [|discriminate]. cbn in H.
  injection H as <- <-. by destruct b'.
Qed.

Lemma select_seq_elem_of idx n x : x ∈ select idx (seq 0 n) -> x ∈ idx.
Proof.
  intros H. apply select_elem_of in H as (i & Hi & Hx).
  apply lookup_seq in Hx as [-> _]. done.
Qed.

Lemma select_subset {A : Type} (idx : list nat) (l : list A) x :
  x ∈ select idx l -> x ∈ l.
Proof.
  intros H. apply select_elem_of in H as (i & _ & Hx).
  apply list_elem_of_lookup. eauto.
Qed.

Lemma omap_lookup_fmap {A B : Type} (f : A -> B) (idx : list nat) (l : list A) :
  omap (fun i => f <$> l !! i) idx = f <$> select idx l.
Proof.
  unfold select. induction idx as [|i idx IH]; [done|]. cbn.
  destruct (l !! i); cbn; by rewrite IH.
Qed.

Section GroupOf.
Context `{RT : Runtime}.

Lemma groups_lookup ks g :
  groups ks !! g = r ← first_rows ks !! g; rows_of_key ks <$> ks !! r.
Proof.
  unfold groups. rewrite omap_lookup_fmap, list_lookup_fmap.
  rewrite select_lookup_valid by apply first_rows_valid.
  destruct (first_rows ks !! g); cbn; done.
Qed.

Lemma rows_of_key_spec ks k i :
  i ∈ rows_of_key ks k ↔ ∃ x, ks !! i = Some x ∧ scalar_eqb k x = true.
Proof.
  unfold rows_of_key. rewrite filter_seq_lookup. split.
  - intros [_ H]. destruct (ks !! i) as [x|]; [eauto|discriminate].
  - intros (x & Hx & H). rewrite Hx. split; [by eapply lookup_lt_Some|done].
Qed.

(** every row with a plain key is in the group of its key *)
Lemma group_of_row ks i key :
  Forall (fun k => plain_key k = true) ks -> ks !! i = Some key ->
  ∃ g r key_g rows,
    first_rows ks !! g = Some r ∧ ks !! r = Some key_g ∧
    scalar_eqb key_g key = true ∧
    groups ks !! g = Some rows ∧ i ∈ rows.
Proof.
  intros Hplain Hi. rewrite Forall_forall in Hplain.
  assert (Hkey : plain_key key = true) by (apply Hplain, list_elem_of_lookup; eauto).
  destruct (list_find (fun x => key_repr x = key_repr key) ks) as [[r key_g]|] eqn:E.
  2:{ rewrite list_find_None, Forall_forall in E. exfalso.
      apply (E key); [|done]. apply list_elem_of_lookup. eauto. }
  apply list_find_Some in E as (Hr & Hrepr & Hleast).
  assert (Hkg : plain_key key_g = true) by (apply Hplain, list_elem_of_lookup; eauto).
  assert (Hfirst : r ∈ first_rows ks).
  { apply first_rows_spec. exists key_g. split; [done|]. split; [by apply plain_not_na|].
    intros j x Hj Hx. destruct (scalar_eqb key_g x) eqn:Eq; [|done]. exfalso.
    assert (plain_key x = true) by (apply Hplain, list_elem_of_lookup; eauto).
    apply plain_eqb_spec in Eq; [|done..].
    apply (Hleast j x Hx Hj). congruence. }
  apply list_elem_of_lookup in Hfirst as [g Hg].
  assert (Heq : scalar_eqb key_g key = true) by by apply plain_eqb_spec.
  exists g, r, key_g, (rows_of_key ks key_g).
  split; [done|]. split; [done|]. split; [done|]. split.
  - rewrite groups_lookup, Hg. cbn. by rewrite Hr.
  - apply rows_of_key_spec. eauto.
Qed.

End GroupOf.

(** ** The date filter *)

Section Filter.
Context `{RT : Runtime}.

Lemma labels_select_rows s mask x :
  x ∈ labels (select_rows s mask) -> x ∈ labels s.
Proof. cbn. apply select_subset. Qed.

(** a row whose date is NaT is in no date range *)
Lemma filter_sales_excludes_nat sales times start_date end_date product_sel sel i :
  getitem sales "Date" = Ok (ColTime times) -> times !! i = Some None ->
  filter_sales sales start_date end_date product_sel = Ok sel ->
  i ∉ labels sel.
Proof.
  intros Hd Hi H. unfold filter_sales in H. rewrite Hd in H. cbn in H.
  assert (Hout : i ∉ labels (select_rows (all_rows sales)
            (zip_with andb
               ((fun x => match x with Some v => Z.geb v start_date | None => false end) <$> times)
               ((fun x => match x with Some v => Z.leb v end_date | None => false end) <$> times)))).
  { cbn. intros Hin. apply select_seq_elem_of, elem_of_mask_rows in Hin.
    rewrite lookup_zip_with, !list_lookup_fmap, Hi in Hin. discriminate. }
  destruct (negb _); [|by injection H as <-].
  apply rbind_inv in H as (p & _ & H). injection H as <-.
  intros Hin. by apply labels_select_rows in Hin.
Qed.

End Filter.

(** ** Dates *)

Section Dates.
Context `{RT : Runtime}.

Lemma prepared_sales_date sales sf d :
  prepared_sales sales = Ok sf -> getitem sales "Date" = Ok d ->
  getitem sf "Date" = Ok (ColTime (to_datetime d)).
Proof.
  unfold prepared_sales. intros H Hd.
  apply rbind_inv in H as (s1 & E1 & H). cbv zeta in H.
  apply rbind_inv in H as (quantity & _ & H).
  apply rbind_inv in H as (price & _ & H).
  apply rbind_inv in H as (total & _ & H).
  apply rbind_inv in H as (s3 & E3 & H).
  apply rbind_inv in H as (price' & _ & H).
  apply rbind_inv in H as (cost & _ & H).
  apply rbind_inv in H as (margin & _ & H).
  apply rbind_inv in H as (quantity' & _ & H).
  apply rbind_inv in H as (profit & _ & H).
  rewrite (getitem_setitem_ne _ _ _ _ "Date" H) by done.
  rewrite (getitem_setitem_ne _ _ _ _ "Date" E3) by done.
  rewrite getitem_default_columns_ne by (unfold sales_columns; set_solver).
  unfold parsed_dates in E1.
  assert (Hc : contains sales "Date" = true) by (apply contains_getitem; eauto).
  rewrite Hc, Hd in E1. cbn in E1.
  by apply getitem_setitem_eq in E1.
Qed.

End Dates.

(** ** An adjustment goes through *)

Lemma in_rangeb_true z : Int64.in_range z -> Int64.in_rangeb z = true.
Proof. intros H. by apply in_rangeb_spec. Qed.

Lemma at_set_int_total df idx name l z :
  getitem df name = Ok (ColInt l) -> length l = nrows df -> (idx < nrows df)%nat ->
  Int64.in_range z ->
  ∃ df', at_set_int df idx name z = Ok df'.
Proof.
  intros Hc Hl Hidx Hz. unfold at_set_int. rewrite Hc. cbn.
  rewrite (in_rangeb_true _ Hz). cbn.
  rewrite bool_decide_eq_true_2 by lia.
  unfold setitem, col_length. cbn [cells].
  rewrite length_fmap, length_insert, Hl, Nat.eqb_refl. eauto.
Qed.

Lemma at_set_int_int_columns df idx name z df' :
  int_columns df -> at_set_int df idx name z = Ok df' -> int_columns df'.
Proof.
  intros Hint H name' Hname'.
  destruct (at_set_int_spec _ _ _ _ _ H) as (Hn & _ & Hother & _).
  apply at_set_int_inv in H as (l & Hc & Hlt & _ & Hset).
  destruct (decide (name = name')) as [<-|Hne].
  - exists (<[idx:=z]> l). split; [by eapply getitem_setitem_eq|].
    apply setitem_nrows in Hset as [_ Hlen]. unfold col_length in Hlen.
    cbn [cells] in Hlen. rewrite length_fmap in Hlen. congruence.
  - rewrite Hother, Hn by done. by apply Hint.
Qed.

Lemma at_int_total df idx name :
  int_columns df -> name ∈ quantity_columns -> (idx < nrows df)%nat ->
  ∃ v, at_int df idx name = Ok v.
Proof.
  intros Hint Hname Hidx. destruct (Hint name Hname) as (l & Hc & Hl).
  destruct (lookup_lt_is_Some_2 l idx) as [v Hv]; [lia|].
  exists v. by eapply at_int_ColInt.
Qed.

Lemma adjusted_total mg idx add_in add_out set_threshold :
  int_columns mg -> (idx < nrows mg)%nat ->
  Int64.in_range add_in -> Int64.in_range add_out -> Int64.in_range set_threshold ->
  ∃ mg', adjusted mg idx add_in add_out set_threshold = Ok mg'.
Proof.
  intros Hint Hidx Hadd_in Hadd_out Hthr. unfold adjusted.
  assert (Hset : ∀ df name z, int_columns df -> nrows df = nrows mg ->
            name ∈ quantity_columns -> Int64.in_range z ->
            ∃ df', at_set_int df idx name z = Ok df' ∧ int_columns df'
                   ∧ nrows df' = nrows mg).
  { intros df name z Hdf Hn Hname Hz. destruct (Hdf name Hname) as (l & Hc & Hl).
    destruct (at_set_int_total df idx name l z Hc Hl) as [df' Hdf']; [lia|done|].
    exists df'. split; [done|]. split; [by eapply at_set_int_int_columns|].
    destruct (at_set_int_spec _ _ _ _ _ Hdf') as (-> & _). done. }
  assert (Hget : ∀ df name, int_columns df -> nrows df = nrows mg ->
            name ∈ quantity_columns -> ∃ v, at_int df idx name = Ok v).
  { intros df name Hdf Hn Hname. apply at_int_total; [done..|lia]. }
  destruct (Hget mg "Stock In") as [v1 ->]; [done|done|unfold quantity_columns; set_solver|].
  cbn. rewrite (np_add_total _ _ Hadd_in). cbn.
  destruct (Hset mg "Stock In" (Int64.add v1 add_in)) as (m1 & -> & H1 & N1);
    [done|done|unfold quantity_columns; set_solver|apply wrap_range|].
  cbn.
  destruct (Hget m1 "Stock Out") as [v2 ->]; [done|done|unfold quantity_columns; set_solver|].
  cbn. rewrite (np_add_total _ _ Hadd_out). cbn.
  destruct (Hset m1 "Stock Out" (Int64.add v2 add_out)) as (m2 & -> & H2 & N2);
    [done|done|unfold quantity_columns; set_solver|apply wrap_range|].
  cbn.
  destruct (Hset m2 "Min Threshold" set_threshold) as (m3 & -> & H3 & N3);
    [done|done|unfold quantity_columns; set_solver|done|].
  cbn.
  destruct (Hget m3 "Opening Stock") as [o ->]; [done|done|unfold quantity_columns; set_solver|].
  cbn.
  destruct (Hget m3 "Stock In") as [i ->]; [done|done|unfold quantity_columns; set_solver|].
  cbn.
  destruct (Hget m3 "Stock Out") as [u ->]; [done|done|unfold quantity_columns; set_solver|].
  cbn.
  destruct (Hget m3 "Total Sold") as [t ->]; [done|done|unfold quantity_columns; set_solver|].
  cbn.
  destruct (Hset m3 "Current Stock"
              (Int64.sub (Int64.sub (Int64.add o i) u) t)) as (m4 & -> & _);
    [done|done|unfold quantity_columns; set_solver|apply wrap_range|].
  eauto.
Qed.

Lemma df_at_run l idx name w df v :
  heap w !! l = Some df -> at_int df idx name = Ok v -> df_at l idx name w = (Ok v, w).
Proof.
  intros Hl H. unfold df_at. rewrite bind_run. unfold get_frame. rewrite Hl.
  unfold lift. by rewrite H.
Qed.

Lemma df_at_set_run l idx name z w df df' :
  heap w !! l = Some df -> at_set_int df idx name z = Ok df' ->
  df_at_set l idx name z w = (Ok tt, with_heap (<[l:=df']> (heap w)) w).
Proof.
  intros Hl H. unfold df_at_set. rewrite bind_run. unfold get_frame. rewrite Hl.
  rewrite run_lift, H. done.
Qed.

Lemma df_get_loc_run l name w df i :
  heap w !! l = Some df -> get_loc df name = Ok i -> df_get_loc l name w = (Ok i, w).
Proof.
  intros Hl H. unfold df_get_loc. rewrite bind_run. unfold get_frame. rewrite Hl.
  unfold lift. by rewrite H.
Qed.

Section AdjustmentRuns.
Context `{RT : Runtime}.

Lemma df_first_row_run l product w df i :
  heap w !! l = Some df -> first_row df product = Ok i ->
  df_first_row l product w = (Ok i, w).
Proof.
  intros Hl H. unfold df_first_row. rewrite bind_run. unfold get_frame. rewrite Hl.
  unfold first_row in H. apply rbind_inv in H as (p & Hp & H).
  rewrite run_lift, Hp. unfold lift. by rewrite H.
Qed.

(** the adjustment goes through when its pure parts do *)
Lemma apply_adjustment_run merged stock_df product add_in add_out set_threshold w mg kf
    idx mg' pos c1 c2 c3 :
  heap w !! merged = Some mg -> heap w !! stock_df = Some kf -> merged ≠ stock_df ->
  first_row mg product = Ok idx ->
  adjusted mg idx add_in add_out set_threshold = Ok mg' ->
  first_row kf product = Ok pos ->
  get_loc kf "Stock In" = Ok c1 ->
  get_loc kf "Stock Out" = Ok c2 ->
  get_loc kf "Min Threshold" = Ok c3 ->
  ∃ w', apply_adjustment merged stock_df product add_in add_out set_threshold w = (Ok tt, w').
Proof.
  intros Hmg Hkf Hne Hidx Hadj Hpos Hc1 Hc2 Hc3.
  destruct (adjusted_spec _ _ _ _ _ _ Hadj)
    as (_ & _ & _ & s_in & s_out & o & t & _ & _ & _ & _ & Hin' & Hout' & Hthr' & _).
  unfold adjusted in Hadj.
  apply rbind_inv in Hadj as (v1 & Hv1 & H).
  apply rbind_inv in H as (z1 & Hz1 & H).
  apply rbind_inv in H as (m1 & Hm1 & H).
  apply rbind_inv in H as (v2 & Hv2 & H).
  apply rbind_inv in H as (z2 & Hz2 & H).
  apply rbind_inv in H as (m2 & Hm2 & H).
  apply rbind_inv in H as (m3 & Hm3 & H).
  apply rbind_inv in H as (vo & Hvo & H).
  apply rbind_inv in H as (vi & Hvi & H).
  apply rbind_inv in H as (vu & Hvu & H).
  apply rbind_inv in H as (vt & Hvt & Hm4).
  unfold apply_adjustment, write_min_threshold.
  rewrite bind_run, (df_first_row_run _ _ _ _ _ Hmg Hidx).
  rewrite bind_run, (df_at_run _ _ _ _ _ _ Hmg Hv1).
  rewrite run_lift, Hz1.
  rewrite bind_run, (df_at_set_run _ _ _ _ _ _ _ Hmg Hm1).
  set (w1 := with_heap (<[merged:=m1]> (heap w)) w).
  assert (H1 : heap w1 !! merged = Some m1) by apply lookup_insert_eq.
  rewrite bind_run, (df_at_run _ _ _ _ _ _ H1 Hv2).
  rewrite run_lift, Hz2.
  rewrite bind_run, (df_at_set_run _ _ _ _ _ _ _ H1 Hm2).
  set (w2 := with_heap (<[merged:=m2]> (heap w1)) w1).
  assert (H2 : heap w2 !! merged = Some m2) by apply lookup_insert_eq.
  rewrite bind_run, (df_at_set_run _ _ _ _ _ _ _ H2 Hm3).
  set (w3 := with_heap (<[merged:=m3]> (heap w2)) w2).
  assert (H3 : heap w3 !! merged = Some m3) by apply lookup_insert_eq.
  rewrite bind_run, (df_at_run _ _ _ _ _ _ H3 Hvo).
  rewrite bind_run, (df_at_run _ _ _ _ _ _ H3 Hvi).
  rewrite bind_run, (df_at_run _ _ _ _ _ _ H3 Hvu).
  rewrite bind_run, (df_at_run _ _ _ _ _ _ H3 Hvt).
  rewrite bind_run, (df_at_set_run _ _ _ _ _ _ _ H3 Hm4).
  set (w4 := with_heap (<[merged:=mg']> (heap w3)) w3).
  assert (H4 : heap w4 !! merged = Some mg') by apply lookup_insert_eq.
  assert (K4 : heap w4 !! stock_df = Some kf).
  { unfold w4, w3, w2, w1. cbn [heap with_heap]. by rewrite !lookup_insert_ne. }
  rewrite bind_run, (df_first_row_run _ _ _ _ _ K4 Hpos).
  rewrite bind_run, (df_get_loc_run _ _ _ _ _ K4 Hc1).
  rewrite bind_run, (df_at_run _ _ _ _ _ _ H4 Hin').
  rewrite bind_run. unfold update_cell at 1.
  set (w5 := with_cells _ w4).
  assert (H5 : heap w5 !! merged = Some mg') by exact H4.
  assert (K5 : heap w5 !! stock_df = Some kf) by exact K4.
  rewrite bind_run, (df_get_loc_run _ _ _ _ _ K5 Hc2).
  rewrite bind_run, (df_at_run _ _ _ _ _ _ H5 Hout').
  rewrite bind_run. unfold update_cell at 1.
  set (w6 := with_cells _ w5).
  assert (H6 : heap w6 !! merged = Some mg') by exact H4.
  assert (K6 : heap w6 !! stock_df = Some kf) by exact K4.
  rewrite bind_run, (df_get_loc_run _ _ _ _ _ K6 Hc3).
  rewrite bind_run, (df_at_run _ _ _ _ _ _ H6 Hthr').
  unfold update_cell. eauto.
Qed.

End AdjustmentRuns.

Lemma getitem_get_loc df name c :
  getitem df name = Ok c -> ∃ i, get_loc df name = Ok i.
Proof.
  unfold getitem, get_loc. destruct df as [n cols]. cbn.
  induction cols as [|[k v] cols IH]; cbn; [discriminate|].
  destruct (String.eqb name k); [eauto|].
  intros H. destruct (IH H) as [i Hi].
  destruct (index_of name cols.*1); [|discriminate]. cbn. eauto.
Qed.

Section ReconciledInts.
Context `{RT : Runtime}.

(** the quantity columns of the reconciled frame are [int64] columns of its
    height *)
Lemma pipeline_int_columns sales stock sf kf af mf :
  pipeline sales stock = Ok (sf, kf, af, mf) ->
  well_formed stock = true -> plain_keys sales = true -> plain_keys stock = true ->
  int_columns mf.
Proof.
  intros H Hwf Hps Hpk. apply pipeline_inv in H as (Hs & Hk & Ha & Hm).
  destruct (sales_summary_columns _ _ Ha)
    as (kc & q & t & p & c1 & c2 & c3 & Hkc & _ & _ & _ & _ & _ & _ & ->).
  destruct (reconciled_columns _ _ _ _ _ _ _ (prepared_stock_int _ _ Hk) Hm)
    as (lk & Hlk & Hn & Hleft & _ & _ & o & i & u & ts & _ & Ho & Hi & Hu & Ht & Hc
        & Lo & Li & Lu & Lt).
  cbv zeta in *.
  set (ks := cells kc) in *.
  set (rk := cells (take_col kc (first_rows ks))) in *.
  set (pairs := merge_pairs (cells lk) rk) in *.
  destruct (prepared_stock_columns _ _ Hk) as (Hnk & Hout & Hin).
  rewrite Hout in Hlk by (unfold stock_columns; set_solver).
  rewrite (prepared_sales_other _ _ _ Hs) in Hkc by set_solver.
  pose proof (plain_keys_getitem _ _ Hps Hkc) as Pks.
  pose proof (plain_keys_getitem _ _ Hpk Hlk) as Plk.
  assert (Prk : Forall (fun y => plain_key y = true) rk).
  { unfold rk. rewrite cells_take_col. by apply Forall_select. }
  assert (Urk : unique_keys rk).
  { unfold rk. rewrite cells_take_col. intros j1 j2 y1 y2.
    by apply first_rows_distinct. }
  pose proof (merge_pairs_unique_fst _ _ Plk Prk Urk) as Hfst. fold pairs in Hfst.
  pose proof (well_formed_getitem _ _ _ Hwf Hlk) as Hlen. unfold col_length in Hlen.
  assert (Hrows : nrows mf = nrows stock).
  { rewrite Hn, <- (length_fmap fst), Hfst, length_seq. done. }
  intros name Hname. unfold quantity_columns in Hname.
  rewrite !elem_of_cons in Hname.
  destruct Hname as [->|[->|[->|[->|[->|[->|Hname]]]]]].
  - eauto.
  - eauto.
  - eauto.
  - destruct (Hin "Min Threshold") as (l & Hl & Ll); [unfold stock_columns; set_solver|].
    exists l. split; [|lia].
    rewrite (Hleft "Min Threshold" (ColInt l) Hl); [|set_solver|reflexivity].
    rewrite Hfst, Hlen, <- Ll. f_equal.
    replace (length l) with (col_length (ColInt l))
      by (unfold col_length; cbn [cells]; apply length_fmap).
    apply take_col_seq.
  - eauto.
  - eexists. split; [exact Hc|]. rewrite !length_zip_with. lia.
  - by apply elem_of_nil in Hname.
Qed.

End ReconciledInts.

Lemma mask_rows_elem_of mask i : i ∈ mask_rows mask ↔ mask !! i = Some true.
Proof.
  split; [apply elem_of_mask_rows|].
  intros H. unfold mask_rows. apply list_elem_of_fmap. exists (i, true). split; [done|].
  apply list_elem_of_filter. split; [done|].
  apply list_elem_of_lookup. exists i. by rewrite list_lookup_imap, H.
Qed.

Section ClosedRange.
Context `{RT : Runtime}.

Lemma prepared_sales_date_length sales sf d :
  prepared_sales sales = Ok sf -> getitem sales "Date" = Ok d ->
  length (to_datetime d) = nrows sf.
Proof.
  intros H Hd. destruct (prepared_sales_columns _ _ H) as (Hn & _). rewrite Hn.
  unfold prepared_sales in H. apply rbind_inv in H as (s1 & E1 & _).
  unfold parsed_dates in E1.
  assert (Hc : contains sales "Date" = true) by (apply contains_getitem; eauto).
  rewrite Hc, Hd in E1. cbn in E1.
  apply setitem_nrows in E1 as [_ E1]. unfold col_length in E1. cbn [cells] in E1.
  by rewrite length_fmap in E1.
Qed.

(** with no product filter, the rows selected are those whose date is an
    instant of the closed range *)
Lemma filter_sales_closed_range sales times start_date end_date sel j :
  getitem sales "Date" = Ok (ColTime times) -> length times = nrows sales ->
  filter_sales sales start_date end_date (PStr "All") = Ok sel ->
  j ∈ labels sel ↔ ∃ t, times !! j = Some (Some t) ∧ start_date <= t <= end_date.
Proof.
  intros Hd Hlen H. unfold filter_sales in H. rewrite Hd in H. cbn in H.
  injection H as <-. cbn [labels select_rows all_rows].
  rewrite select_seq_valid.
  2:{ eapply Forall_impl; [apply mask_rows_lt|]. intros i Hi. cbn in Hi.
      rewrite length_zip_with, !length_fmap in Hi. lia. }
  rewrite mask_rows_elem_of, lookup_zip_with, !list_lookup_fmap.
  destruct (times !! j) as [[t|]|]; cbn.
  - split.
    + intros [= Hb]. apply andb_true_iff in Hb as [H1 H2].
      exists t. split; [done|]. apply Z.geb_le in H1. apply Z.leb_le in H2. lia.
    + intros (t' & [= <-] & H1 & H2). f_equal. apply andb_true_iff.
      split; [apply Z.geb_le; lia|apply Z.leb_le; lia].
  - split; [discriminate|]. by intros (t' & [=] & _).
  - split; [discriminate|]. by intros (t' & [=] & _).
Qed.

End ClosedRange.

(** ** Total and Profit, cell by cell *)

Lemma wrap_mul_l x y : Int64.wrap (Int64.wrap x * y) = Int64.wrap (x * y).
Proof.
  unfold Int64.wrap. f_equal.
  rewrite <- (Zplus_mod_idemp_l (_ * y)), <- (Zplus_mod_idemp_l (x * y)). f_equal. f_equal.
  rewrite <- (Zmult_mod_idemp_l x). rewrite <- (Zmult_mod_idemp_l (_ - _)). f_equal. f_equal.
  rewrite Zminus_mod_idemp_l. f_equal. lia.
Qed.

Lemma scalar_mul_spec x y r :
  scalar_op op_mul x y = Ok r ->
  (∀ a b, x = SInt a -> y = SInt b -> r = SInt (Int64.wrap (a * b)))
  ∧ (∀ f g, as_float x = Some f -> as_float y = Some g ->
       is_float x || is_float y = true -> r = SFloat (F64.mul f g))
  ∧ (∀ a b, as_int x = Some a -> as_int y = Some b ->
       is_object x || is_object y = true -> r = SObj (PInt (a * b))).
Proof.
  intros H. repeat split.
  - intros a b -> ->. cbn in H. by injection H as <-.
  - intros f g Hf Hg Hfl.
    destruct x as [a|f'| |], y as [b|g'| |]; try discriminate;
      cbn in Hf, Hg, H; injection Hf as <-; injection Hg as <-; by injection H as <-.
  - intros a b Ha Hb Hob.
    destruct x as [a'| |[a'| |]|], y as [b'| |[b'| |]|]; try discriminate;
      cbn in Ha, Hb, H; injection Ha as <-; injection Hb as <-; by injection H as <-.
Qed.

Lemma scalar_sub_spec x y r :
  scalar_op op_sub x y = Ok r ->
  (∀ a b, x = SInt a -> y = SInt b -> r = SInt (Int64.wrap (a - b)))
  ∧ (∀ f g, as_float x = Some f -> as_float y = Some g ->
       is_float x || is_float y = true -> r = SFloat (F64.sub f g))
  ∧ (∀ a b, as_int x = Some a -> as_int y = Some b ->
       is_object x || is_object y = true -> r = SObj (PInt (a - b))).
Proof.
  intros H. repeat split.
  - intros a b -> ->. cbn in H. by injection H as <-.
  - intros f g Hf Hg Hfl.
    destruct x as [a|f'| |], y as [b|g'| |]; try discriminate;
      cbn in Hf, Hg, H; injection Hf as <-; injection Hg as <-; by injection H as <-.
  - intros a b Ha Hb Hob.
    destruct x as [a'| |[a'| |]|], y as [b'| |[b'| |]|]; try discriminate;
      cbn in Ha, Hb, H; injection Ha as <-; injection Hb as <-; by injection H as <-.
Qed.

(** Total and Profit of a row, from the three cells they are computed of *)
Lemma total_and_profit_spec quantity price cost total margin profit :
  scalar_op op_mul quantity price = Ok total ->
  scalar_op op_sub price cost = Ok margin ->
  scalar_op op_mul margin quantity = Ok profit ->
  (∀ q p c, quantity = SInt q -> price = SInt p -> cost = SInt c ->
     total = SInt (Int64.wrap (q * p))
     ∧ profit = SInt (Int64.wrap ((p - c) * q))
     ∧ (Int64.in_range (q * p) -> total = SInt (q * p))
     ∧ (Int64.in_range ((p - c) * q) -> profit = SInt ((p - c) * q)))
  ∧ (∀ q p c, as_float quantity = Some q -> as_float price = Some p ->
       as_float cost = Some c ->
       (is_float quantity || is_float price = true -> total = SFloat (F64.mul q p))
       ∧ (is_float price || is_float cost = true ->
          profit = SFloat (F64.mul (F64.sub p c) q)))
  ∧ (∀ q p c, as_int quantity = Some q -> as_int price = Some p ->
       as_int cost = Some c ->
       (is_object quantity || is_object price = true -> total = SObj (PInt (q * p)))
       ∧ (is_object price || is_object cost = true ->
          profit = SObj (PInt ((p - c) * q)))).
Proof.
  intros Ht Hm Hp.
  destruct (scalar_mul_spec _ _ _ Ht) as (Ti & Tf & To).
  destruct (scalar_sub_spec _ _ _ Hm) as (Mi & Mf & Mo).
  destruct (scalar_mul_spec _ _ _ Hp) as (Pi & Pf & Po).
  split; [|split].
  - intros q p c Hq Hpr Hc.
    pose proof (Ti q p Hq Hpr) as Et. pose proof (Mi p c Hpr Hc) as Em.
    pose proof (Pi _ q Em Hq) as Ep. rewrite wrap_mul_l in Ep.
    split; [done|]. split; [done|]. split.
    + intros Hr. by rewrite Et, wrap_in_range.
    + intros Hr. by rewrite Ep, wrap_in_range.
  - intros q p c Hq Hpr Hc. split.
    + intros Hfl. by apply Tf.
    + intros Hfl. pose proof (Mf p c Hpr Hc Hfl) as Em. apply Pf; [by rewrite Em|done|].
      by rewrite Em.
  - intros q p c Hq Hpr Hc. split.
    + intros Hob. by apply To.
    + intros Hob. pose proof (Mo p c Hpr Hc Hob) as Em. apply Po; [by rewrite Em|done|].
      by rewrite Em.
Qed.

Lemma total_and_profit_mixed quantity price cost margin profit :
  scalar_op op_sub price cost = Ok margin ->
  scalar_op op_mul margin quantity = Ok profit ->
  ∀ p c, price = SInt p -> cost = SInt c ->
    (∀ q, quantity = SFloat q ->
       profit = SFloat (F64.mul (F64.of_Z (Int64.wrap (p - c))) q))
    ∧ (∀ q, quantity = SObj (PInt q) -> profit = SObj (PInt (Int64.wrap (p - c) * q))).
Proof.
  intros Hm Hp p c -> ->. cbn in Hm. injection Hm as <-.
  split; intros q ->; cbn in Hp; by injection Hp as <-.
Qed.

(** * The claims *)

Section Claims.
Context `{RT : Runtime}.

(** the heap after a run, whatever its outcome, still holds every frame it
    held before *)
Lemma sanitize_and_prepare_frame ls lk w S0 K0 :
  heap w !! ls = Some S0 -> heap w !! lk = Some K0 ->
  heap w ⊆ heap (sanitize_and_prepare ls lk w).2.
Proof.
  intros Hls Hlk.
  destruct (sanitize_and_prepare_run ls lk w S0 K0 Hls Hlk)
    as (s & k & a & m & Hnd & Hfresh & H).
  rewrite !Forall_cons in Hfresh. destruct Hfresh as (Hs & Hk & Ha & Hm & _).
  destruct (pipeline S0 K0) as [[[[sf kf] af] mf]|e].
  - rewrite H. cbn [snd heap with_heap].
    repeat (apply insert_subseteq_r; [done|]). reflexivity.
  - destruct H as (h' & -> & Hsub). exact Hsub.
Qed.

(** C9: [sanitize_and_prepare] does not change the frames it is given.
    After the call, whether it returned or raised, the two argument frames
    and every other frame of the caller are in the heap as they were; the
    frames it returns are new objects. *)
Theorem sanitize_leaves_inputs_unchanged ls lk w sales_raw stock_raw :
  heap w !! ls = Some sales_raw -> heap w !! lk = Some stock_raw ->
  heap (sanitize_and_prepare ls lk w).2 !! ls = Some sales_raw
  ∧ heap (sanitize_and_prepare ls lk w).2 !! lk = Some stock_raw
  ∧ (∀ l df, heap w !! l = Some df -> heap (sanitize_and_prepare ls lk w).2 !! l = Some df)
  ∧ (∀ s k m, (sanitize_and_prepare ls lk w).1 = Ok (s, k, m) ->
       heap w !! s = None ∧ heap w !! k = None ∧ heap w !! m = None).
Proof.
  intros Hls Hlk.
  pose proof (sanitize_and_prepare_frame ls lk w _ _ Hls Hlk) as Hsub.
  rewrite map_subseteq_spec in Hsub.
  repeat split; eauto.
  all: destruct (sanitize_and_prepare ls lk w) as [r w'] eqn:Hrun; cbn in H; subst r.
  all: destruct (sanitize_and_prepare_ok _ _ _ _ _ _ _ _ _ Hls Hlk Hrun)
         as (sf & kf & af & mf & a & _ & _ & Hfresh & _).
  all: rewrite !Forall_cons in Hfresh; tauto.
Qed.

(** C8: reconciliation is deterministic and can be repeated.  Running
    [sanitize_and_prepare] a second time on the same, unchanged arguments
    gives frames equal to those of the first run (or raises the same
    exception). *)
Theorem reconciliation_is_repeatable ls lk w sales_raw stock_raw r1 w1 r2 w2 :
  heap w !! ls = Some sales_raw -> heap w !! lk = Some stock_raw ->
  sanitize_and_prepare ls lk w = (r1, w1) ->
  sanitize_and_prepare ls lk w1 = (r2, w2) ->
  match r1, r2 with
  | Ok (s1, k1, m1), Ok (s2, k2, m2) =>
      (∃ merged, heap w1 !! m1 = Some merged ∧ heap w2 !! m2 = Some merged)
      ∧ (∃ sales, heap w1 !! s1 = Some sales ∧ heap w2 !! s2 = Some sales)
      ∧ (∃ stock, heap w1 !! k1 = Some stock ∧ heap w2 !! k2 = Some stock)
  | Raise e1, Raise e2 => e1 = e2
  | _, _ => False
  end.
Proof.
  intros Hls Hlk H1 H2.
  pose proof (sanitize_and_prepare_frame ls lk w _ _ Hls Hlk) as Hsub.
  rewrite H1 in Hsub. cbn in Hsub. rewrite map_subseteq_spec in Hsub.
  pose proof (Hsub _ _ Hls) as Hls1. pose proof (Hsub _ _ Hlk) as Hlk1.
  destruct (sanitize_and_prepare_run ls lk w _ _ Hls Hlk) as (s & k & a & m & _ & _ & R1).
  destruct (sanitize_and_prepare_run ls lk w1 _ _ Hls1 Hlk1) as (s' & k' & a' & m' & _ & _ & R2).
  destruct (pipeline sales_raw stock_raw) as [[[[sf kf] af] mf]|e].
  - rewrite H1 in R1. injection R1 as -> ->.
    rewrite H2 in R2. injection R2 as -> ->.
    destruct (sanitize_and_prepare_heap _ _ _ _ _ _ _ _ _ Hls Hlk H1)
      as (? & ? & ? & ? & Hp & Hs & Hk & Hm & _).
    destruct (sanitize_and_prepare_heap _ _ _ _ _ _ _ _ _ Hls1 Hlk1 H2)
      as (? & ? & ? & ? & Hp' & Hs' & Hk' & Hm' & _).
    rewrite Hp in Hp'. injection Hp' as <- <- <- <-.
    eauto 10.
  - destruct R1 as (h1 & R1 & _). rewrite H1 in R1. injection R1 as -> _.
    destruct R2 as (h2 & R2 & _). rewrite H2 in R2. injection R2 as -> _.
    done.
Qed.

(** C3: in every row of the sanitized Sales frame, Total is Quantity Sold
    times Unit Price and Profit is (Unit Price - Cost Price) times Quantity
    Sold, whatever the values are (zero and negative prices included).  For
    three [int64] cells Total is the integer q * p and Profit the integer
    (p - c) * q, reduced modulo 2^64 into the [int64] range: the integers
    themselves whenever they fit.  When a [float64] cell takes part they are
    the binary64 product and difference of the cells, an [int64] cell being
    converted first; [object] cells that hold Python integers give the
    exact integers.  In general they are what the operators of the cells
    ([scalar_op]) compute. *)
Theorem sales_total_and_profit ls lk w sales_raw stock_raw s k m w' :
  heap w !! ls = Some sales_raw -> heap w !! lk = Some stock_raw ->
  sanitize_and_prepare ls lk w = (Ok (s, k, m), w') ->
  ∃ sales, heap w' !! s = Some sales ∧
    ∀ i, (i < nrows sales)%nat ->
      ∃ quantity price cost total margin profit,
        at_cell sales i "Quantity Sold" = Ok quantity ∧
        at_cell sales i "Unit Price" = Ok price ∧
        at_cell sales i "Cost Price" = Ok cost ∧
        at_cell sales i "Total" = Ok total ∧
        at_cell sales i "Profit" = Ok profit ∧
        scalar_op op_mul quantity price = Ok total ∧
        scalar_op op_sub price cost = Ok margin ∧
        scalar_op op_mul margin quantity = Ok profit ∧
        (∀ q p c, quantity = SInt q -> price = SInt p -> cost = SInt c ->
           total = SInt (Int64.wrap (q * p))
           ∧ profit = SInt (Int64.wrap ((p - c) * q))
           ∧ (Int64.in_range (q * p) -> total = SInt (q * p))
           ∧ (Int64.in_range ((p - c) * q) -> profit = SInt ((p - c) * q))) ∧
        (∀ q p c, as_float quantity = Some q -> as_float price = Some p ->
           as_float cost = Some c ->
           (is_float quantity || is_float price = true -> total = SFloat (F64.mul q p))
           ∧ (is_float price || is_float cost = true ->
              profit = SFloat (F64.mul (F64.sub p c) q))) ∧
        (∀ q p c, as_int quantity = Some q -> as_int price = Some p ->
           as_int cost = Some c ->
           (is_object quantity || is_object price = true -> total = SObj (PInt (q * p)))
           ∧ (is_object price || is_object cost = true ->
              profit = SObj (PInt ((p - c) * q)))) ∧
        (∀ p c, price = SInt p -> cost = SInt c ->
           (∀ q, quantity = SFloat q ->
              profit = SFloat (F64.mul (F64.of_Z (Int64.wrap (p - c))) q))
           ∧ (∀ q, quantity = SObj (PInt q) ->
                profit = SObj (PInt (Int64.wrap (p - c) * q)))).
Proof.
  intros Hls Hlk Hrun.
  destruct (sanitize_and_prepare_heap _ _ _ _ _ _ _ _ _ Hls Hlk Hrun)
    as (sf & kf & af & mf & Hp & Hs & _).
  exists sf. split; [done|]. intros i Hi.
  unfold pipeline in Hp. apply rbind_inv in Hp as (sf' & Hsf & Hp).
  assert (sf' = sf) as ->.
  { rinv Hp. by injection Hp as -> _ _ _. }
  destruct (prepared_sales_columns _ _ Hsf)
    as (_ & quantity & price & cost & total & margin & profit
        & Hq & Hu & Hc & Ht & Hpr & Emul & Esub & Emul' & Hlen).
  pose proof (col_arith_length _ _ _ _ Emul) as L1.
  pose proof (col_arith_length _ _ _ _ Esub) as L2.
  unfold col_length in *.
  destruct (lookup_lt_is_Some_2 (cells quantity) i) as [q Hqi]; [lia|].
  destruct (lookup_lt_is_Some_2 (cells price) i) as [u Hui]; [lia|].
  destruct (lookup_lt_is_Some_2 (cells cost) i) as [c Hci]; [lia|].
  destruct (col_arith_lookup op_mul _ _ _ _ _ _ py_mul_nan Emul Hqi Hui) as (t & Ht1 & Ht2).
  destruct (col_arith_lookup op_sub _ _ _ _ _ _ py_sub_nan Esub Hui Hci) as (d & Hd1 & Hd2).
  destruct (col_arith_lookup op_mul _ _ _ _ _ _ py_mul_nan Emul' Hd2 Hqi) as (p & Hp1 & Hp2).
  destruct (total_and_profit_spec _ _ _ _ _ _ Ht1 Hd1 Hp1) as (Sint & Sfloat & Sobj).
  pose proof (total_and_profit_mixed _ _ _ _ _ Hd1 Hp1) as Smixed.
  exists q, u, c, t, d, p.
  split; [by eapply at_cell_lookup|]. split; [by eapply at_cell_lookup|].
  split; [by eapply at_cell_lookup|]. split; [by eapply at_cell_lookup|].
  split; [by eapply at_cell_lookup|]. done.
Qed.

(** the sanitized stock has the products of the raw stock, row by row *)
Lemma first_row_prepared_stock stock kf product :
  prepared_stock stock = Ok kf -> first_row kf product = first_row stock product.
Proof.
  intros H. destruct (prepared_stock_columns _ _ H) as (Hn & Hout & _).
  unfold first_row, all_rows. rewrite Hout by (unfold stock_columns; set_solver).
  by rewrite Hn.
Qed.

(** C1: in every row of the reconciled frame, Current Stock is Opening
    Stock + Stock In - Stock Out - Total Sold (in the [int64] arithmetic of
    the columns: the integer itself whenever it fits), right after
    [sanitize_and_prepare], and again after an adjustment (Add-In,
    Remove-Out, new threshold) of any product is applied to a frame in
    which it holds. *)
Theorem current_stock_formula :
  (∀ ls lk w sales_raw stock_raw s k m w',
     heap w !! ls = Some sales_raw -> heap w !! lk = Some stock_raw ->
     sanitize_and_prepare ls lk w = (Ok (s, k, m), w') ->
     ∃ merged, heap w' !! m = Some merged ∧ current_stock_holds merged)
  ∧ (∀ merged stock_df product add_in add_out set_threshold w w' mg kf,
       heap w !! merged = Some mg -> heap w !! stock_df = Some kf ->
       merged ≠ stock_df -> current_stock_holds mg ->
       apply_adjustment merged stock_df product add_in add_out set_threshold w
       = (Ok tt, w') ->
       ∃ mg', heap w' !! merged = Some mg' ∧ current_stock_holds mg').
Proof.
  split.
  - intros ls lk w sales_raw stock_raw s k m w' Hls Hlk Hrun.
    destruct (sanitize_and_prepare_heap _ _ _ _ _ _ _ _ _ Hls Hlk Hrun)
      as (sf & kf & af & mf & Hp & _ & _ & Hm & _).
    exists mf. split; [done|]. by eapply pipeline_current_stock.
  - intros merged stock_df product add_in add_out set_threshold w w' mg kf
      Hmg Hkf Hne Hinv Hrun.
    destruct (apply_adjustment_ok _ _ _ _ _ _ _ _ _ _ Hmg Hkf Hne Hrun)
      as (idx & mg' & pos & c1 & c2 & c3 & v1 & v2 & v3 & _ & Hadj & _ & _ & _ & _
          & _ & _ & _ & ->).
    exists mg'. split; [apply lookup_insert_eq|].
    by eapply adjusted_current_stock.
Qed.

(** an adjustment of a product of the Stock sheet, by amounts and with a
    threshold that fit [int64], goes through *)
Lemma apply_adjustment_returns
    ls lk w sales_raw stock_raw s k m w1 product pos add_in add_out set_threshold :
  heap w !! ls = Some sales_raw -> heap w !! lk = Some stock_raw ->
  well_formed stock_raw = true ->
  plain_keys sales_raw = true -> plain_keys stock_raw = true ->
  sanitize_and_prepare ls lk w = (Ok (s, k, m), w1) ->
  first_row stock_raw product = Ok pos ->
  Int64.in_range add_in -> Int64.in_range add_out -> Int64.in_range set_threshold ->
  ∃ w2, apply_adjustment m k product add_in add_out set_threshold w1 = (Ok tt, w2).
Proof.
  intros Hls Hlk Hwf Hps Hpk Hrun Hpos Hadd_in Hadd_out Hthr.
  destruct (sanitize_and_prepare_heap _ _ _ _ _ _ _ _ _ Hls Hlk Hrun)
    as (sf & kf & af & mf & Hp & _ & Hk & Hm & _ & _ & Hkm & _).
  destruct (pipeline_left_join _ _ _ _ _ _ Hp Hwf Hps Hpk)
    as (products & Hprod & Hn & Hmp & _).
  pose proof (pipeline_int_columns _ _ _ _ _ _ Hp Hwf Hps Hpk) as Hint.
  apply pipeline_inv in Hp as (_ & Hkf & _ & _).
  assert (Hidx : first_row mf product = Ok pos).
  { rewrite <- Hpos. apply first_row_ext; [done|]. by rewrite Hmp, Hprod. }
  pose proof (well_formed_getitem _ _ _ Hwf Hprod) as Hlen.
  pose proof (proj1 (first_row_spec _ _ _ _ Hprod Hlen) Hpos) as (x & Hx & _).
  apply lookup_lt_Some in Hx. unfold col_length in Hlen.
  destruct (adjusted_total mf pos add_in add_out set_threshold Hint) as [mg' Hadj];
    [lia|done..|].
  destruct (prepared_stock_int _ _ Hkf "Stock In") as [l1 H1];
    [unfold stock_columns; set_solver|].
  destruct (prepared_stock_int _ _ Hkf "Stock Out") as [l2 H2];
    [unfold stock_columns; set_solver|].
  destruct (prepared_stock_int _ _ Hkf "Min Threshold") as [l3 H3];
    [unfold stock_columns; set_solver|].
  apply getitem_get_loc in H1 as [c1 H1].
  apply getitem_get_loc in H2 as [c2 H2].
  apply getitem_get_loc in H3 as [c3 H3].
  apply (apply_adjustment_run m k product add_in add_out set_threshold w1 mf kf
           pos mg' pos c1 c2 c3); try done.
  by rewrite (first_row_prepared_stock _ _ _ Hkf).
Qed.

(** C5: applying an adjustment for a product updates the first reconciled
    row of that product: Stock In += Add-In, Stock Out += Remove-Out, Min
    Threshold := the new value, Current Stock recomputed by the stock
    formula; and it writes the three new values to the worksheet, in the row
    given by the offset of the product's row in the original Stock frame
    plus 2 (the header row, and rows counted from 1), in the columns of the
    three fields.  This is what every run of the adjustment that returns
    does; and the adjustment does return when the Stock sheet is well formed,
    the product keys are strings or integers, the product is one of the Stock
    sheet and the three numbers entered fit [int64]. *)
Theorem adjustment_updates_row_and_sheet
    ls lk w sales_raw stock_raw s k m w1 product add_in add_out set_threshold :
  heap w !! ls = Some sales_raw -> heap w !! lk = Some stock_raw ->
  sanitize_and_prepare ls lk w = (Ok (s, k, m), w1) ->
  (∀ w2,
     apply_adjustment m k product add_in add_out set_threshold w1 = (Ok tt, w2) ->
     ∃ merged merged' stock idx pos stock_in stock_out opening sold c_in c_out c_thr,
       heap w1 !! m = Some merged ∧ heap w1 !! k = Some stock ∧
       heap w2 !! m = Some merged' ∧
       first_row merged product = Ok idx ∧
       at_int merged idx "Stock In" = Ok stock_in ∧
       at_int merged idx "Stock Out" = Ok stock_out ∧
       at_int merged idx "Opening Stock" = Ok opening ∧
       at_int merged idx "Total Sold" = Ok sold ∧
       at_int merged' idx "Stock In" = Ok (Int64.add stock_in add_in) ∧
       at_int merged' idx "Stock Out" = Ok (Int64.add stock_out add_out) ∧
       at_int merged' idx "Min Threshold" = Ok set_threshold ∧
       at_int merged' idx "Current Stock"
       = Ok (Int64.wrap (opening + Int64.add stock_in add_in
                         - Int64.add stock_out add_out - sold)) ∧
       first_row stock_raw product = Ok pos ∧
       get_loc stock "Stock In" = Ok c_in ∧
       get_loc stock "Stock Out" = Ok c_out ∧
       get_loc stock "Min Threshold" = Ok c_thr ∧
       stock_cells w2
       = <[(pos + 2, c_thr + 1)%nat:=PInt set_threshold]>
           (<[(pos + 2, c_out + 1)%nat:=PInt (Int64.add stock_out add_out)]>
              (<[(pos + 2, c_in + 1)%nat:=PInt (Int64.add stock_in add_in)]>
                 (stock_cells w1))))
  ∧ (∀ pos,
       well_formed stock_raw = true ->
       plain_keys sales_raw = true -> plain_keys stock_raw = true ->
       first_row stock_raw product = Ok pos ->
       Int64.in_range add_in -> Int64.in_range add_out -> Int64.in_range set_threshold ->
       ∃ w2, apply_adjustment m k product add_in add_out set_threshold w1 = (Ok tt, w2)).
Proof.
  intros Hls Hlk Hrun. split.
  2:{ intros pos Hwf Hps Hpk Hpos Hadd_in Hadd_out Hthr.
      exact (apply_adjustment_returns _ _ _ _ _ _ _ _ _ product pos add_in add_out
               set_threshold Hls Hlk Hwf Hps Hpk Hrun Hpos Hadd_in Hadd_out Hthr). }
  intros w2 Hadj.
  destruct (sanitize_and_prepare_heap _ _ _ _ _ _ _ _ _ Hls Hlk Hrun)
    as (sf & kf & af & mf & Hp & _ & Hk & Hm & _ & _ & Hkm & _).
  apply pipeline_inv in Hp as (_ & Hkf & _ & _).
  destruct (apply_adjustment_ok _ _ _ _ _ _ _ _ _ _ Hm Hk (not_eq_sym Hkm) Hadj)
    as (idx & mg' & pos & c1 & c2 & c3 & v1 & v2 & v3 & Hidx & Had & Hpos & Hc1 & Hc2
        & Hc3 & Hv1 & Hv2 & Hv3 & ->).
  destruct (adjusted_spec _ _ _ _ _ _ Had)
    as (_ & _ & _ & vin & vout & o & t & Hin & Hout & Ho & Ht & Hin' & Hout' & Hthr'
        & _ & _ & Hcur').
  rewrite Hin' in Hv1. injection Hv1 as <-.
  rewrite Hout' in Hv2. injection Hv2 as <-.
  rewrite Hthr' in Hv3. injection Hv3 as <-.
  rewrite (first_row_prepared_stock _ _ _ Hkf) in Hpos.
  exists mf, mg', kf, idx, pos, vin, vout, o, t, c1, c2, c3.
  cbn [heap stock_cells with_heap with_cells].
  rewrite lookup_insert_eq, <- int64_stock_formula.
  repeat split; done.
Qed.

(** C2: the reconciled frame is the left join of the Stock frame with the
    aggregated sales.  For well-formed frames whose product keys are strings
    or integers it has exactly the rows of the Stock frame, in order (so a
    product that is sold but not stocked is in no row); a stock row whose
    product equals no product of the sales has Total Sold 0, Sales Value 0.0
    and Total Profit 0.0, never a missing value. *)
Theorem reconcile_is_left_join ls lk w sales_raw stock_raw s k m w' :
  heap w !! ls = Some sales_raw -> heap w !! lk = Some stock_raw ->
  well_formed stock_raw = true ->
  plain_keys sales_raw = true -> plain_keys stock_raw = true ->
  sanitize_and_prepare ls lk w = (Ok (s, k, m), w') ->
  ∃ merged products,
    heap w' !! m = Some merged ∧
    getitem stock_raw "Product" = Ok products ∧
    nrows merged = nrows stock_raw ∧
    getitem merged "Product" = Ok products ∧
    ∀ j key,
      cells products !! j = Some key ->
      (∀ sales_products i x,
         getitem sales_raw "Product" = Ok sales_products ->
         cells sales_products !! i = Some x -> scalar_eqb key x = false) ->
      at_int merged j "Total Sold" = Ok 0 ∧
      (∃ x, at_cell merged j "Sales Value" = Ok x ∧ float_zero x) ∧
      (∃ x, at_cell merged j "Total Profit" = Ok x ∧ float_zero x).
Proof.
  intros Hls Hlk Hwf Hps Hpk Hrun.
  destruct (sanitize_and_prepare_heap _ _ _ _ _ _ _ _ _ Hls Hlk Hrun)
    as (sf & kf & af & mf & Hp & _ & _ & Hm & _).
  destruct (pipeline_left_join _ _ _ _ _ _ Hp Hwf Hps Hpk)
    as (products & Hprod & Hn & Hmp & Hzero).
  exists mf, products. split; [done|]. split; [done|]. split; [done|]. split; [done|].
  exact Hzero.
Qed.

(** C10: with several Stock rows of one product, an adjustment is applied to
    the first of them only.  For the first row [idx] of the product in the
    original Stock frame the adjustment (of numbers that fit [int64], on a
    well-formed sheet with string or integer keys) returns; [idx] is also the
    first row of the product in the reconciled frame.  That row is the one
    that changes: its Stock In and Stock Out are increased by the two
    amounts, its Min Threshold is the value entered and its Current Stock is
    recomputed; and the three values are written to row [idx + 2] of the
    worksheet, in the columns of the three fields.  No cell of another row of
    the reconciled frame changes, and no cell of the worksheet outside row
    [idx + 2] is written: the later rows of the product stay as they are, in
    memory and in the store. *)
Theorem adjustment_first_wins
    ls lk w sales_raw stock_raw s k m w1 product idx add_in add_out set_threshold :
  heap w !! ls = Some sales_raw -> heap w !! lk = Some stock_raw ->
  well_formed stock_raw = true ->
  plain_keys sales_raw = true -> plain_keys stock_raw = true ->
  sanitize_and_prepare ls lk w = (Ok (s, k, m), w1) ->
  first_row stock_raw product = Ok idx ->
  Int64.in_range add_in -> Int64.in_range add_out -> Int64.in_range set_threshold ->
  ∃ w2 merged merged' products stock stock_in stock_out opening sold c_in c_out c_thr,
    apply_adjustment m k product add_in add_out set_threshold w1 = (Ok tt, w2) ∧
    heap w1 !! m = Some merged ∧ heap w2 !! m = Some merged' ∧
    getitem stock_raw "Product" = Ok products ∧
    first_row merged product = Ok idx ∧
    (∃ x, cells products !! idx = Some x ∧ scalar_eqb x product = true) ∧
    (∀ j y, cells products !! j = Some y -> scalar_eqb y product = true -> (idx <= j)%nat) ∧
    (∀ j name, j ≠ idx -> at_cell merged' j name = at_cell merged j name) ∧
    (∀ row col, row ≠ (idx + 2)%nat ->
       stock_cells w2 !! (row, col) = stock_cells w1 !! (row, col)) ∧
    heap w2 !! k = heap w1 !! k ∧
    heap w1 !! k = Some stock ∧
    at_int merged idx "Stock In" = Ok stock_in ∧
    at_int merged idx "Stock Out" = Ok stock_out ∧
    at_int merged idx "Opening Stock" = Ok opening ∧
    at_int merged idx "Total Sold" = Ok sold ∧
    at_int merged' idx "Stock In" = Ok (Int64.add stock_in add_in) ∧
    at_int merged' idx "Stock Out" = Ok (Int64.add stock_out add_out) ∧
    at_int merged' idx "Min Threshold" = Ok set_threshold ∧
    at_int merged' idx "Current Stock"
    = Ok (Int64.wrap (opening + Int64.add stock_in add_in
                      - Int64.add stock_out add_out - sold)) ∧
    get_loc stock "Stock In" = Ok c_in ∧
    get_loc stock "Stock Out" = Ok c_out ∧
    get_loc stock "Min Threshold" = Ok c_thr ∧
    stock_cells w2
    = <[(idx + 2, c_thr + 1)%nat:=PInt set_threshold]>
        (<[(idx + 2, c_out + 1)%nat:=PInt (Int64.add stock_out add_out)]>
           (<[(idx + 2, c_in + 1)%nat:=PInt (Int64.add stock_in add_in)]>
              (stock_cells w1))).
Proof.
  intros Hls Hlk Hwf Hps Hpk Hrun Hfirst Hadd_in Hadd_out Hthr.
  destruct (apply_adjustment_returns _ _ _ _ _ _ _ _ _ product idx add_in add_out
              set_threshold Hls Hlk Hwf Hps Hpk Hrun Hfirst Hadd_in Hadd_out Hthr)
    as [w2 Hadj].
  exists w2.
  destruct (sanitize_and_prepare_heap _ _ _ _ _ _ _ _ _ Hls Hlk Hrun)
    as (sf & kf & af & mf & Hp & _ & Hk & Hm & _ & _ & Hkm & _).
  destruct (pipeline_left_join _ _ _ _ _ _ Hp Hwf Hps Hpk)
    as (products & Hprod & Hn & Hmp & _).
  apply pipeline_inv in Hp as (_ & Hkf & _ & _).
  destruct (apply_adjustment_ok _ _ _ _ _ _ _ _ _ _ Hm Hk (not_eq_sym Hkm) Hadj)
    as (idx' & mg' & pos & c1 & c2 & c3 & v1 & v2 & v3 & Hidx & Had & Hpos & Hc1 & Hc2
        & Hc3 & Hv1 & Hv2 & Hv3 & ->).
  destruct (adjusted_spec _ _ _ _ _ _ Had)
    as (_ & Hother & _ & vin & vout & o & t & Hin & Hout & Ho & Ht & Hin' & Hout' & Hthr'
        & _ & _ & Hcur').
  rewrite Hin' in Hv1. injection Hv1 as <-.
  rewrite Hout' in Hv2. injection Hv2 as <-.
  rewrite Hthr' in Hv3. injection Hv3 as <-.
  rewrite (first_row_prepared_stock _ _ _ Hkf), Hfirst in Hpos. injection Hpos as <-.
  assert (Hsame : first_row mf product = first_row stock_raw product).
  { apply first_row_ext; [done|]. by rewrite Hmp, Hprod. }
  rewrite Hsame, Hfirst in Hidx. injection Hidx as <-.
  pose proof (well_formed_getitem _ _ _ Hwf Hprod) as Hlen.
  pose proof (proj1 (first_row_spec _ _ _ _ Hprod Hlen) Hfirst) as (x & Hx & Hxp & Hleast).
  exists mf, mg', products, kf, vin, vout, o, t, c1, c2, c3.
  cbn [heap stock_cells with_heap with_cells].
  rewrite lookup_insert_eq, <- int64_stock_formula.
  split; [done|]. split; [done|]. split; [done|]. split; [done|].
  split; [by rewrite Hsame|]. split; [by exists x|]. split.
  { intros j y Hy Hyp. destruct (decide (idx <= j)%nat) as [|Hlt]; [done|].
    rewrite (Hleast j y Hy) in Hyp; [done|lia]. }
  split; [done|]. split.
  { intros row col Hrow. rewrite !lookup_insert_ne by congruence. done. }
  split; [by rewrite lookup_insert_ne|].
  repeat split; done.
Qed.

(** C6: a sale whose Date cannot be parsed.  When [to_datetime] yields NaT
    for row [i] of the Sales sheet, the sanitized sales frame still has
    that row (it has as many rows as the sheet) with NaT as its Date; the
    row is one of the rows summed into the row of its product in
    [sales_agg], the per-product aggregate; and no date range selects it,
    whatever the bounds and the product filter: with no product filter, the
    rows selected are those whose Date is an instant between the two bounds,
    bounds included. *)
Theorem unparsable_date_row ls lk w sales_raw stock_raw s k m w' dates i :
  heap w !! ls = Some sales_raw -> heap w !! lk = Some stock_raw ->
  plain_keys sales_raw = true ->
  getitem sales_raw "Date" = Ok dates ->
  to_datetime dates !! i = Some None ->
  sanitize_and_prepare ls lk w = (Ok (s, k, m), w') ->
  ∃ sales,
    heap w' !! s = Some sales
    ∧ nrows sales = nrows sales_raw
    ∧ at_cell sales i "Date" = Ok (STime None)
    ∧ (∀ key, at_cell sales i "Product" = Ok key ->
        ∃ a sales_agg keys g rows key_g,
          heap w' !! a = Some sales_agg
          ∧ getitem sales "Product" = Ok keys
          ∧ groups (cells keys) !! g = Some rows ∧ i ∈ rows
          ∧ at_cell sales_agg g "Product" = Ok key_g ∧ scalar_eqb key_g key = true
          ∧ (∀ name name' c,
               (name, name') ∈ [("Quantity Sold", "Total Sold"); ("Total", "Sales Value");
                                ("Profit", "Total Profit")] ->
               getitem sales name = Ok c ->
               getitem sales_agg name' = group_sums c (groups (cells keys)))
          ∧ (∀ quantity, getitem sales "Quantity Sold" = Ok (ColInt quantity) ->
               at_int sales_agg g "Total Sold" = Ok (Int64.sum (select rows quantity))))
    ∧ (∀ start_date end_date product_sel sel,
         filter_sales sales start_date end_date product_sel = Ok sel -> i ∉ labels sel)
    ∧ (∀ start_date end_date sel j,
         filter_sales sales start_date end_date (PStr "All") = Ok sel ->
         j ∈ labels sel
         ↔ ∃ t, at_cell sales j "Date" = Ok (STime (Some t)) ∧ start_date <= t <= end_date).
Proof.
  intros Hls Hlk Hplain Hd Hi Hrun.
  destruct (sanitize_and_prepare_ok _ _ _ _ _ _ _ _ _ Hls Hlk Hrun)
    as (sf & kf & af & mf & a & Hp & Hnd & Hfresh & ->).
  apply NoDup_cons in Hnd as [Hs Hnd]. apply NoDup_cons in Hnd as [Hk Hnd].
  apply NoDup_cons in Hnd as [Ha Hnd].
  assert (s ≠ k ∧ s ≠ a ∧ s ≠ m ∧ k ≠ a ∧ k ≠ m ∧ a ≠ m) as (? & ? & ? & ? & ? & ?)
    by set_solver.
  apply pipeline_inv in Hp as (Hsf & _ & Haf & _).
  pose proof (prepared_sales_date _ _ _ Hsf Hd) as Hdate.
  destruct (prepared_sales_columns _ _ Hsf) as (Hn & _).
  exists sf. cbn [heap with_heap].
  split; [rewrite !lookup_insert_ne by done; apply lookup_insert_eq|].
  split; [done|].
  split; [apply (at_cell_lookup _ _ _ _ _ Hdate); cbn; by rewrite list_lookup_fmap, Hi|].
  split.
  - intros key Hkey.
    destruct (sales_summary_columns _ _ Haf)
      as (kc & q & t & p & c1 & c2 & c3 & Hkc & Hq & Ht & Hp & Hc1 & Hc2 & Hc3 & ->).
    unfold at_cell in Hkey. rewrite Hkc in Hkey. cbn in Hkey.
    destruct (cells kc !! i) as [x|] eqn:Ex; [|discriminate]. injection Hkey as ->.
    assert (Hpk : Forall (fun k => plain_key k = true) (cells kc)).
    { apply (plain_keys_getitem sales_raw); [done|].
      rewrite <- Hkc. symmetry. apply prepared_sales_other; [done|set_solver]. }
    destruct (group_of_row _ _ _ Hpk Ex) as (g & r & key_g & rows & Hg & Hr & Heq & Hrows & Hin).
    eexists a, _, kc, g, rows, key_g.
    split; [rewrite lookup_insert_ne by done; apply lookup_insert_eq|].
    split; [done|]. split; [done|]. split; [done|]. split.
    { unfold at_cell, getitem. cbn. rewrite cells_take_col.
      rewrite select_lookup_valid by apply first_rows_valid. rewrite Hg. cbn.
      by rewrite Hr. }
    split; [done|]. split.
    + intros name name' c Hname Hc.
      rewrite !elem_of_cons in Hname.
      destruct Hname as [[= -> ->]|[[= -> ->]|[[= -> ->]|Hname]]];
        [| | |by apply elem_of_nil in Hname].
      * rewrite Hq in Hc. injection Hc as <-. by rewrite Hc1.
      * rewrite Ht in Hc. injection Hc as <-. by rewrite Hc2.
      * rewrite Hp in Hc. injection Hc as <-. by rewrite Hc3.
    + intros quantity Hquantity. rewrite Hq in Hquantity. injection Hquantity as ->.
      cbn in Hc1. injection Hc1 as <-.
      apply (at_int_ColInt _ _ ((fun g => Int64.sum (select g quantity)) <$> groups (cells kc)));
        [done|].
      by rewrite list_lookup_fmap, Hrows.
  - split.
    + intros start_date end_date product_sel sel Hsel.
      by apply (filter_sales_excludes_nat _ _ _ _ _ _ _ Hdate Hi Hsel).
    + intros start_date end_date sel j Hsel.
      rewrite (filter_sales_closed_range _ _ _ _ _ j Hdate
                 (prepared_sales_date_length _ _ _ Hsf Hd) Hsel).
      unfold at_cell. rewrite Hdate. cbn. rewrite list_lookup_fmap.
      destruct (to_datetime dates !! j) as [x|]; cbn.
      * split; intros (t & Ht & Hr); exists t; (split; [congruence|done]).
      * split; intros (t & Ht & Hr); discriminate Ht.
Qed.

(** C7: when the read of the sheet fails, the run is aborted and nothing of
    the dashboard is rendered.  [main] ends with [st.stop()] whatever the rest
    of the page, [dashboard] (lines 95-176: KPI cards, charts, tables, form),
    would do; no frame is prepared and no cell is written; and the page gets,
    after the title that line 85 renders before the read, one error box, whose
    text is the message of the exception, verbatim, after the words [Could
    not load Google Sheet: ]. *)
Theorem load_failure_aborts dashboard w message :
  source w = inl message ->
  main dashboard w
  = (Raise StopScript,
     with_screen
       (screen w ++ [Title "📊 Sales & Stock Management Dashboard (Google Sheets)";
                     ErrorBox ("Could not load Google Sheet: " ++ message)]) w).
Proof.
  intros Hsrc. unfold main. rewrite bind_run. unfold st_title at 1.
  rewrite bind_run. unfold try_load_data, load_data. cbn [source with_screen].
  rewrite Hsrc. rewrite bind_run. unfold st_error, st_stop, raise.
  unfold with_screen. cbn. by rewrite <- app_assoc.
Qed.

End Claims.

(** * The claims on the scenario of the specification *)

Section Witnesses.
Import Example.
#[local] Existing Instance runtime.

Lemma sanitize_leaves_inputs_unchanged_witness :
  heap scenario !! 0%nat = Some sales_A ∧ heap scenario !! 1%nat = Some stock_A
  ∧ heap scenario_prepared !! 0%nat = Some sales_A
  ∧ heap scenario_prepared !! 1%nat = Some stock_A.
Proof.
  assert (H0 : heap scenario !! 0%nat = Some sales_A) by reflexivity.
  assert (H1 : heap scenario !! 1%nat = Some stock_A) by reflexivity.
  destruct (sanitize_leaves_inputs_unchanged 0%nat 1%nat scenario sales_A stock_A H0 H1)
    as (Hs & Hk & _).
  exact (conj H0 (conj H1 (conj Hs Hk))).
Defined.

Lemma reconciliation_is_repeatable_witness :
  ∃ merged,
    heap scenario_prepared !! 5%nat = Some merged
    ∧ heap (sanitize_and_prepare 0%nat 1%nat scenario_prepared).2 !! 9%nat = Some merged.
Proof.
  pose proof (reconciliation_is_repeatable 0%nat 1%nat scenario sales_A stock_A
                (Ok (2, 3, 5)%nat) scenario_prepared
                (Ok (6, 7, 9)%nat) (sanitize_and_prepare 0%nat 1%nat scenario_prepared).2
                eq_refl eq_refl) as H.
  cbv beta iota in H.
  destruct H as (Hm & _); [vm_compute; reflexivity | vm_compute; reflexivity | exact Hm].
Defined.

Lemma scenario_run :
  sanitize_and_prepare 0%nat 1%nat scenario = (Ok (2, 3, 5)%nat, scenario_prepared).
Proof. vm_compute. reflexivity. Defined.

Lemma scenario_adjustment_run :
  apply_adjustment 5%nat 3%nat (SObj (PStr "A")) 0 15 8 scenario_prepared
  = (Ok tt, scenario_adjusted).
Proof. vm_compute. reflexivity. Defined.

Lemma scenario_B_run :
  sanitize_and_prepare 0%nat 1%nat scenario_B = (Ok (2, 3, 5)%nat, scenario_B_prepared).
Proof. vm_compute. reflexivity. Defined.

Lemma scenario_D_run :
  sanitize_and_prepare 0%nat 1%nat scenario_D = (Ok (2, 3, 5)%nat, scenario_D_prepared).
Proof. vm_compute. reflexivity. Defined.

Lemma sales_total_and_profit_witness :
  ∃ sales,
    heap scenario_prepared !! 2%nat = Some sales
    ∧ at_cell sales 0 "Quantity Sold" = Ok (SInt 3)
    ∧ at_cell sales 0 "Unit Price" = Ok (SInt 10)
    ∧ at_cell sales 0 "Cost Price" = Ok (SInt 6)
    ∧ at_cell sales 0 "Total" = Ok (SInt 30)
    ∧ at_cell sales 0 "Profit" = Ok (SInt 12).
Proof.
  destruct (sales_total_and_profit 0%nat 1%nat scenario sales_A stock_A 2%nat 3%nat 5%nat
              scenario_prepared eq_refl eq_refl scenario_run) as (sales & Hs & Hrows).
  exists sales. split; [exact Hs|].
  vm_compute in Hs. injection Hs as <-.
  destruct (Hrows 0%nat ltac:(cbn; lia))
    as (quantity & price & cost & total & margin & profit & Hq & Hp & Hc & Ht & Hpf
        & _ & _ & _ & Hint & _).
  vm_compute in Hq. injection Hq as <-.
  vm_compute in Hp. injection Hp as <-.
  vm_compute in Hc. injection Hc as <-.
  split; [reflexivity|]. split; [reflexivity|]. split; [reflexivity|].
  destruct (Hint 3 10 6 eq_refl eq_refl eq_refl) as (_ & _ & Htotal & Hprofit).
  rewrite Htotal in Ht
    by (unfold Int64.in_range, Int64.min_int, Int64.max_int; lia).
  rewrite Hprofit in Hpf
    by (unfold Int64.in_range, Int64.min_int, Int64.max_int; lia).
  split; [exact Ht|exact Hpf].
Defined.

Lemma current_stock_formula_witness :
  (∃ merged, heap scenario_prepared !! 5%nat = Some merged ∧ current_stock_holds merged)
  ∧ (∃ merged, heap scenario_adjusted !! 5%nat = Some merged ∧ current_stock_holds merged).
Proof.
  destruct current_stock_formula as [Hprep Hadj].
  destruct (Hprep 0%nat 1%nat scenario sales_A stock_A 2%nat 3%nat 5%nat scenario_prepared
              eq_refl eq_refl scenario_run) as (merged & Hm & Hinv).
  split; [exists merged; exact (conj Hm Hinv)|].
  eassert (Hk : heap scenario_prepared !! 3%nat = Some _) by (vm_compute; reflexivity).
  apply (Hadj 5%nat 3%nat (SObj (PStr "A")) 0 15 8 scenario_prepared scenario_adjusted
           merged _ Hm Hk); [lia|exact Hinv|exact scenario_adjustment_run].
Defined.

Lemma adjustment_updates_row_and_sheet_witness :
  (∃ w2, apply_adjustment 5%nat 3%nat (SObj (PStr "A")) 0 15 8 scenario_prepared = (Ok tt, w2))
  ∧ ∃ merged',
      heap scenario_adjusted !! 5%nat = Some merged'
      ∧ at_int merged' 0 "Stock In" = Ok (Int64.add 5 0)
      ∧ at_int merged' 0 "Stock Out" = Ok (Int64.add 2 15)
      ∧ at_int merged' 0 "Min Threshold" = Ok 8
      ∧ at_int merged' 0 "Current Stock"
        = Ok (Int64.wrap (10 + Int64.add 5 0 - Int64.add 2 15 - 3))
      ∧ stock_cells scenario_adjusted
        = <[(2, 6)%nat:=PInt 8]>
            (<[(2, 5)%nat:=PInt (Int64.add 2 15)]> (<[(2, 4)%nat:=PInt (Int64.add 5 0)]> ∅)).
Proof.
  destruct (adjustment_updates_row_and_sheet 0%nat 1%nat scenario sales_A stock_A
              2%nat 3%nat 5%nat scenario_prepared (SObj (PStr "A")) 0 15 8
              eq_refl eq_refl scenario_run) as [Heffect Hreturns].
  split.
  { apply (Hreturns 0%nat); try reflexivity;
      unfold Int64.in_range, Int64.min_int, Int64.max_int; lia. }
  destruct (Heffect scenario_adjusted scenario_adjustment_run)
    as (merged & merged' & stock & idx & pos & stock_in & stock_out & opening & sold
        & c_in & c_out & c_thr & Hm & Hk & Hm' & Hidx & Hin & Hout & Hopen & Hsold
        & Hin' & Hout' & Hthr' & Hcur' & Hpos & Hcin & Hcout & Hcthr & Hcells).
  vm_compute in Hm. injection Hm as <-.
  vm_compute in Hk. injection Hk as <-.
  vm_compute in Hidx. injection Hidx as <-.
  vm_compute in Hin. injection Hin as <-.
  vm_compute in Hout. injection Hout as <-.
  vm_compute in Hopen. injection Hopen as <-.
  vm_compute in Hsold. injection Hsold as <-.
  vm_compute in Hpos. injection Hpos as <-.
  vm_compute in Hcin. injection Hcin as <-.
  vm_compute in Hcout. injection Hcout as <-.
  vm_compute in Hcthr. injection Hcthr as <-.
  exists merged'. split; [exact Hm'|]. split; [exact Hin'|]. split; [exact Hout'|].
  split; [exact Hthr'|]. split; [exact Hcur'|]. exact Hcells.
Defined.

Lemma reconcile_is_left_join_witness :
  ∃ merged,
    heap scenario_B_prepared !! 5%nat = Some merged
    ∧ nrows merged = 2%nat
    ∧ getitem merged "Product" = Ok (ColObj [PStr "A"; PStr "B"])
    ∧ at_int merged 1 "Total Sold" = Ok 0
    ∧ (∃ x, at_cell merged 1 "Sales Value" = Ok x ∧ float_zero x)
    ∧ (∃ x, at_cell merged 1 "Total Profit" = Ok x ∧ float_zero x).
Proof.
  destruct (reconcile_is_left_join 0%nat 1%nat scenario_B sales_B stock_B
              2%nat 3%nat 5%nat scenario_B_prepared
              eq_refl eq_refl eq_refl eq_refl eq_refl scenario_B_run)
    as (merged & products & Hm & Hp & Hn & Hmp & Hzero).
  injection Hp as <-.
  exists merged. split; [exact Hm|]. split; [exact Hn|]. split; [exact Hmp|].
  apply (Hzero 1%nat (SObj (PStr "B"))); [reflexivity|].
  intros sales_products i x Hsp Hx. injection Hsp as <-.
  destruct i as [|[|[|i]]]; cbn in Hx; try discriminate Hx;
    injection Hx as <-; reflexivity.
Defined.

Lemma adjustment_first_wins_witness :
  ∃ w2 merged merged',
    apply_adjustment 5%nat 3%nat (SObj (PStr "A")) 4 1 9 scenario_D_prepared = (Ok tt, w2)
    ∧ heap scenario_D_prepared !! 5%nat = Some merged
    ∧ heap w2 !! 5%nat = Some merged'
    ∧ first_row stock_D (SObj (PStr "A")) = Ok 0%nat
    ∧ at_int merged 0 "Stock In" = Ok 5
    ∧ at_int merged 0 "Stock Out" = Ok 2
    ∧ at_int merged 0 "Min Threshold" = Ok 8
    ∧ at_int merged 0 "Current Stock" = Ok 10
    ∧ at_int merged' 0 "Stock In" = Ok 9
    ∧ at_int merged' 0 "Stock Out" = Ok 3
    ∧ at_int merged' 0 "Min Threshold" = Ok 9
    ∧ at_int merged' 0 "Current Stock" = Ok 13
    ∧ stock_cells w2
      = <[(2, 6)%nat:=PInt 9]> (<[(2, 5)%nat:=PInt 3]> (<[(2, 4)%nat:=PInt 9]> ∅))
    ∧ at_cell merged 2 "Product" = Ok (SObj (PStr "A"))
    ∧ (∀ name, at_cell merged' 2 name = at_cell merged 2 name)
    ∧ (∀ row col, row ≠ 2%nat ->
         stock_cells w2 !! (row, col) = stock_cells scenario_D_prepared !! (row, col)).
Proof.
  assert (Hrange : ∀ z, 0 <= z <= 9 -> Int64.in_range z)
    by (intros z Hz; unfold Int64.in_range, Int64.min_int, Int64.max_int; lia).
  assert (Hfirst : first_row stock_D (SObj (PStr "A")) = Ok 0%nat)
    by (vm_compute; reflexivity).
  destruct (adjustment_first_wins 0%nat 1%nat scenario_D sales_A stock_D
              2%nat 3%nat 5%nat scenario_D_prepared (SObj (PStr "A")) 0%nat 4 1 9
              eq_refl eq_refl eq_refl eq_refl eq_refl scenario_D_run Hfirst
              (Hrange 4 ltac:(lia)) (Hrange 1 ltac:(lia)) (Hrange 9 ltac:(lia)))
    as (w2 & merged & merged' & products & stock & stock_in & stock_out & opening & sold
        & c_in & c_out & c_thr & Hrun & Hm & Hm' & Hp & Hidx & _ & _
        & Hrows & Hcells & _ & Hk & Hin & Hout & Hopen & Hsold & Hin' & Hout' & Hthr'
        & Hcur' & Hcin & Hcout & Hcthr & Hwritten).
  exists w2, merged, merged'. split; [exact Hrun|]. split; [exact Hm|].
  split; [exact Hm'|]. split; [exact Hfirst|].
  vm_compute in Hm. injection Hm as <-.
  vm_compute in Hk. injection Hk as <-.
  vm_compute in Hin. injection Hin as <-.
  vm_compute in Hout. injection Hout as <-.
  vm_compute in Hopen. injection Hopen as <-.
  vm_compute in Hsold. injection Hsold as <-.
  vm_compute in Hcin. injection Hcin as <-.
  vm_compute in Hcout. injection Hcout as <-.
  vm_compute in Hcthr. injection Hcthr as <-.
  split; [reflexivity|]. split; [reflexivity|]. split; [reflexivity|].
  split; [reflexivity|].
  split; [exact Hin'|]. split; [exact Hout'|]. split; [exact Hthr'|].
  split; [exact Hcur'|]. split; [exact Hwritten|]. split; [reflexivity|]. split.
  - intros name. apply Hrows. lia.
  - intros row col Hrow. apply Hcells. exact Hrow.
Defined.

Lemma scenario_B_date :
  to_datetime (ColObj [PStr "2024-01-15"; PStr "not a date"; PStr "2024-01-16"]) !! 1%nat
  = Some None.
Proof. vm_compute. reflexivity. Defined.

Lemma unparsable_date_row_witness :
  ∃ sales,
    heap scenario_B_prepared !! 2%nat = Some sales
    ∧ nrows sales = 3%nat
    ∧ at_cell sales 1 "Date" = Ok (STime None)
    ∧ (∃ a sales_agg g rows,
         heap scenario_B_prepared !! a = Some sales_agg
         ∧ 1%nat ∈ rows
         ∧ at_cell sales_agg g "Product" = Ok (SObj (PStr "A"))
         ∧ at_int sales_agg g "Total Sold" = Ok (Int64.sum (select rows [3; 2; 1])))
    ∧ (∀ start_date end_date product_sel sel,
         filter_sales sales start_date end_date product_sel = Ok sel -> 1%nat ∉ labels sel).
Proof.
  destruct (unparsable_date_row 0%nat 1%nat scenario_B sales_B stock_B
              2%nat 3%nat 5%nat scenario_B_prepared
              (ColObj [PStr "2024-01-15"; PStr "not a date"; PStr "2024-01-16"]) 1%nat
              eq_refl eq_refl eq_refl eq_refl scenario_B_date scenario_B_run)
    as (sales & Hs & Hn & Hdate & Hagg & Hfilter & _).
  exists sales. split; [exact Hs|]. split; [exact Hn|]. split; [exact Hdate|].
  split; [|exact Hfilter].
  vm_compute in Hs. injection Hs as <-.
  destruct (Hagg (SObj (PStr "A")) eq_refl)
    as (a & sales_agg & keys & g & rows & key_g & Ha & Hkeys & Hg & Hin & Hkey & Heq & _ & Hsum).
  exists a, sales_agg, g, rows. split; [exact Ha|]. split; [exact Hin|]. split.
  - destruct key_g as [z|f|[z|f|t]|[t|]]; try discriminate Heq.
    apply String.eqb_eq in Heq. by rewrite Heq in Hkey.
  - apply Hsum. reflexivity.
Defined.

Lemma load_failure_aborts_witness :
  main no_dashboard offline
  = (Raise StopScript,
     with_screen
       [Title "📊 Sales & Stock Management Dashboard (Google Sheets)";
        ErrorBox "Could not load Google Sheet: APIError: 403"] offline).
Proof. exact (load_failure_aborts no_dashboard offline "APIError: 403" eq_refl). Defined.

(** C4: a text in the Unit Price column of the Sales sheet is not coerced to
    zero: [sanitize_and_prepare] raises a TypeError, at the subtraction of
    line 57. *)
Theorem text_price_raises_type_error :
  (sanitize_and_prepare 0%nat 1%nat (world_of sales_text_price stock_A)).1 = Raise TypeError.
Proof. vm_compute. reflexivity. Qed.

(** a Sales sheet without records stops at the group-by of line 66 *)
Example empty_sales_raises_key_error :
  (sanitize_and_prepare 0%nat 1%nat (world_of sales_empty stock_A)).1
  = Raise (KeyError "Product").
Proof. vm_compute. reflexivity. Qed.

(** a text in a quantity column of the Stock sheet becomes 0 (line 63) *)
Example stock_text_is_coerced :
  ∃ stock, heap (sanitize_and_prepare 0%nat 1%nat (world_of sales_A stock_text_in)).2 !! 3%nat
           = Some stock
    ∧ getitem stock "Stock In" = Ok (ColInt [0]).
Proof. eexists. split; vm_compute; reflexivity. Qed.

End Witnesses.